(** * tamr_client: operations, datasets and the polling loop

    A shallow embedding of [tamr_client/operation.py],
    [tamr_client/dataset/_dataset.py] and [tamr_client/instance.py].

    Python values live in a store of mutable objects (dicts and lists are
    reached through references, so aliasing and [deepcopy] are explicit);
    every effect of the code (HTTP requests through the session, reads of the
    clock, calls of [sleep], allocation) is a transition on a [World].

    Not modelled: the rounding of floating-point time (the readings of the
    clock are rationals), Python's recursion limit, and characters outside
    one byte (a string is a sequence of one-byte characters). *)

From stdpp Require Import gmap strings list fin_maps pretty.
From Stdlib Require Import QArith Lqa.
Close Scope Q_scope.

Set Warnings "-register-all,-clear-no-such-hyp".

(** ** Python values and the object store *)

Abbreviation loc := nat (only parsing).

(** A Python value as the code handles it: the immutable values of JSON
    documents, and references to mutable objects (dicts and lists).
    [PFloat m e] stands for the float [m * 2^e]; the code never computes with
    floats that come from JSON. *)
Inductive pyval :=
| PNone
| PBool (b : bool)
| PInt (z : Z)
| PFloat (m e : Z)
| PStr (s : string)
| PRef (l : loc).

(** A mutable object: a dict with string keys, in insertion order, or a list. *)
Inductive obj :=
| ODict (items : list (string * pyval))
| OList (elems : list pyval).

Abbreviation heap := (list obj).

#[global] Instance pyval_eq_dec : EqDecision pyval.
Proof. solve_decision. Defined.

#[global] Instance obj_eq_dec : EqDecision obj.
Proof. solve_decision. Defined.

(** [d.get(k)] on the items of a dict. *)
Fixpoint dict_get (k : string) (items : list (string * pyval)) : option pyval :=
  match items with
  | [] => None
  | (k', v) :: rest => if String.eqb k k' then Some v else dict_get k rest
  end.

(** [d[k] = v] on the items of a dict: replaces in place, or appends. *)
Fixpoint dict_set (k : string) (v : pyval) (items : list (string * pyval))
  : list (string * pyval) :=
  match items with
  | [] => [(k, v)]
  | (k', v') :: rest =>
      if String.eqb k k' then (k', v) :: rest else (k', v') :: dict_set k v rest
  end.

(** The exceptions the modelled code can raise or let through. *)
Inductive exn :=
| KeyError (k : pyval)
| TypeError
| AttributeError
| IndexError
| ValueError
| OverflowError
| OSError
| JSONDecodeError
| HTTPError (status : Z)
| RequestException (msg : string)    (* whatever the transport raises *)
| OperationNotFound (msg : string)   (* operation.NotFound *)
| DatasetNotFound (msg : string)     (* dataset.NotFound *)
| Ambiguous (msg : string)           (* dataset.Ambiguous *)
| TimeoutError (msg : string).

#[global] Instance exn_eq_dec : EqDecision exn.
Proof. solve_decision. Defined.

(** The characters of a string, each as a one-character string
    (iterating over a [str]). *)
Fixpoint chars (s : string) : list pyval :=
  match s with
  | EmptyString => []
  | String c s' => PStr (String c EmptyString) :: chars s'
  end.

(** [c[k]] (subscription), for the containers and keys the code uses. *)
Definition py_getitem (h : heap) (c k : pyval) : exn + pyval :=
  match c with
  | PRef l =>
      match h !! l with
      | Some (ODict items) =>
          match k with
          | PStr s => match dict_get s items with
                      | Some v => inr v
                      | None => inl (KeyError k)
                      end
          | _ => inl (KeyError k)
          end
      | Some (OList elems) =>
          match k with
          | PInt i =>
              let n := Z.of_nat (length elems) in
              let j := if (i <? 0)%Z then (i + n)%Z else i in
              if (j <? 0)%Z then inl IndexError
              else match elems !! Z.to_nat j with
                   | Some v => inr v
                   | None => inl IndexError
                   end
          | _ => inl TypeError
          end
      | None => inl TypeError
      end
  | PStr s =>
      match k with
      | PInt i =>
          let n := Z.of_nat (String.length s) in
          let j := if (i <? 0)%Z then (i + n)%Z else i in
          if (j <? 0)%Z then inl IndexError
          else match chars s !! Z.to_nat j with
               | Some v => inr v
               | None => inl IndexError
               end
      | _ => inl TypeError
      end
  | _ => inl TypeError
  end.

(** [c.get(k)]: only dicts have the method. *)
Definition py_get (h : heap) (c : pyval) (k : string) : exn + pyval :=
  match c with
  | PRef l =>
      match h !! l with
      | Some (ODict items) => inr (default PNone (dict_get k items))
      | _ => inl AttributeError
      end
  | _ => inl AttributeError
  end.

(** [len(c)]. *)
Definition py_len (h : heap) (c : pyval) : exn + nat :=
  match c with
  | PRef l =>
      match h !! l with
      | Some (ODict items) => inr (length items)
      | Some (OList elems) => inr (length elems)
      | None => inl TypeError
      end
  | PStr s => inr (String.length s)
  | _ => inl TypeError
  end.

(** [tuple(c)]: the elements of a list, the keys of a dict, the characters of
    a string. A tuple is immutable, so it is a value, not an object. *)
Definition py_tuple (h : heap) (c : pyval) : exn + list pyval :=
  match c with
  | PRef l =>
      match h !! l with
      | Some (ODict items) => inr (PStr <$> items.*1)
      | Some (OList elems) => inr elems
      | None => inl TypeError
      end
  | PStr s => inr (chars s)
  | _ => inl TypeError
  end.

(** [v in [s1, ..., sn]] for a list of string literals: [==] against each. *)
Definition py_in_strs (v : pyval) (l : list string) : bool :=
  match v with
  | PStr s => existsb (String.eqb s) l
  | _ => false
  end.

(** ** deepcopy *)

(** [copy.deepcopy]'s memo: the copy already made of each object visited. *)
Abbreviation memo := (gmap loc loc).

(** Copies the values of a container one after the other, threading the store
    and the memo. *)
Fixpoint copy_all (f : heap → memo → pyval → option (heap * memo * pyval))
    (h : heap) (m : memo) (vs : list pyval) : option (heap * memo * list pyval) :=
  match vs with
  | [] => Some (h, m, [])
  | v :: rest =>
      match f h m v with
      | None => None
      | Some (h1, m1, v') =>
          match copy_all f h1 m1 rest with
          | None => None
          | Some (h2, m2, rest') => Some (h2, m2, v' :: rest')
          end
      end
  end.

(** [copy.deepcopy(v, memo)] of the Python standard library: immutable values
    are returned as they are; an object already in the memo is answered by its
    copy; otherwise an empty copy is allocated and entered in the memo, the
    values are copied in order and stored in it (keys are strings and copy to
    themselves). [None] when the fuel is exhausted or a reference dangles. *)
Fixpoint deepcopy_go (fuel : nat) (h : heap) (m : memo) (v : pyval)
  : option (heap * memo * pyval) :=
  match v with
  | PRef l =>
      match m !! l with
      | Some l' => Some (h, m, PRef l')
      | None =>
          match fuel with
          | O => None
          | S fuel' =>
              let l' := length h in
              match h !! l with
              | None => None
              | Some (ODict items) =>
                  match copy_all (deepcopy_go fuel') (h ++ [ODict []])
                          (<[l := l']> m) (items.*2) with
                  | None => None
                  | Some (h2, m2, vs) =>
                      Some (<[l' := ODict (zip (items.*1) vs)]> h2, m2, PRef l')
                  end
              | Some (OList elems) =>
                  match copy_all (deepcopy_go fuel') (h ++ [OList []])
                          (<[l := l']> m) elems with
                  | None => None
                  | Some (h2, m2, vs) =>
                      Some (<[l' := OList vs]> h2, m2, PRef l')
                  end
              end
          end
      end
  | _ => Some (h, m, v)
  end.

(** [deepcopy(v)] with a fresh memo; an object is entered in the memo at most
    once, so one unit of fuel per object of the store is enough. *)
Definition deepcopy_heap (h : heap) (v : pyval) : option (heap * memo * pyval) :=
  deepcopy_go (S (length h)) h ∅ v.

(** ** JSON documents and HTTP *)

(** A parsed JSON document, as [json.loads] sees it (an object carries each
    of its keys once). *)
Inductive json :=
| JNull
| JBool (b : bool)
| JInt (z : Z)
| JFloat (m e : Z)
| JStr (s : string)
| JArr (elems : list json)
| JObj (members : list (string * json)).

(** Builds the values of the elements of an array, left to right. *)
Definition alloc_all (f : json → heap → heap * pyval)
  : list json → heap → heap * list pyval :=
  fix go (js : list json) (h : heap) : heap * list pyval :=
    match js with
    | [] => (h, [])
    | j :: js' =>
        let '(h1, v) := f j h in
        let '(h2, vs) := go js' h1 in
        (h2, v :: vs)
    end.

(** Builds the values of the members of an object, left to right. *)
Definition alloc_members (f : json → heap → heap * pyval)
  : list (string * json) → heap → heap * list (string * pyval) :=
  fix go (ms : list (string * json)) (h : heap) : heap * list (string * pyval) :=
    match ms with
    | [] => (h, [])
    | (k, j) :: ms' =>
        let '(h1, v) := f j h in
        let '(h2, kvs) := go ms' h1 in
        (h2, (k, v) :: kvs)
    end.

(** Builds the Python value of a document: every array and object becomes a
    new list or dict of the store. *)
Fixpoint alloc_json (j : json) (h : heap) : heap * pyval :=
  match j with
  | JNull => (h, PNone)
  | JBool b => (h, PBool b)
  | JInt z => (h, PInt z)
  | JFloat m e => (h, PFloat m e)
  | JStr s => (h, PStr s)
  | JArr elems =>
      let '(h1, vs) := alloc_all alloc_json elems h in
      (h1 ++ [OList vs], PRef (length h1))
  | JObj members =>
      let '(h1, kvs) := alloc_members alloc_json members h in
      (h1 ++ [ODict kvs], PRef (length h1))
  end.

(** The member [k] of a JSON object. *)
Fixpoint json_member (k : string) (members : list (string * json)) : option json :=
  match members with
  | [] => None
  | (k', j) :: rest => if String.eqb k k' then Some j else json_member k rest
  end.

Inductive Method := GET | POST | DELETE.

Record Request := {
  req_method : Method;
  req_url : string;
  req_params : list (string * string)
}.

(** What the code reads of a [requests.Response]: [status_code], [url] and
    the body that [json()] parses ([None]: the body is not JSON). *)
Record Response := {
  status_code : Z;
  resp_url : string;
  body : option json
}.

(** The session is a supplied capability. Its answer to a request may depend
    on everything sent before; instead of answering it may fail, with an
    exception of the transport. *)
Definition Session := list Request → Request → string + Response.

(** ** The world and the monad of effects *)

Record World := {
  mem : heap;                (* the objects allocated so far *)
  clock : nat → Q;           (* what the n-th call of time() returns *)
  ticks : nat;               (* number of calls of time() so far *)
  requests : list Request;   (* requests sent through the session, oldest first *)
  slept : list Z             (* arguments of the calls of sleep(), oldest first *)
}.

Definition set_mem (h : heap) (w : World) : World :=
  {| mem := h; clock := clock w; ticks := ticks w;
     requests := requests w; slept := slept w |}.

Definition tick (w : World) : World :=
  {| mem := mem w; clock := clock w; ticks := S (ticks w);
     requests := requests w; slept := slept w |}.

Definition sent (rq : Request) (w : World) : World :=
  {| mem := mem w; clock := clock w; ticks := ticks w;
     requests := requests w ++ [rq]; slept := slept w |}.

Definition asleep (d : Z) (w : World) : World :=
  {| mem := mem w; clock := clock w; ticks := ticks w;
     requests := requests w; slept := slept w ++ [d] |}.

(** The outcome of a computation: a value, an exception, or [Stuck] when the
    model ran out of fuel (the code is still running) or met a dangling
    reference (which no Python store has). *)
Inductive Res (A : Type) :=
| Ok (a : A) (w : World)
| Raise (e : exn) (w : World)
| Stuck.
Arguments Ok {A} a w.
Arguments Raise {A} e w.
Arguments Stuck {A}.

Definition M (A : Type) := World → Res A.

Definition ret {A} (a : A) : M A := fun w => Ok a w.
Definition raise {A} (e : exn) : M A := fun w => Raise e w.
Definition bind {A B} (c : M A) (k : A → M B) : M B :=
  fun w => match c w with
           | Ok a w' => k a w'
           | Raise e w' => Raise e w'
           | Stuck => Stuck
           end.

Notation "x <- c ;; k" := (bind c (fun x => k))
  (at level 100, c at next level, right associativity).
Notation "c ;;; k" := (bind c (fun _ => k))
  (at level 100, right associativity).

(** A pure operation on the store that may raise. *)
Definition lift {A} (f : heap → exn + A) : M A :=
  fun w => match f (mem w) with
           | inr a => Ok a w
           | inl e => Raise e w
           end.

(** [time.time()]. *)
Definition now : M Q := fun w => Ok (clock w (ticks w)) (tick w).

(** [copy.deepcopy(v)]. *)
Definition deepcopy (v : pyval) : M pyval :=
  fun w => match deepcopy_heap (mem w) v with
           | Some (h', _, v') => Ok v' (set_mem h' w)
           | None => Stuck
           end.

(** [{...}] and [[...]] displays: a new object. *)
Definition new_obj (o : obj) : M pyval :=
  fun w => Ok (PRef (length (mem w))) (set_mem (mem w ++ [o]) w).

(** [session.get(url, params=params)]. *)
Definition session_get (session : Session) (url : string)
    (params : list (string * string)) : M Response :=
  fun w =>
    let rq := {| req_method := GET; req_url := url; req_params := params |} in
    match session (requests w) rq with
    | inr r => Ok r (sent rq w)
    | inl msg => Raise (RequestException msg) (sent rq w)
    end.

(** [session.post(url)]. *)
Definition session_post (session : Session) (url : string) : M Response :=
  fun w =>
    let rq := {| req_method := POST; req_url := url; req_params := [] |} in
    match session (requests w) rq with
    | inr r => Ok r (sent rq w)
    | inl msg => Raise (RequestException msg) (sent rq w)
    end.

(** [session.delete(url, params=params)]. *)
Definition session_delete (session : Session) (url : string)
    (params : list (string * string)) : M Response :=
  fun w =>
    let rq := {| req_method := DELETE; req_url := url; req_params := params |} in
    match session (requests w) rq with
    | inr r => Ok r (sent rq w)
    | inl msg => Raise (RequestException msg) (sent rq w)
    end.

(** [response.json()]. *)
Definition response_json (r : Response) : M pyval :=
  fun w => match body r with
           | None => Raise JSONDecodeError w
           | Some j => let '(h', v) := alloc_json j (mem w) in Ok v (set_mem h' w)
           end.

Definition Qltb (x y : Q) : bool :=
  (Qnum x * Zpos (Qden y) <? Qnum y * Zpos (Qden x))%Z.

(** ** Instances and URLs *)

(** Modelled from the spec: the [Instance] value type of
    [tamr_client._types], which is not among the sources here,
    "{protocol, host, port (optional)}". The fields are the ones the code
    reads ([instance.protocol], [instance.host], [instance.port]) and passes
    ([URL(instance=..., path=...)]); [path] holds whatever value the code
    stores there. *)
Record Instance := {
  protocol : string;
  host : string;
  port : option Z
}.

(** Modelled from the spec: the [URL] value type of [tamr_client._types],
    "{instance, path}: a resource locator scoped to an Instance". *)
Record URL := {
  instance : Instance;
  path : pyval
}.

(** [instance.origin]. *)
Definition origin (instance : Instance) : string :=
  match port instance with
  | None => protocol instance +:+ "://" +:+ host instance
  | Some p => protocol instance +:+ "://" +:+ host instance +:+ ":" +:+ pretty p
  end.

(** What the code uses and is defined elsewhere: [str(url)] of
    [tamr_client._types.URL], which responses [response.successful] of
    [tamr_client.response] accepts, Python's formatting of floats, dicts
    and lists inside an f-string, and which sleeps the operating system
    refuses. Every result below holds whatever these are. *)
Class Externals := {
  url_str : URL → string;
  http_ok : Response → bool;
  py_repr : heap → pyval → string;
  os_refuses : World → Z → bool
}.

(** The longest sleep, in seconds, whose length in nanoseconds fits the
    64-bit integer [time.sleep] converts it to. *)
Definition sleep_max : Z := 9223372036.

(** [time.sleep(d)] for an [int]. The length is first converted to
    nanoseconds: beyond [sleep_max] seconds either way the conversion raises
    [OverflowError]. A negative length is then a [ValueError]. The length is
    then handed to the operating system, which may refuse it with an
    [OSError] (under Linux, when the deadline, its monotonic clock plus the
    length, is more than it represents: lengths within the machine's uptime
    of [sleep_max]). *)
Definition sleep `{!Externals} (d : Z) : M unit :=
  fun w =>
    if ((d <? - sleep_max) || (sleep_max <? d))%Z then Raise OverflowError w
    else if (d <? 0)%Z then Raise ValueError w
    else if os_refuses w d then Raise OSError w
    else Ok tt (asleep d w).

(** Modelled from the spec: [response.successful], which is not among the
    sources here; it "classifies an HTTP response as successful or raises a
    transport-level error", and the code goes on with the response it
    returns. *)
Definition successful `{!Externals} (r : Response) : M Response :=
  if http_ok r then ret r else raise (HTTPError (status_code r)).

(** [f"{v}"]. *)
Definition py_format `{!Externals} (h : heap) (v : pyval) : string :=
  match v with
  | PStr s => s
  | PInt z => pretty z
  | PBool true => "True"
  | PBool false => "False"
  | PNone => "None"
  | _ => py_repr h v
  end.

(** [f"{t}"] for an [Optional[int]]. *)
Definition format_optional_int (t : option Z) : string :=
  match t with
  | None => "None"
  | Some z => pretty z
  end.

(** ** tamr_client/operation.py *)

Module operation.

Record Operation := {
  url : URL;
  type : pyval;
  status : pyval;        (* [PNone] when absent *)
  description : pyval    (* [PNone] when absent *)
}.

Section defs.
Context `{!Externals}.

Definition _from_json (url : URL) (data : pyval) : M Operation :=
  cp <- deepcopy data ;;
  type_ <- lift (fun h => py_getitem h cp (PStr "type")) ;;
  status_ <- lift (fun h => py_get h cp "status") ;;
  description_ <- lift (fun h => py_get h cp "description") ;;
  ret {| url := url; type := type_; status := status_;
         description := description_ |}.

Definition _from_url (session : Session) (url : URL) : M Operation :=
  r <- session_get session (url_str url) [] ;;
  if (status_code r =? 404)%Z then raise (OperationNotFound (url_str url))
  else
    r' <- successful r ;;
    data <- response_json r' ;;
    _from_json url data.

Definition poll (session : Session) (operation : Operation) : M Operation :=
  _from_url session (url operation).

(** The loop condition
    [timeout_seconds is None or now() - started < timeout_seconds]:
    the clock is read only when there is a timeout. *)
Definition within_deadline (started : Q) (timeout_seconds : option Z) : M bool :=
  match timeout_seconds with
  | None => ret true
  | Some t => t1 <- now ;; ret (Qltb (t1 - started) (inject_Z t))
  end.

(** The [while] loop of [wait]; each unit of fuel pays for one test of the
    loop condition and one run of the body. *)
Fixpoint wait_loop (fuel : nat) (session : Session)
    (poll_interval_seconds : Z) (timeout_seconds : option Z)
    (started : Q) (operation : Operation) : M Operation :=
  match fuel with
  | O => fun _ => Stuck
  | S fuel' =>
      continue <- within_deadline started timeout_seconds ;;
      if continue : bool then
        if decide (status operation = PNone) then ret operation
        else
          state <- lift (fun h => py_getitem h (status operation) (PStr "state")) ;;
          if py_in_strs state ["PENDING"; "RUNNING"] then
            sleep poll_interval_seconds ;;;
            operation' <- poll session operation ;;
            wait_loop fuel' session poll_interval_seconds timeout_seconds
              started operation'
          else
            state' <- lift (fun h => py_getitem h (status operation) (PStr "state")) ;;
            if py_in_strs state' ["CANCELED"; "SUCCEEDED"; "FAILED"] then
              ret operation
            else
              operation' <- poll session operation ;;
              wait_loop fuel' session poll_interval_seconds timeout_seconds
                started operation'
      else
        raise (TimeoutError
                 ("Waiting for operation took longer than "
                  +:+ format_optional_int timeout_seconds +:+ " seconds."))
  end.

(** [wait(session, operation, poll_interval_seconds=3, timeout_seconds=None)]. *)
Definition wait (fuel : nat) (session : Session) (operation : Operation)
    (poll_interval_seconds : Z) (timeout_seconds : option Z) : M Operation :=
  started <- now ;;
  wait_loop fuel session poll_interval_seconds timeout_seconds started operation.

Definition succeeded (operation : Operation) : M bool :=
  if decide (status operation = PNone) then ret false
  else
    state <- lift (fun h => py_getitem h (status operation) (PStr "state")) ;;
    ret (bool_decide (state = PStr "SUCCEEDED")).

Definition _never : string := "0000-00-00T00:00:00.000Z".

Definition _description : string :=
  "Tamr returned HTTP 204 for this operation, indicating that all"
  +:+ String (Ascii.ascii_of_nat 10) "            "
  +:+ "results that would be produced by the operation are already up-to-date.".

Definition _from_response (instance : Instance) (response : Response)
  : M Operation :=
  resource_json <-
    (if (status_code response =? 204)%Z then
       status_ <- new_obj (ODict [("state", PStr "SUCCEEDED");
                                  ("startTime", PStr _never);
                                  ("endTime", PStr _never);
                                  ("message", PStr "")]) ;;
       created <- new_obj (ODict [("username", PStr "");
                                  ("time", PStr _never);
                                  ("version", PStr "-1")]) ;;
       lastModified <- new_obj (ODict [("username", PStr "");
                                       ("time", PStr _never);
                                       ("version", PStr "-1")]) ;;
       new_obj (ODict [("id", PStr "-1");
                       ("type", PStr "NOOP");
                       ("description", PStr _description);
                       ("status", status_);
                       ("created", created);
                       ("lastModified", lastModified);
                       ("relativeId", PStr "operations/-1")])
     else response_json response) ;;
  _id <- lift (fun h => py_getitem h resource_json (PStr "id")) ;;
  _path <- lift (fun h => inr ("operations/" +:+ py_format h _id)) ;;
  _from_json {| instance := instance; path := PStr _path |} resource_json.

End defs.
End operation.

(** ** tamr_client/dataset/_dataset.py *)

Module dataset.

Record Dataset := {
  url : URL;
  name : pyval;
  key_attribute_names : list pyval;   (* a tuple *)
  description : pyval                 (* [PNone] when absent *)
}.

Section defs.
Context `{!Externals}.

Definition _from_json (url : URL) (data : pyval) : M Dataset :=
  cp <- deepcopy data ;;
  name_ <- lift (fun h => py_getitem h cp (PStr "name")) ;;
  description_ <- lift (fun h => py_get h cp "description") ;;
  names <- lift (fun h => py_getitem h cp (PStr "keyAttributeNames")) ;;
  key_attribute_names_ <- lift (fun h => py_tuple h names) ;;
  ret {| url := url; name := name_;
         key_attribute_names := key_attribute_names_;
         description := description_ |}.

Definition by_name (session : Session) (instance : Instance) (name : string)
  : M Dataset :=
  r <- session_get session
         (url_str {| instance := instance; path := PStr "datasets" |})
         [("filter", "name==" +:+ name)] ;;
  matches <- response_json r ;;
  n <- lift (fun h => py_len h matches) ;;
  if (n =? 0)%nat then raise (DatasetNotFound (resp_url r))
  else
    n' <- lift (fun h => py_len h matches) ;;
    if (1 <? n')%nat then raise (Ambiguous (resp_url r))
    else
      first <- lift (fun h => py_getitem h matches (PInt 0)) ;;
      relative_id <- lift (fun h => py_getitem h first (PStr "relativeId")) ;;
      first' <- lift (fun h => py_getitem h matches (PInt 0)) ;;
      _from_json {| instance := instance; path := relative_id |} first'.

Definition _by_url (session : Session) (url : URL) : M Dataset :=
  r <- session_get session (url_str url) [] ;;
  if (status_code r =? 404)%Z then raise (DatasetNotFound (url_str url))
  else
    r' <- successful r ;;
    data <- response_json r' ;;
    _from_json url data.

Definition by_resource_id (session : Session) (instance : Instance) (id : string)
  : M Dataset :=
  _by_url session {| instance := instance; path := PStr ("datasets/" +:+ id) |}.

Definition _materialize_async (session : Session) (dataset : Dataset)
  : M operation.Operation :=
  r <- session_post session (url_str (url dataset) +:+ ":refresh") ;;
  operation._from_response (instance (url dataset)) r.

(** [materialize]: [operation.wait(session, op)] runs with its defaults, a
    poll interval of 3 seconds and no timeout. *)
Definition materialize (fuel : nat) (session : Session) (dataset : Dataset)
  : M operation.Operation :=
  op <- _materialize_async session dataset ;;
  operation.wait fuel session op 3 None.

(** [delete(session, dataset, cascade=False)]; the query parameter carries the
    boolean as [requests] writes it, ["True"] or ["False"]. The function
    returns [None]. *)
Definition delete (session : Session) (dataset : Dataset) (cascade : bool)
  : M unit :=
  r <- session_delete session (url_str (url dataset))
         [("cascade", if cascade then "True" else "False")] ;;
  if (status_code r =? 404)%Z then raise (DatasetNotFound (url_str (url dataset)))
  else
    successful r ;;;
    ret tt.

End defs.
End dataset.

(** ** tamr_client/instance.py *)

(** [instance._version]. *)
Definition _version (session : Session) (instance : Instance) : M pyval :=
  r <- session_get session
         (origin instance +:+ "/api/versioned/service/version") [] ;;
  response_json r.

(** [instance.version]. *)
Definition version (session : Session) (instance : Instance) : M pyval :=
  v <- _version session instance ;;
  lift (fun h => py_getitem h v (PStr "version")).

(** ** Vocabulary of the specifications *)

(** The value a copy holds where the original holds [v]: references are
    redirected through the memo. *)
Definition tr (m : memo) (v : pyval) : pyval :=
  match v with
  | PRef l => PRef (default l (m !! l))
  | _ => v
  end.

Definition tr_obj (m : memo) (o : obj) : obj :=
  match o with
  | ODict items => ODict (prod_map id (tr m) <$> items)
  | OList elems => OList (tr m <$> elems)
  end.

Definition obj_values (o : obj) : list pyval :=
  match o with
  | ODict items => items.*2
  | OList elems => elems
  end.

(** Every reference of [v] points into the region [R]. *)
Definition refs_in (R : gset loc) (v : pyval) : Prop :=
  match v with
  | PRef l => l ∈ R
  | _ => True
  end.

(** The region [R] of the store [h] is closed: its objects exist and refer
    only to objects of [R]. The objects reachable from a value form such a
    region in every store of a running program. *)
Definition closed_in (h : heap) (R : gset loc) : Prop :=
  ∀ l, l ∈ R → ∃ o, h !! l = Some o ∧ Forall (refs_in R) (obj_values o).

(** The locations allocated between the store [h] and its extension [h']. *)
Definition fresh (h h' : heap) : gset loc :=
  set_seq (length h) (length h' - length h).

(** While [deepcopy] of a value of the closed region [R] of [h0] runs: the
    store only grew, and the memo sends objects of [R] to objects allocated
    since. *)
Definition memo_ok (h0 : heap) (R : gset loc) (h : heap) (m : memo) : Prop :=
  h0 `prefix_of` h ∧
  ∀ l l', m !! l = Some l' → l ∈ R ∧ length h0 ≤ l' ∧ l' < length h.

(** The object at [l'] in [h'] is the finished copy of the object at [l] in
    [h0]: the same keys and values, with references redirected through the
    memo, which knows every object the original refers to. *)
Definition copied (h0 h' : heap) (m' : memo) (l l' : loc) : Prop :=
  ∃ o, h0 !! l = Some o ∧ h' !! l' = Some (tr_obj m' o) ∧
       Forall (refs_in (dom m')) (obj_values o).

(** What a call of [deepcopy] that starts from store [h] and memo [m] and ends
    with [h'] and [m'] has done: it extended both, and every object it entered
    in the memo is copied, above the old store. *)
Definition copy_post (h0 : heap) (R : gset loc) (h : heap) (m : memo)
    (h' : heap) (m' : memo) : Prop :=
  h `prefix_of` h' ∧ m ⊆ m' ∧ memo_ok h0 R h' m' ∧
  ∀ l l', m' !! l = Some l' → m !! l = None →
          length h ≤ l' ∧ copied h0 h' m' l l'.

(** What can be observed of a value by reading the store, down to depth [n]. *)
Inductive tree :=
| TLeaf (v : pyval)
| TDict (items : list (string * tree))
| TList (elems : list tree)
| TCut.

Fixpoint view (n : nat) (h : heap) (v : pyval) : tree :=
  match v with
  | PRef l =>
      match n with
      | O => TCut
      | S n' =>
          match h !! l with
          | Some (ODict items) => TDict (prod_map id (view n' h) <$> items)
          | Some (OList elems) => TList (view n' h <$> elems)
          | None => TCut
          end
      end
  | _ => TLeaf v
  end.

(** The store [h2] holds the same objects as [h1] at the locations from [lo]
    up to the end of [h1]: whatever was written, it was written below [lo] or
    allocated after [h1]. *)
Definition same_above (lo : nat) (h1 h2 : heap) : Prop :=
  ∀ l, lo ≤ l → l < length h1 → h2 !! l = h1 !! l.

(** What someone who holds references to objects below [lo] can do to a store
    that has [hi] objects: update in place an object below [lo] (as
    [d[k] = v], [del d[k]], [l.append(x)] do) or an object created since, and
    create objects. The objects from [lo] up to [hi] are out of reach. *)
Inductive mutated (lo hi : nat) : heap → heap → Prop :=
| mutated_done h : mutated lo hi h h
| mutated_update h l o h' :
    l < lo ∨ hi ≤ l → mutated lo hi (<[l := o]> h) h' → mutated lo hi h h'
| mutated_create h o h' :
    mutated lo hi (h ++ [o]) h' → mutated lo hi h h'.

(** [d[k] = v] through a reference, as a caller holding the raw JSON can do. *)
Definition py_setitem (h : heap) (c : pyval) (k : string) (v : pyval) : exn + heap :=
  match c with
  | PRef l =>
      match h !! l with
      | Some (ODict items) => inr (<[l := ODict (dict_set k v items)]> h)
      | _ => inl TypeError
      end
  | _ => inl TypeError
  end.

(** The state an operation shows in a store: [operation.status["state"]]. *)
Definition state_of (h : heap) (op : operation.Operation) : exn + pyval :=
  py_getitem h (operation.status op) (PStr "state").

(** The computation touched nothing but the store. *)
Definition only_mem (w w' : World) : Prop :=
  clock w' = clock w ∧ ticks w' = ticks w ∧
  requests w' = requests w ∧ slept w' = slept w.

(** [c] touches nothing but the store. *)
Definition frames {A} (c : M A) : Prop :=
  ∀ w, match c w with
       | Ok _ w' | Raise _ w' => only_mem w w'
       | Stuck => True
       end.

(** Every exception [c] raises satisfies [P]. *)
Definition raises {A} (P : exn → Prop) (c : M A) : Prop :=
  ∀ w e w', c w = Raise e w' → P e.

(** An error that is not [wait]'s own timeout. *)
Definition not_timeout (e : exn) : Prop := ∀ msg, e ≠ TimeoutError msg.

(** The world [w1] after a deadline check of [wait] that let the loop go on. *)
Definition check_passes `{!Externals} (timeout : option Z) (started : Q)
    (w w1 : World) : Prop :=
  operation.within_deadline started timeout w = Ok true w1.

(** [sleep] accepts the length [d] in the world [w]: it fits, it is not
    negative, and the operating system does not refuse it. *)
Definition accepted `{!Externals} (d : Z) (w : World) : Prop :=
  (0 ≤ d ≤ sleep_max)%Z ∧ os_refuses w d = false.

(** [sleep] rejects the length [d] in the world [w] with the error [e]. *)
Definition sleep_error `{!Externals} (d : Z) (w : World) (e : exn) : Prop :=
  (e = OverflowError ∧ (d < - sleep_max ∨ sleep_max < d)%Z) ∨
  (e = ValueError ∧ (- sleep_max ≤ d < 0)%Z) ∨
  (e = OSError ∧ (0 ≤ d ≤ sleep_max)%Z ∧ os_refuses w d = true).

(** The world after [wait] has read the clock and made its first deadline
    check, which reads the clock again when there is a timeout. *)
Definition first_turn (timeout : option Z) (w : World) : World :=
  match timeout with
  | None => tick w
  | Some _ => tick (tick w)
  end.

(** A turn of the loop of [wait] that starts in the world [w] holding [op]
    polls it in the world [wp]: after a sleep that was accepted when the
    operation is in progress, at once when its state is not recognized. *)
Definition polls_in `{!Externals} (d : Z) (op : operation.Operation)
    (w wp : World) : Prop :=
  ∃ st, state_of (mem w) op = inr st ∧
    ((py_in_strs st ["PENDING"; "RUNNING"] = true ∧
      accepted d w ∧ wp = asleep d w) ∨
     (py_in_strs st ["PENDING"; "RUNNING"] = false ∧
      py_in_strs st ["CANCELED"; "SUCCEEDED"; "FAILED"] = false ∧ wp = w)).

(** The turns of the loop of [wait] without timeout, started holding [op]
    in the world [w]: it comes to the start of a turn holding [op'] in the
    world [w'] when [op'] is what the poll of the turn before returned. *)
Inductive holds `{!Externals} (session : Session) (d : Z)
    (op : operation.Operation) (w : World)
  : operation.Operation → World → Prop :=
| holds_first : holds session d op w op w
| holds_next opk wk wp op' w' :
    holds session d op w opk wk →
    polls_in d opk wk wp →
    operation.poll session opk wp = Ok op' w' →
    holds session d op w op' w'.

(** The request a poll of [op] sends. *)
Definition get_request `{!Externals} (op : operation.Operation) : Request :=
  {| req_method := GET; req_url := url_str (operation.url op); req_params := [] |}.

(** The values [vs] were built on top of [h]: the store grew from [h] to
    [h'], and the new objects form a closed region that holds them. *)
Definition allocates (h h' : heap) (vs : list pyval) : Prop :=
  h `prefix_of` h' ∧ closed_in h' (fresh h h') ∧ Forall (refs_in (fresh h h')) vs.

(** The request [by_name] sends. *)
Definition by_name_request `{!Externals} (instance : Instance) (name : string)
  : Request :=
  {| req_method := GET;
     req_url := url_str {| instance := instance; path := PStr "datasets" |};
     req_params := [("filter", "name==" +:+ name)] |}.

(** What reading the value built from the document [j] shows, down to depth
    [n]. *)
Fixpoint json_view (n : nat) (j : json) {struct n} : tree :=
  match j with
  | JNull => TLeaf PNone
  | JBool b => TLeaf (PBool b)
  | JInt z => TLeaf (PInt z)
  | JFloat m e => TLeaf (PFloat m e)
  | JStr s => TLeaf (PStr s)
  | JArr elems =>
      match n with
      | O => TCut
      | S n' => TList (json_view n' <$> elems)
      end
  | JObj members =>
      match n with
      | O => TCut
      | S n' => TDict (prod_map id (json_view n') <$> members)
      end
  end.

(** The member [k] of a JSON object, [null] when it has none: what
    [d.get(k)] answers. *)
Definition json_get (k : string) (members : list (string * json)) : json :=
  default JNull (json_member k members).

(** [d.get(k)] on the items of a dict, [None] when absent. *)
Definition dict_get_or_none (k : string) (items : list (string * pyval)) : pyval :=
  default PNone (dict_get k items).

(** [c] leaves every object of the store it finds as it is: it only
    allocates. *)
Definition grows {A} (c : M A) : Prop :=
  ∀ w, match c w with
       | Ok _ w' | Raise _ w' => mem w `prefix_of` mem w'
       | Stuck => True
       end.

(** [c] sends exactly the request [rq], and neither sleeps nor reads the
    clock. *)
Definition sends {A} (rq : Request) (c : M A) : Prop :=
  ∀ w, match c w with
       | Ok _ w' | Raise _ w' =>
           requests w' = requests w ++ [rq] ∧ slept w' = slept w ∧
           ticks w' = ticks w ∧ clock w' = clock w
       | Stuck => True
       end.

(** The GET of a URL without parameters. *)
Definition get_url_request `{!Externals} (u : URL) : Request :=
  {| req_method := GET; req_url := url_str u; req_params := [] |}.

(** The request [materialize] starts with. *)
Definition refresh_request `{!Externals} (ds : dataset.Dataset) : Request :=
  {| req_method := POST; req_url := url_str (dataset.url ds) +:+ ":refresh";
     req_params := [] |}.

(** The request [delete] sends. *)
Definition delete_request `{!Externals} (ds : dataset.Dataset) (cascade : bool)
  : Request :=
  {| req_method := DELETE; req_url := url_str (dataset.url ds);
     req_params := [("cascade", if cascade then "True" else "False")] |}.

(** The request [version] sends. *)
Definition version_request (instance : Instance) : Request :=
  {| req_method := GET;
     req_url := origin instance +:+ "/api/versioned/service/version";
     req_params := [] |}.

(** Whether a document is an object: the value of any other document cannot
    be subscripted by a key. *)
Definition is_object (j : json) : bool :=
  match j with JObj _ => true | _ => false end.

(** What [tuple] shows of the value of a document, down to depth [n]: the
    elements of an array, the keys of an object, the characters of a string;
    nothing else can be iterated. *)
Definition json_tuple_view (n : nat) (j : json) : option (list tree) :=
  match j with
  | JArr elems => Some (json_view n <$> elems)
  | JObj members => Some (TLeaf <$> (PStr <$> members.*1))
  | JStr s => Some (TLeaf <$> chars s)
  | _ => None
  end.

(** The placeholder [_from_response] makes for "204 No Content", as a
    document: the dict displays of the code allocate what building this
    document allocates. *)
Definition noop_document : json :=
  JObj [("id", JStr "-1");
        ("type", JStr "NOOP");
        ("description", JStr operation._description);
        ("status", JObj [("state", JStr "SUCCEEDED");
                         ("startTime", JStr operation._never);
                         ("endTime", JStr operation._never);
                         ("message", JStr "")]);
        ("created", JObj [("username", JStr ""); ("time", JStr operation._never);
                          ("version", JStr "-1")]);
        ("lastModified", JObj [("username", JStr "");
                               ("time", JStr operation._never);
                               ("version", JStr "-1")]);
        ("relativeId", JStr "operations/-1")].

(** The document a response to [_from_response] stands for. *)
Definition response_document (r : Response) : option json :=
  if (status_code r =? 204)%Z then Some noop_document else body r.

(** Whether the document of an operation shows it settled, and then whether
    it succeeded: its status is absent or null, or its state is one of
    CANCELED, SUCCEEDED and FAILED. *)
Definition settled (members : list (string * json)) : option bool :=
  match json_get "status" members with
  | JNull => Some false
  | JObj sm =>
      match json_member "state" sm with
      | Some (JStr st) =>
          if existsb (String.eqb st) ["CANCELED"; "SUCCEEDED"; "FAILED"]
          then Some (bool_decide (st = "SUCCEEDED"))
          else None
      | _ => None
      end
  | _ => None
  end.

(** ** A concrete environment, for examples *)

(** Modelled from the spec: the responses [response.successful] accepts are
    the 2xx ones ("any other non-2xx fails with a generic transport error;
    2xx: deserialize"). *)
Definition http_ok_2xx (r : Response) : bool :=
  (200 <=? status_code r)%Z && (status_code r <? 300)%Z.

(** Modelled from the spec: [str(url)], which "serializes to
    <origin>/api/versioned/<path>". *)
Definition url_str_versioned (u : URL) : string :=
  origin (instance u) +:+ "/api/versioned/"
  +:+ match path u with PStr s => s | _ => "" end.

Definition sample_externals : Externals :=
  {| url_str := url_str_versioned;
     http_ok := http_ok_2xx;
     py_repr := fun _ _ => "";
     os_refuses := fun _ _ => false |}.

Definition sample_instance : Instance :=
  {| protocol := "https"; host := "example.com"; port := Some 9100%Z |}.

Definition sample_url : URL :=
  {| instance := sample_instance; path := PStr "operations/1" |}.

(** A session that answers the n-th request with the n-th document of a
    script, and is unreachable afterwards. *)
Definition scripted (answers : list json) : Session :=
  fun history _ =>
    match answers !! length history with
    | Some j => inr {| status_code := 200; resp_url := "https://example.com/x";
                       body := Some j |}
    | None => inl "connection refused"
    end.

(** The JSON of an operation in state [state]. *)
Definition operation_json (state : string) : json :=
  JObj [("id", JStr "1"); ("type", JStr "SPARK");
        ("status", JObj [("state", JStr state); ("message", JStr "")])].

(** Sessions for the examples: the operation is found pending, then
    succeeded; succeeded at once; and answered by a status without state. *)
Definition pending_then_succeeded : Session :=
  scripted [operation_json "PENDING"; operation_json "SUCCEEDED"].

Definition succeeded_at_once : Session :=
  scripted [operation_json "SUCCEEDED"].

Definition status_without_state : Session :=
  scripted [JObj [("type", JStr "SPARK"); ("status", JObj [])]].

(** A world whose store holds one status dict, in state [state]; the clock
    advances by one second at each reading. *)
Definition sample_world (state : string) : World :=
  {| mem := [ODict [("state", PStr state)]];
     clock := fun n => inject_Z (Z.of_nat n);
     ticks := 0; requests := []; slept := [] |}.

(** An operation whose status is the dict at location 0. *)
Definition sample_operation : operation.Operation :=
  {| operation.url := sample_url; operation.type := PStr "SPARK";
     operation.status := PRef 0; operation.description := PNone |}.

(** An operation without status. *)
Definition absent_status_operation : operation.Operation :=
  {| operation.url := sample_url; operation.type := PStr "SPARK";
     operation.status := PNone; operation.description := PNone |}.

(** The JSON of a dataset. *)
Definition dataset_json (name relative_id : string) : json :=
  JObj [("id", JStr "unify://unified-data/v1/datasets/7");
        ("name", JStr name);
        ("keyAttributeNames", JArr [JStr "id"; JStr "source"]);
        ("relativeId", JStr relative_id)].

(** A store holding the raw JSON of an operation: the status dict at
    location 0, the document at location 1. *)
Definition raw_operation_world : World :=
  {| mem := [ODict [("state", PStr "RUNNING")];
             ODict [("type", PStr "SPARK"); ("status", PRef 0)]];
     clock := fun n => inject_Z (Z.of_nat n);
     ticks := 0; requests := []; slept := [] |}.

(** A store holding the raw JSON of a dataset: the list of key attribute
    names at location 0, the document at location 1. *)
Definition raw_dataset_world : World :=
  {| mem := [OList [PStr "id"; PStr "source"];
             ODict [("name", PStr "people"); ("keyAttributeNames", PRef 0)]];
     clock := fun n => inject_Z (Z.of_nat n);
     ticks := 0; requests := []; slept := [] |}.

(** A session whose server has nothing to do: every request is answered by
    "204 No Content". *)
Definition no_content : Session :=
  fun _ _ => inr {| status_code := 204; resp_url := "https://example.com/x";
                    body := None |}.

(** A dataset of the sample instance. *)
Definition sample_dataset : dataset.Dataset :=
  {| dataset.url := {| instance := sample_instance; path := PStr "datasets/7" |};
     dataset.name := PStr "people";
     dataset.key_attribute_names := [PStr "id"];
     dataset.description := PNone |}.

(** The body of an error answer. *)
Definition error_json : json :=
  JObj [("status", JInt 500); ("message", JStr "Internal Server Error")].

(** * Theorems *)

(** ** deepcopy *)

Lemma tr_mono m m' v : m ⊆ m' → refs_in (dom m) v → tr m' v = tr m v.
Proof.
  intros Hsub Hv. destruct v as [| | | | |l]; try done. simpl in *.
  apply elem_of_dom in Hv as [l' Hl]. rewrite Hl.
  by rewrite (lookup_weaken _ _ _ _ Hl Hsub).
Qed.

Lemma refs_in_mono (R R' : gset loc) v : R ⊆ R' → refs_in R v → refs_in R' v.
Proof. destruct v; simpl; set_solver. Qed.

Lemma tr_obj_mono m m' o :
  m ⊆ m' → Forall (refs_in (dom m)) (obj_values o) → tr_obj m' o = tr_obj m o.
Proof.
  intros Hsub Ho. destruct o as [items|elems]; simpl in *; f_equal.
  - induction items as [|[k v] items IH]; [done|]. simpl in *.
    inversion Ho; subst. f_equal; [|by apply IH].
    unfold prod_map; simpl. f_equal. by apply tr_mono.
  - induction elems as [|v elems IH]; [done|]. simpl in *.
    inversion Ho; subst. f_equal; [by apply tr_mono|by apply IH].
Qed.

Lemma zip_fst_tr m (items : list (string * pyval)) :
  zip (items.*1) (tr m <$> items.*2) = prod_map id (tr m) <$> items.
Proof. induction items as [|[k v] items IH]; [done|]. simpl. f_equal. exact IH. Qed.

Lemma insert_app_here (h e : heap) (x y : obj) :
  <[length h := y]> (h ++ x :: e) = h ++ y :: e.
Proof.
  rewrite insert_app_r_alt; [|lia]. by rewrite Nat.sub_diag.
Qed.

Lemma size_region_lt (R : gset loc) (m : memo) l fuel x :
  l ∈ R → m !! l = None → size (R ∖ dom m) < S fuel →
  size (R ∖ dom (<[l := x]> m)) < fuel.
Proof.
  intros Hl Hm Hsz.
  assert (R ∖ dom m = {[l]} ∪ (R ∖ dom (<[l := x]> m))) as Heq.
  { apply set_eq. intros y. rewrite dom_insert_L.
    apply not_elem_of_dom in Hm.
    destruct (decide (y = l)); set_solver. }
  rewrite Heq in Hsz. rewrite size_union in Hsz.
  - rewrite size_singleton in Hsz. lia.
  - rewrite dom_insert_L. set_solver.
Qed.

Lemma size_region_mono (R : gset loc) (m m' : memo) :
  m ⊆ m' → size (R ∖ dom m') ≤ size (R ∖ dom m).
Proof.
  intros Hsub. apply subseteq_size. apply subseteq_dom in Hsub. set_solver.
Qed.

Section deepcopy_correct.
Variables (h0 : heap) (R : gset loc).
Hypothesis closed : closed_in h0 R.

Lemma copied_mono h1 h2 m1 m2 l l' :
  h1 `prefix_of` h2 → m1 ⊆ m2 → l' < length h1 →
  copied h0 h1 m1 l l' → copied h0 h2 m2 l l'.
Proof.
  intros Hpre Hsub Hlt (o & Ho & Hl' & Hrefs).
  exists o. split; [done|]. split.
  - rewrite (tr_obj_mono m1 m2) by done.
    by apply (prefix_lookup_Some h1).
  - eapply Forall_impl; [exact Hrefs|].
    intros v. apply refs_in_mono. by apply subseteq_dom.
Qed.

Lemma copy_all_correct fuel f :
  (∀ h m v, memo_ok h0 R h m → refs_in R v → size (R ∖ dom m) < fuel →
     ∃ h' m', f h m v = Some (h', m', tr m' v) ∧ refs_in (dom m') v ∧
              copy_post h0 R h m h' m') →
  ∀ vs h m, memo_ok h0 R h m → Forall (refs_in R) vs →
     size (R ∖ dom m) < fuel →
     ∃ h' m', copy_all f h m vs = Some (h', m', tr m' <$> vs) ∧
              Forall (refs_in (dom m')) vs ∧ copy_post h0 R h m h' m'.
Proof.
  intros Hf vs. induction vs as [|v vs IH]; intros h m Hok Hvs Hsz.
  - exists h, m. simpl. split; [done|]. split; [done|].
    split; [done|]. split; [done|]. split; [done|].
    intros l l' Hl Hn. congruence.
  - inversion Hvs as [|? ? Hv Hvs']; subst.
    destruct (Hf h m v Hok Hv Hsz) as (h1 & m1 & Hcall & Hin1 & Hpre1 & Hsub1 & Hok1 & Hnew1).
    destruct (IH h1 m1 Hok1 Hvs') as (h2 & m2 & Hrest & Hin2 & Hpre2 & Hsub2 & Hok2 & Hnew2).
    { eapply Nat.le_lt_trans; [by apply size_region_mono|done]. }
    exists h2, m2. simpl. rewrite Hcall, Hrest.
    rewrite (tr_mono m1 m2 v) by done.
    split; [done|]. split.
    { constructor; [|done]. eapply refs_in_mono; [|exact Hin1]. by apply subseteq_dom. }
    split; [by etrans|]. split; [by etrans|]. split; [done|].
    intros l l' Hl Hn.
    destruct (m1 !! l) as [l1|] eqn:Hm1.
    + assert (l1 = l') as ->.
      { pose proof (lookup_weaken _ _ _ _ Hm1 Hsub2). congruence. }
      destruct (Hnew1 l l' Hm1 Hn) as [Hle Hcp]. split; [done|].
      eapply copied_mono; [exact Hpre2|exact Hsub2| |exact Hcp].
      apply (proj2 Hok1 l l' Hm1).
    + destruct (Hnew2 l l' Hl Hm1) as [Hle Hcp]. split; [|done].
      apply prefix_length in Hpre1. lia.
Qed.

Lemma deepcopy_go_correct fuel :
  ∀ h m v, memo_ok h0 R h m → refs_in R v → size (R ∖ dom m) < fuel →
    ∃ h' m', deepcopy_go fuel h m v = Some (h', m', tr m' v) ∧
             refs_in (dom m') v ∧ copy_post h0 R h m h' m'.
Proof.
  induction fuel as [|fuel IH]; intros h m v Hok Hv Hsz; [lia|].
  assert (copy_post h0 R h m h m) as Hrefl.
  { split; [done|]. split; [done|]. split; [done|].
    intros l l' Hl Hn. congruence. }
  destruct v as [| | | | |l]; try (by exists h, m).
  simpl in Hv. simpl.
  destruct (m !! l) as [l1|] eqn:Hm.
  { exists h, m. simpl. rewrite Hm. simpl. split; [done|]. split; [|done].
    apply elem_of_dom. eauto. }
  destruct (closed l Hv) as (o & Ho & Hrefs).
  destruct Hok as [Hpre Hrange].
  rewrite (prefix_lookup_Some _ _ _ _ Ho Hpre).
  set (l' := length h).
  assert (length h0 ≤ l') as Hl' by (by apply prefix_length).
  assert (∀ x : obj, memo_ok h0 R (h ++ [x]) (<[l := l']> m)) as Hok1.
  { intros x. split.
    - etrans; [exact Hpre|]. by apply prefix_app_r.
    - intros k k' Hk. rewrite length_app. simpl.
      destruct (decide (l = k)) as [->|Hne].
      + rewrite lookup_insert_eq in Hk. injection Hk as <-. split; [done|]. lia.
      + rewrite lookup_insert_ne in Hk by done.
        destruct (Hrange k k' Hk) as (? & ? & ?). split; [done|]. lia. }
  assert (size (R ∖ dom (<[l := l']> m)) < fuel) as Hsz1
    by (by apply size_region_lt).
  assert (∀ (x y : obj) h2 m2,
            y = tr_obj m2 o →
            Forall (refs_in (dom m2)) (obj_values o) →
            copy_post h0 R (h ++ [x]) (<[l := l']> m) h2 m2 →
            refs_in (dom m2) (PRef l) ∧ PRef l' = tr m2 (PRef l) ∧
            copy_post h0 R h m (<[l' := y]> h2) m2) as Hfin.
  { intros x y h2 m2 -> Hin2 (Hpre2 & Hsub2 & [Hpre02 Hrange2] & Hnew2).
    assert (m2 !! l = Some l') as Hm2.
    { eapply lookup_weaken; [|exact Hsub2]. apply lookup_insert_eq. }
    destruct Hpre2 as [e ->].
    replace (<[l' := tr_obj m2 o]> ((h ++ [x]) ++ e))
      with (h ++ tr_obj m2 o :: e)
      by (rewrite <- app_assoc; simpl; symmetry; apply insert_app_here).
    split; [apply elem_of_dom; eauto|].
    split; [simpl; by rewrite Hm2|].
    split; [by apply prefix_app_r|].
    split; [etrans; [|exact Hsub2]; by apply insert_subseteq|].
    split.
    { split; [etrans; [exact Hpre|]; by apply prefix_app_r|].
      intros k k' Hk. destruct (Hrange2 k k' Hk) as (? & ? & Hlt).
      split; [done|]. split; [done|].
      revert Hlt. rewrite !length_app. simpl. lia. }
    intros k k' Hk Hn.
    destruct (decide (l = k)) as [<-|Hne].
    - assert (k' = l') as -> by congruence. split; [done|].
      exists o. split; [done|]. split; [|done].
      rewrite lookup_app_r by done. by rewrite Nat.sub_diag.
    - destruct (Hnew2 k k' Hk) as [Hle (o' & Ho' & Hk' & Hrefs')].
      { by rewrite lookup_insert_ne. }
      rewrite length_app in Hle. simpl in Hle.
      split; [unfold l'; lia|].
      exists o'. split; [done|]. split; [|done].
      rewrite <- Hk'. rewrite <- app_assoc. simpl.
      rewrite !lookup_app_r by (unfold l' in *; lia).
      replace (k' - length h) with (S (k' - length h - 1)) by (unfold l' in *; lia).
      done. }
  destruct o as [items|elems]; simpl in Hrefs.
  - destruct (copy_all_correct fuel (deepcopy_go fuel) IH (items.*2)
                (h ++ [ODict []]) (<[l := l']> m) (Hok1 _) Hrefs Hsz1)
      as (h2 & m2 & Hcopy & Hin2 & Hpost).
    rewrite Hcopy. exists (<[l' := ODict (zip (items.*1) (tr m2 <$> items.*2))]> h2), m2.
    destruct (Hfin (ODict []) (ODict (zip (items.*1) (tr m2 <$> items.*2))) h2 m2)
      as (Hr & Htr & Hp); [by rewrite zip_fst_tr|done|done|].
    simpl in Htr. rewrite <- Htr. done.
  - destruct (copy_all_correct fuel (deepcopy_go fuel) IH elems
                (h ++ [OList []]) (<[l := l']> m) (Hok1 _) Hrefs Hsz1)
      as (h2 & m2 & Hcopy & Hin2 & Hpost).
    rewrite Hcopy. exists (<[l' := OList (tr m2 <$> elems)]> h2), m2.
    destruct (Hfin (OList []) (OList (tr m2 <$> elems)) h2 m2)
      as (Hr & Htr & Hp); [done|done|done|].
    simpl in Htr. rewrite <- Htr. done.
Qed.
End deepcopy_correct.

Lemma closed_in_lt h R l : closed_in h R → l ∈ R → l < length h.
Proof. intros Hc Hl. destruct (Hc l Hl) as (o & Ho & _). by eapply lookup_lt_Some. Qed.

Lemma closed_in_size h R : closed_in h R → size R ≤ length h.
Proof.
  intros Hc. rewrite <- (size_set_seq (C := gset nat) 0 (length h)).
  apply subseteq_size. intros l Hl. apply elem_of_set_seq.
  pose proof (closed_in_lt h R l Hc Hl). lia.
Qed.

(** [deepcopy] of a value of a closed region returns; the result is the value
    redirected through the final memo, and every object of the memo is a
    finished copy above the old store. *)
Lemma deepcopy_heap_correct h R v :
  closed_in h R → refs_in R v →
  ∃ h' m', deepcopy_heap h v = Some (h', m', tr m' v) ∧
    h `prefix_of` h' ∧ refs_in (dom m') v ∧
    ∀ l l', m' !! l = Some l' →
      l ∈ R ∧ length h ≤ l' ∧ l' < length h' ∧ copied h h' m' l l'.
Proof.
  intros Hc Hv.
  destruct (deepcopy_go_correct h R Hc (S (length h)) h ∅ v)
    as (h' & m' & Hgo & Hin & Hpre & _ & [_ Hrange] & Hnew).
  - split; [done|]. intros l l' Hl. by rewrite lookup_empty in Hl.
  - done.
  - rewrite dom_empty_L, difference_empty_L.
    pose proof (closed_in_size h R Hc). lia.
  - exists h', m'. split; [done|]. split; [done|]. split; [done|].
    intros l l' Hl. destruct (Hrange l l' Hl) as (? & ? & ?).
    destruct (Hnew l l' Hl) as [_ Hcp]; [apply lookup_empty|]. done.
Qed.

(** The copies form a closed region of the new store, above the old one. *)
Lemma copies_closed h h' (m' : memo) :
  (∀ l l', m' !! l = Some l' → copied h h' m' l l') →
  closed_in h' (map_img m').
Proof.
  intros Hcp l' Hl'. apply elem_of_map_img in Hl' as [l Hl].
  destruct (Hcp l l' Hl) as (o & _ & Ho' & Hrefs).
  exists (tr_obj m' o). split; [done|].
  assert (∀ vs, Forall (refs_in (dom m')) vs →
                Forall (refs_in (map_img m')) (tr m' <$> vs)) as Hvs.
  { intros vs Hall. apply Forall_fmap. eapply Forall_impl; [exact Hall|].
    intros [| | | | |k] Hk; try done. simpl in *.
    apply elem_of_dom in Hk as [k' Hk]. rewrite Hk. simpl.
    apply elem_of_map_img. eauto. }
  destruct o as [items|elems]; simpl in *.
  - rewrite <- list_fmap_compose.
    specialize (Hvs _ Hrefs). rewrite <- list_fmap_compose in Hvs. exact Hvs.
  - by apply Hvs.
Qed.

Lemma tr_refs_in (m' : memo) v :
  refs_in (dom m') v → refs_in (map_img m') (tr m' v).
Proof.
  destruct v as [| | | | |k]; try done. simpl. intros Hk.
  apply elem_of_dom in Hk as [k' Hk]. rewrite Hk. simpl.
  apply elem_of_map_img. eauto.
Qed.

(** Reading sees only the region a value points into. *)
Lemma view_same_region h1 h2 (N : gset loc) n v :
  closed_in h1 N → (∀ l, l ∈ N → h2 !! l = h1 !! l) → refs_in N v →
  view n h2 v = view n h1 v.
Proof.
  intros Hc Hsame. revert v. induction n as [|n IH]; intros v Hv.
  - by destruct v.
  - destruct v as [| | | | |l]; try done. simpl in *.
    rewrite (Hsame l Hv). destruct (Hc l Hv) as (o & -> & Hrefs).
    destruct o as [items|elems]; simpl in *; f_equal.
    + induction items as [|[k v] items IHi]; [done|]. simpl in *.
      inversion Hrefs; subst. f_equal; [|by apply IHi].
      unfold prod_map. simpl. f_equal. by apply IH.
    + induction elems as [|v elems IHe]; [done|]. simpl in *.
      inversion Hrefs; subst. f_equal; [by apply IH|by apply IHe].
Qed.

Lemma dict_get_tr f k (items : list (string * pyval)) :
  dict_get k (prod_map id f <$> items) = f <$> dict_get k items.
Proof.
  induction items as [|[k' v] items IH]; [done|]. simpl.
  destruct (String.eqb k k'); [done|exact IH].
Qed.

Lemma dict_get_refs_in (N : gset loc) k items v :
  Forall (refs_in N) (items.*2) → dict_get k items = Some v → refs_in N v.
Proof.
  induction items as [|[k' v'] items IH]; [done|]. simpl. intros Hall.
  inversion Hall; subst. destruct (String.eqb k k'); [congruence|by apply IH].
Qed.

Lemma deepcopy_dict w l items R :
  mem w !! l = Some (ODict items) → closed_in (mem w) R → l ∈ R →
  ∃ h' (m' : memo) l',
    deepcopy (PRef l) w = Ok (PRef l') (set_mem h' w) ∧
    mem w `prefix_of` h' ∧
    h' !! l' = Some (ODict (prod_map id (tr m') <$> items)) ∧
    Forall (refs_in (dom m')) (items.*2) ∧
    ∀ k k', m' !! k = Some k' →
      k ∈ R ∧ length (mem w) ≤ k' ∧ k' < length h' ∧ copied (mem w) h' m' k k'.
Proof.
  intros Hl Hc HlR.
  destruct (deepcopy_heap_correct (mem w) R (PRef l) Hc HlR)
    as (h' & m' & Hcopy & Hpre & Hin & Hall).
  simpl in Hin. apply elem_of_dom in Hin as [l' Hm].
  destruct (Hall l l' Hm) as (_ & _ & _ & o & Ho & Ho' & Hrefs).
  rewrite Hl in Ho. injection Ho as <-.
  exists h', m', l'. unfold deepcopy. rewrite Hcopy. simpl. rewrite Hm. simpl.
  done.
Qed.

Section from_json.
Context `{!Externals}.

Lemma operation_from_json_dict url w l items R :
  mem w !! l = Some (ODict items) → closed_in (mem w) R → l ∈ R →
  ∃ h' (m' : memo),
    operation._from_json url (PRef l) w =
      match dict_get "type" items with
      | Some ty =>
          Ok {| operation.url := url;
                operation.type := tr m' ty;
                operation.status := tr m' (default PNone (dict_get "status" items));
                operation.description :=
                  tr m' (default PNone (dict_get "description" items)) |}
             (set_mem h' w)
      | None => Raise (KeyError (PStr "type")) (set_mem h' w)
      end ∧
    mem w `prefix_of` h' ∧
    Forall (refs_in (dom m')) (items.*2) ∧
    ∀ k k', m' !! k = Some k' →
      k ∈ R ∧ length (mem w) ≤ k' ∧ k' < length h' ∧ copied (mem w) h' m' k k'.
Proof.
  intros Hl Hc HlR.
  destruct (deepcopy_dict w l items R Hl Hc HlR)
    as (h' & m' & l' & Hcopy & Hpre & Hl' & Hrefs & Hall).
  exists h', m'. split; [|done].
  unfold operation._from_json, bind. rewrite Hcopy.
  unfold lift, py_getitem, py_get. cbn [mem set_mem]. rewrite Hl'.
  rewrite !dict_get_tr.
  destruct (dict_get "type" items) as [ty|]; [|done].
  repeat (progress (cbn [mem set_mem fmap option_fmap option_map];
                    try rewrite Hl'; rewrite ?dict_get_tr)).
  unfold ret. do 2 f_equal.
  - by destruct (dict_get "status" items).
  - by destruct (dict_get "description" items).
Qed.

Lemma dataset_from_json_dict url w l items R :
  mem w !! l = Some (ODict items) → closed_in (mem w) R → l ∈ R →
  ∃ h' (m' : memo),
    dataset._from_json url (PRef l) w =
      match dict_get "name" items with
      | None => Raise (KeyError (PStr "name")) (set_mem h' w)
      | Some nm =>
          match dict_get "keyAttributeNames" items with
          | None => Raise (KeyError (PStr "keyAttributeNames")) (set_mem h' w)
          | Some names =>
              match py_tuple h' (tr m' names) with
              | inl e => Raise e (set_mem h' w)
              | inr ks =>
                  Ok {| dataset.url := url;
                        dataset.name := tr m' nm;
                        dataset.key_attribute_names := ks;
                        dataset.description :=
                          tr m' (default PNone (dict_get "description" items)) |}
                     (set_mem h' w)
              end
          end
      end ∧
    mem w `prefix_of` h' ∧
    Forall (refs_in (dom m')) (items.*2) ∧
    ∀ k k', m' !! k = Some k' →
      k ∈ R ∧ length (mem w) ≤ k' ∧ k' < length h' ∧ copied (mem w) h' m' k k'.
Proof.
  intros Hl Hc HlR.
  destruct (deepcopy_dict w l items R Hl Hc HlR)
    as (h' & m' & l' & Hcopy & Hpre & Hl' & Hrefs & Hall).
  exists h', m'. split; [|done].
  unfold dataset._from_json, bind. rewrite Hcopy.
  unfold lift, py_getitem, py_get. cbn [mem set_mem]. rewrite Hl'.
  rewrite !dict_get_tr.
  destruct (dict_get "name" items) as [nm|]; [|done].
  repeat (progress (cbn [mem set_mem fmap option_fmap option_map];
                    try rewrite Hl'; rewrite ?dict_get_tr)).
  destruct (dict_get "keyAttributeNames" items) as [names|]; [|done].
  cbn [mem set_mem fmap option_fmap option_map].
  destruct (py_tuple h' (tr m' names)) as [e|ks]; [done|].
  unfold ret. do 2 f_equal.
  by destruct (dict_get "description" items).
Qed.
End from_json.

(** ** The polling loop *)

Lemma only_mem_refl w : only_mem w w.
Proof. by unfold only_mem. Qed.

Lemma only_mem_trans w1 w2 w3 : only_mem w1 w2 → only_mem w2 w3 → only_mem w1 w3.
Proof. unfold only_mem. intros (-> & -> & -> & ->) (-> & -> & -> & ->). done. Qed.

Lemma only_mem_set_mem h w : only_mem w (set_mem h w).
Proof. by unfold only_mem. Qed.

Lemma frames_bind {A B} (c : M A) (k : A → M B) :
  frames c → (∀ a, frames (k a)) → frames (bind c k).
Proof.
  intros Hc Hk w. unfold bind. specialize (Hc w).
  destruct (c w) as [a w1|e w1|]; [|done|done].
  specialize (Hk a w1). destruct (k a w1); [| |done].
  - by eapply only_mem_trans.
  - by eapply only_mem_trans.
Qed.

Lemma frames_ret {A} (a : A) : frames (ret a).
Proof. intros w. apply only_mem_refl. Qed.

Lemma frames_raise {A} e : frames (raise (A := A) e).
Proof. intros w. apply only_mem_refl. Qed.

Lemma frames_lift {A} (f : heap → exn + A) : frames (lift f).
Proof. intros w. unfold lift. destruct (f (mem w)); apply only_mem_refl. Qed.

Lemma frames_deepcopy v : frames (deepcopy v).
Proof.
  intros w. unfold deepcopy.
  destruct (deepcopy_heap (mem w) v) as [[[h' m'] v']|]; [|done].
  apply only_mem_set_mem.
Qed.

Lemma frames_response_json r : frames (response_json r).
Proof.
  intros w. unfold response_json. destruct (body r) as [j|]; [|apply only_mem_refl].
  destruct (alloc_json j (mem w)). apply only_mem_set_mem.
Qed.

Lemma raises_bind {A B} P (c : M A) (k : A → M B) :
  raises P c → (∀ a, raises P (k a)) → raises P (bind c k).
Proof.
  intros Hc Hk w e w'. unfold bind.
  destruct (c w) as [a w1|e1 w1|] eqn:Hcw; [|intros [= <- <-]; eauto|done].
  apply Hk.
Qed.

Lemma raises_ret {A} P (a : A) : raises P (ret a).
Proof. by intros w e w'. Qed.

Lemma raises_raise {A} (P : exn → Prop) e : P e → raises P (raise (A := A) e).
Proof. intros He w e' w' [= <- <-]. done. Qed.

Lemma raises_lift {A} (P : exn → Prop) (f : heap → exn + A) :
  (∀ h e, f h = inl e → P e) → raises P (lift f).
Proof.
  intros Hf w e w'. unfold lift. destruct (f (mem w)) eqn:Hfw; [|done].
  intros [= <- <-]. eauto.
Qed.

Lemma raises_deepcopy P v : raises P (deepcopy v).
Proof.
  intros w e w'. unfold deepcopy.
  by destruct (deepcopy_heap (mem w) v) as [[[h' m'] v']|].
Qed.


Lemma py_getitem_not_timeout h c k e : py_getitem h c k = inl e → not_timeout e.
Proof.
  unfold py_getitem. intros He msg ->.
  repeat (case_match; simplify_eq).
Qed.

Lemma py_get_not_timeout h c k e : py_get h c k = inl e → not_timeout e.
Proof.
  unfold py_get. intros He msg ->.
  repeat (case_match; simplify_eq).
Qed.

Section wait_facts.
Context `{!Externals}.

Lemma frames_operation_from_json url data : frames (operation._from_json url data).
Proof.
  unfold operation._from_json.
  repeat (apply frames_bind; [first [apply frames_deepcopy|apply frames_lift]|intros ?]).
  apply frames_ret.
Qed.

Lemma raises_operation_from_json url data :
  raises not_timeout (operation._from_json url data).
Proof.
  unfold operation._from_json.
  apply raises_bind; [apply raises_deepcopy|intros cp].
  apply raises_bind; [apply raises_lift; intros h e; apply py_getitem_not_timeout|intros ?].
  apply raises_bind; [apply raises_lift; intros h e; apply py_get_not_timeout|intros ?].
  apply raises_bind; [apply raises_lift; intros h e; apply py_get_not_timeout|intros ?].
  apply raises_ret.
Qed.

(** A poll sends exactly one request, a GET of the operation's URL, and
    neither sleeps nor reads the clock. *)
Lemma poll_effects session op w :
  match operation.poll session op w with
  | Ok _ w' | Raise _ w' =>
      clock w' = clock w ∧ ticks w' = ticks w ∧ slept w' = slept w ∧
      requests w' = requests w ++
        [{| req_method := GET; req_url := url_str (operation.url op);
            req_params := [] |}]
  | Stuck => True
  end.
Proof.
  unfold operation.poll, operation._from_url, bind at 1, session_get.
  set (rq := {| req_method := GET; req_url := _; req_params := _ |}).
  assert (∀ {A} (c : M A), frames c →
            match c (sent rq w) with
            | Ok _ w' | Raise _ w' =>
                clock w' = clock w ∧ ticks w' = ticks w ∧ slept w' = slept w ∧
                requests w' = requests w ++ [rq]
            | Stuck => True
            end) as Hfr.
  { intros A c Hc. specialize (Hc (sent rq w)).
    destruct (c (sent rq w)); [| |done]; by destruct Hc as (-> & -> & -> & ->). }
  destruct (session (requests w) rq) as [msg|r]; [done|].
  apply Hfr. destruct (status_code r =? 404)%Z; [apply frames_raise|].
  apply frames_bind.
  { unfold successful. destruct (http_ok r); [apply frames_ret|apply frames_raise]. }
  intros r'. apply frames_bind; [apply frames_response_json|intros data].
  apply frames_operation_from_json.
Qed.

Lemma poll_not_timeout session op : raises not_timeout (operation.poll session op).
Proof.
  unfold operation.poll, operation._from_url.
  apply raises_bind.
  { intros w e w'. unfold session_get.
    destruct (session _ _); [|done]. intros [= <- <-]. by intros msg'. }
  intros r. destruct (status_code r =? 404)%Z.
  { apply raises_raise. by intros msg. }
  apply raises_bind.
  { unfold successful. destruct (http_ok r); [apply raises_ret|apply raises_raise].
    by intros msg. }
  intros r'. apply raises_bind.
  { intros w e w'. unfold response_json. destruct (body r').
    - by destruct (alloc_json _ _).
    - intros [= <- <-]. by intros msg. }
  intros data. apply raises_operation_from_json.
Qed.
End wait_facts.

Lemma Qltb_lt x y : Qltb x y = true ↔ (x < y)%Q.
Proof. unfold Qltb, Qlt. apply Z.ltb_lt. Qed.

Lemma Qltb_ge x y : Qltb x y = false ↔ (y <= x)%Q.
Proof. unfold Qltb, Qle. apply Z.ltb_ge. Qed.

Lemma state_of_present h op v : state_of h op = inr v → operation.status op ≠ PNone.
Proof. unfold state_of. intros Hs Hn. rewrite Hn in Hs. done. Qed.

Section sleep_facts.
Context `{!Externals}.

Lemma sleep_accepted d w : accepted d w → sleep d w = Ok tt (asleep d w).
Proof.
  intros [[Hlo Hhi] Hos]. unfold sleep. rewrite Hos.
  assert ((d <? - sleep_max)%Z = false) as -> by (unfold sleep_max; lia).
  assert ((sleep_max <? d)%Z = false) as -> by lia.
  assert ((d <? 0)%Z = false) as -> by lia.
  done.
Qed.

(** [sleep] either accepts the length, or rejects it and leaves the world
    as it is. *)
Lemma sleep_outcomes d w :
  (accepted d w ∧ sleep d w = Ok tt (asleep d w)) ∨
  (∃ e, sleep_error d w e ∧ sleep d w = Raise e w).
Proof.
  unfold sleep, sleep_error, accepted.
  destruct (d <? - sleep_max)%Z eqn:H1; simpl.
  { right. exists OverflowError. split; [left; split; [done|lia]|done]. }
  destruct (sleep_max <? d)%Z eqn:H2; simpl.
  { right. exists OverflowError. split; [left; split; [done|lia]|done]. }
  destruct (d <? 0)%Z eqn:H3.
  { right. exists ValueError. split; [right; left; split; [done|lia]|done]. }
  destruct (os_refuses w d) eqn:Hos.
  { right. exists OSError. split; [|done]. right. right. repeat split; lia. }
  left. repeat split; lia.
Qed.

Lemma sleep_rejected d w e : sleep_error d w e → sleep d w = Raise e w.
Proof.
  unfold sleep, sleep_error.
  intros [[-> Hd]|[[-> Hd]|(-> & Hd & Hos)]].
  - assert ((d <? - sleep_max)%Z || (sleep_max <? d)%Z = true) as -> by lia.
    done.
  - assert ((d <? - sleep_max)%Z || (sleep_max <? d)%Z = false) as ->
      by (unfold sleep_max in *; lia).
    by assert ((d <? 0)%Z = true) as -> by lia.
  - assert ((d <? - sleep_max)%Z || (sleep_max <? d)%Z = false) as ->
      by (unfold sleep_max in *; lia).
    assert ((d <? 0)%Z = false) as -> by lia. by rewrite Hos.
Qed.

Lemma sleep_error_not_timeout d w e : sleep_error d w e → not_timeout e.
Proof. by intros [[-> _]|[[-> _]|[-> _]]] msg. Qed.
End sleep_facts.

Section wait_steps.
Context `{!Externals}.
Variables (session : Session) (d : Z) (timeout : option Z) (started : Q).


Lemma wait_loop_absent fuel op w w1 :
  check_passes timeout started w w1 → operation.status op = PNone →
  operation.wait_loop (S fuel) session d timeout started op w = Ok op w1.
Proof.
  intros Hchk Hst. simpl. unfold bind. rewrite Hchk.
  by destruct (decide (operation.status op = PNone)).
Qed.

Lemma wait_loop_terminal fuel op w w1 st :
  check_passes timeout started w w1 → state_of (mem w1) op = inr st →
  py_in_strs st ["CANCELED"; "SUCCEEDED"; "FAILED"] = true →
  operation.wait_loop (S fuel) session d timeout started op w = Ok op w1.
Proof.
  intros Hchk Hst Hin. pose proof (state_of_present _ _ _ Hst) as Hpres.
  unfold state_of in Hst.
  simpl. unfold bind. rewrite Hchk.
  destruct (decide (operation.status op = PNone)); [done|].
  unfold lift. rewrite Hst.
  assert (py_in_strs st ["PENDING"; "RUNNING"] = false) as ->.
  { destruct st as [| | | |s|]; try done. simpl in Hin.
    rewrite !orb_true_iff in Hin.
    destruct Hin as [Hs|[Hs|[Hs|Hs]]]; try done;
      apply String.eqb_eq in Hs; by subst. }
  by rewrite Hst, Hin.
Qed.

Lemma wait_loop_in_progress fuel op w w1 st :
  check_passes timeout started w w1 → state_of (mem w1) op = inr st →
  py_in_strs st ["PENDING"; "RUNNING"] = true → accepted d w1 →
  operation.wait_loop (S fuel) session d timeout started op w =
    (op' <- operation.poll session op ;;
     operation.wait_loop fuel session d timeout started op') (asleep d w1).
Proof.
  intros Hchk Hst Hin Hd. pose proof (state_of_present _ _ _ Hst) as Hpres.
  unfold state_of in Hst.
  simpl. unfold bind at 1. rewrite Hchk.
  destruct (decide (operation.status op = PNone)); [done|].
  unfold bind at 1. unfold lift. rewrite Hst, Hin.
  unfold bind at 1. by rewrite (sleep_accepted d w1 Hd).
Qed.

Lemma wait_loop_sleep_error fuel op w w1 st e :
  check_passes timeout started w w1 → state_of (mem w1) op = inr st →
  py_in_strs st ["PENDING"; "RUNNING"] = true → sleep d w1 = Raise e w1 →
  operation.wait_loop (S fuel) session d timeout started op w = Raise e w1.
Proof.
  intros Hchk Hst Hin Hd. pose proof (state_of_present _ _ _ Hst) as Hpres.
  unfold state_of in Hst.
  simpl. unfold bind at 1. rewrite Hchk.
  destruct (decide (operation.status op = PNone)); [done|].
  unfold bind at 1. unfold lift. rewrite Hst, Hin.
  unfold bind at 1. by rewrite Hd.
Qed.

Lemma wait_loop_unrecognized fuel op w w1 st :
  check_passes timeout started w w1 → state_of (mem w1) op = inr st →
  py_in_strs st ["PENDING"; "RUNNING"] = false →
  py_in_strs st ["CANCELED"; "SUCCEEDED"; "FAILED"] = false →
  operation.wait_loop (S fuel) session d timeout started op w =
    (op' <- operation.poll session op ;;
     operation.wait_loop fuel session d timeout started op') w1.
Proof.
  intros Hchk Hst Hin1 Hin2. pose proof (state_of_present _ _ _ Hst) as Hpres.
  unfold state_of in Hst.
  simpl. unfold bind at 1. rewrite Hchk.
  destruct (decide (operation.status op = PNone)); [done|].
  unfold bind at 1. unfold lift. rewrite Hst, Hin1.
  unfold bind at 1. by rewrite Hst, Hin2.
Qed.

Lemma wait_loop_expired fuel op w t :
  timeout = Some t → (inject_Z t <= clock w (ticks w) - started)%Q →
  operation.wait_loop (S fuel) session d timeout started op w =
    Raise (TimeoutError ("Waiting for operation took longer than "
                         +:+ pretty t +:+ " seconds.")) (tick w).
Proof.
  intros -> Hle. apply Qltb_ge in Hle.
  simpl. unfold bind, now, ret. simpl. by rewrite Hle.
Qed.
End wait_steps.


Section wait_claims.
Context `{!Externals}.

Lemma poll_ok_effects session op w op' w' :
  operation.poll session op w = Ok op' w' →
  clock w' = clock w ∧ ticks w' = ticks w ∧ slept w' = slept w ∧
  requests w' = requests w ++ [get_request op].
Proof. intros Hp. pose proof (poll_effects session op w) as He. by rewrite Hp in He. Qed.

Lemma poll_raise_effects session op w e w' :
  operation.poll session op w = Raise e w' →
  clock w' = clock w ∧ ticks w' = ticks w ∧ slept w' = slept w ∧
  requests w' = requests w ++ [get_request op].
Proof. intros Hp. pose proof (poll_effects session op w) as He. by rewrite Hp in He. Qed.

(** C1. An operation is PENDING when [wait] is called (no timeout, a poll
    interval that [sleep] accepts both times: from 0 to [sleep_max] seconds,
    and not refused by the operating system); the session's answer to the
    first poll shows it PENDING, the answer to the second shows it
    SUCCEEDED. Then [wait] returns, with enough fuel for three turns of the
    loop, the snapshot of the second poll, which is the SUCCEEDED one; it
    slept exactly twice and sent exactly two requests, the two polls. *)
Theorem wait_pending_pending_succeeded session d op0 op1 op2 w w1 w2 fuel :
  accepted d (tick w) →
  state_of (mem w) op0 = inr (PStr "PENDING") →
  operation.poll session op0 (asleep d (tick w)) = Ok op1 w1 →
  state_of (mem w1) op1 = inr (PStr "PENDING") →
  accepted d w1 →
  operation.poll session op1 (asleep d w1) = Ok op2 w2 →
  state_of (mem w2) op2 = inr (PStr "SUCCEEDED") →
  operation.wait (3 + fuel) session op0 d None w = Ok op2 w2 ∧
  slept w2 = slept w ++ [d; d] ∧
  requests w2 = requests w ++ [get_request op0; get_request op1].
Proof.
  intros Hd Hs0 Hp1 Hs1 Hd1 Hp2 Hs2.
  split.
  - change (3 + fuel) with (S (S (S fuel))).
    unfold operation.wait, bind at 1, now.
    rewrite (wait_loop_in_progress session d None _ _ op0 (tick w) (tick w) (PStr "PENDING"));
      [|done|done|done|done].
    unfold bind at 1. rewrite Hp1.
    rewrite (wait_loop_in_progress session d None _ _ op1 w1 w1 (PStr "PENDING"));
      [|done|done|done|done].
    unfold bind at 1. rewrite Hp2.
    by apply (wait_loop_terminal session d None _ _ op2 w2 w2 (PStr "SUCCEEDED")).
  - apply poll_ok_effects in Hp1 as (_ & _ & Hsl1 & Hrq1).
    apply poll_ok_effects in Hp2 as (_ & _ & Hsl2 & Hrq2).
    simpl in *. rewrite Hsl2, Hsl1, Hrq2, Hrq1, <- !app_assoc. done.
Qed.

(** C6, as the code has it. [wait] tests the deadline before it looks at
    the operation. For an operation whose status is [None]: when the first
    deadline check passes (there is no timeout, the default, or the timeout
    has not elapsed by then), [wait] returns the operation as it is; when the
    timeout has elapsed at that check, as with [timeout_seconds = 0], [wait]
    raises the timeout error instead. Either way no request is sent, nothing
    sleeps, and the store is untouched. *)
Theorem wait_absent_status fuel session op d timeout w :
  operation.status op = PNone →
  ((∀ t, timeout = Some t →
         (clock w (S (ticks w)) - clock w (ticks w) < inject_Z t)%Q) →
   ∃ w', operation.wait (S fuel) session op d timeout w = Ok op w' ∧
         requests w' = requests w ∧ slept w' = slept w ∧ mem w' = mem w) ∧
  (∀ t, timeout = Some t →
        (inject_Z t <= clock w (S (ticks w)) - clock w (ticks w))%Q →
        ∃ w', operation.wait (S fuel) session op d timeout w =
                Raise (TimeoutError ("Waiting for operation took longer than "
                                     +:+ pretty t +:+ " seconds.")) w' ∧
              requests w' = requests w ∧ slept w' = slept w ∧ mem w' = mem w).
Proof.
  intros Hst. split.
  - intros Hopen. unfold operation.wait, bind at 1, now.
    destruct timeout as [t|].
    + exists (tick (tick w)). split; [|done].
      apply wait_loop_absent; [|done].
      unfold check_passes, operation.within_deadline, bind, now, ret. simpl.
      specialize (Hopen t eq_refl). apply Qltb_lt in Hopen. by rewrite Hopen.
    + exists (tick w). split; [|done]. by apply wait_loop_absent.
  - intros t -> Hle. exists (tick (tick w)). split; [|done].
    unfold operation.wait, bind at 1, now.
    by apply (wait_loop_expired session d (Some t) _ fuel op (tick w) t).
Qed.

(** C5. With [timeout_seconds = 0], whatever the operation and the session,
    [wait] raises the timeout error, whose message carries the 0, without
    sleeping and without polling, provided the clock did not run backwards
    between its first two readings. *)
Theorem wait_timeout_zero fuel session op d w :
  (clock w (ticks w) <= clock w (S (ticks w)))%Q →
  ∃ w', operation.wait (S fuel) session op d (Some 0%Z) w =
          Raise (TimeoutError "Waiting for operation took longer than 0 seconds.") w' ∧
        slept w' = slept w ∧ requests w' = requests w.
Proof.
  intros Hmono. exists (tick (tick w)). split; [|done].
  unfold operation.wait, bind at 1, now.
  rewrite (wait_loop_expired session d (Some 0%Z) _ fuel op (tick w) 0%Z); [done|done|].
  simpl. apply (Qplus_le_l _ _ (clock w (ticks w))). ring_simplify. done.
Qed.

(** One turn of the loop of [wait]: the deadline check, then one of the
    ways through the body. *)
Lemma wait_loop_turn session d timeout started fuel op w :
  ∃ b w1,
    operation.within_deadline started timeout w = Ok b w1 ∧
    clock w1 = clock w ∧ slept w1 = slept w ∧ requests w1 = requests w ∧
    mem w1 = mem w ∧
    if b then
      ticks w ≤ ticks w1 ∧
      ((operation.wait_loop (S fuel) session d timeout started op w = Ok op w1 ∧
        (operation.status op = PNone ∨
         ∃ st, state_of (mem w1) op = inr st ∧
               py_in_strs st ["CANCELED"; "SUCCEEDED"; "FAILED"] = true)) ∨
       (∃ e, operation.wait_loop (S fuel) session d timeout started op w = Raise e w1 ∧
             ((operation.status op ≠ PNone ∧ state_of (mem w1) op = inl e) ∨
              (∃ st, state_of (mem w1) op = inr st ∧
                     py_in_strs st ["PENDING"; "RUNNING"] = true ∧
                     sleep_error d w1 e))) ∨
       (∃ w1', polls_in d op w1 w1' ∧
               operation.wait_loop (S fuel) session d timeout started op w =
                 (op' <- operation.poll session op ;;
                  operation.wait_loop fuel session d timeout started op') w1'))
    else
      ∃ t, timeout = Some t ∧ w1 = tick w ∧
           (inject_Z t <= clock w (ticks w) - started)%Q ∧
           operation.wait_loop (S fuel) session d timeout started op w =
             Raise (TimeoutError ("Waiting for operation took longer than "
                                  +:+ pretty t +:+ " seconds.")) w1.
Proof.
  assert (∃ b w1, operation.within_deadline started timeout w = Ok b w1 ∧
            clock w1 = clock w ∧ slept w1 = slept w ∧ requests w1 = requests w ∧
            mem w1 = mem w ∧ ticks w ≤ ticks w1 ∧
            (b = false → ∃ t, timeout = Some t ∧ w1 = tick w ∧
               (inject_Z t <= clock w (ticks w) - started)%Q))
    as (b & w1 & Hchk & Hcl & Hsl & Hrq & Hmem & Htk & Hfalse).
  { destruct timeout as [t|]; simpl.
    - exists (Qltb (clock w (ticks w) - started) (inject_Z t)), (tick w).
      unfold bind, now, ret. simpl. repeat (split; [done || lia|]).
      intros Hb. exists t. by apply Qltb_ge in Hb.
    - exists true, w. by repeat (split; [done|]). }
  exists b, w1. do 5 (split; [done|]).
  destruct b.
  - split; [done|].
    destruct (decide (operation.status op = PNone)) as [Hnone|Hpres].
    { left. split; [by apply wait_loop_absent|by left]. }
    destruct (state_of (mem w1) op) as [e|st] eqn:Hst.
    { right. left. exists e. split; [|by left].
      unfold state_of in Hst. simpl. unfold bind. rewrite Hchk.
      destruct (decide (operation.status op = PNone)); [done|].
      unfold lift. by rewrite Hst. }
    destruct (py_in_strs st ["PENDING"; "RUNNING"]) eqn:Hin1.
    { destruct (sleep_outcomes d w1) as [[Hacc _]|(e & He & Hsleep)].
      - right. right. exists (asleep d w1). split.
        + exists st. split; [done|]. by left.
        + by eapply wait_loop_in_progress.
      - right. left. exists e. split; [|right; by exists st].
        by eapply wait_loop_sleep_error. }
    destruct (py_in_strs st ["CANCELED"; "SUCCEEDED"; "FAILED"]) eqn:Hin2.
    { left. split; [by eapply wait_loop_terminal|right; eauto]. }
    right. right. exists w1. split.
    + exists st. split; [done|]. by right.
    + by eapply wait_loop_unrecognized.
  - destruct (Hfalse eq_refl) as (t & -> & -> & Hle).
    exists t. do 3 (split; [done|]).
    by apply wait_loop_expired.
Qed.

(** The same, with less said of the turns that poll and of the errors. *)
Lemma wait_loop_step session d timeout started fuel op w :
  ∃ b w1,
    operation.within_deadline started timeout w = Ok b w1 ∧
    clock w1 = clock w ∧ slept w1 = slept w ∧ requests w1 = requests w ∧
    mem w1 = mem w ∧
    if b then
      ticks w ≤ ticks w1 ∧
      ((operation.wait_loop (S fuel) session d timeout started op w = Ok op w1 ∧
        (operation.status op = PNone ∨
         ∃ st, state_of (mem w1) op = inr st ∧
               py_in_strs st ["CANCELED"; "SUCCEEDED"; "FAILED"] = true)) ∨
       (∃ e, operation.wait_loop (S fuel) session d timeout started op w = Raise e w1 ∧
             ((operation.status op ≠ PNone ∧ state_of (mem w1) op = inl e) ∨
              sleep_error d w1 e)) ∨
       (∃ w1', (w1' = w1 ∨ w1' = asleep d w1) ∧
               operation.wait_loop (S fuel) session d timeout started op w =
                 (op' <- operation.poll session op ;;
                  operation.wait_loop fuel session d timeout started op') w1'))
    else
      ∃ t, timeout = Some t ∧ w1 = tick w ∧
           (inject_Z t <= clock w (ticks w) - started)%Q ∧
           operation.wait_loop (S fuel) session d timeout started op w =
             Raise (TimeoutError ("Waiting for operation took longer than "
                                  +:+ pretty t +:+ " seconds.")) w1.
Proof.
  destruct (wait_loop_turn session d timeout started fuel op w)
    as (b & w1 & Hchk & Hcl & Hsl & Hrq & Hmem & Hbody).
  exists b, w1. do 5 (split; [done|]).
  destruct b; [|done].
  destruct Hbody as [Htk [Hok|[(e & Hr & Hwhy)|(w1' & Hp & Hcont)]]].
  - split; [done|]. by left.
  - split; [done|]. right. left. exists e. split; [done|].
    destruct Hwhy as [?|(st & _ & _ & ?)]; [by left|by right].
  - split; [done|]. right. right. exists w1'. split; [|done].
    destruct Hp as (st & _ & [(_ & _ & ->)|(_ & _ & ->)]); [by right|by left].
Qed.

(** C2, as the code has it. The status of the operation is present and its
    state is none of PENDING, RUNNING, SUCCEEDED, FAILED, CANCELED; the first
    deadline check passes. Then [wait] polls the operation at once, without
    sleeping: it goes on with the loop on the snapshot the poll returns,
    one request later, and it raises what the poll raises. *)
Theorem wait_unrecognized_state_repolls fuel session op d timeout w st :
  state_of (mem w) op = inr st →
  py_in_strs st ["PENDING"; "RUNNING"; "SUCCEEDED"; "FAILED"; "CANCELED"] = false →
  (∀ t, timeout = Some t →
        (clock w (S (ticks w)) - clock w (ticks w) < inject_Z t)%Q) →
  ∃ w1, slept w1 = slept w ∧ requests w1 = requests w ∧
    match operation.poll session op w1 with
    | Ok op' w2 =>
        operation.wait (S fuel) session op d timeout w =
          operation.wait_loop fuel session d timeout (clock w (ticks w)) op' w2 ∧
        slept w2 = slept w ∧ requests w2 = requests w ++ [get_request op]
    | Raise e w2 => operation.wait (S fuel) session op d timeout w = Raise e w2
    | Stuck => operation.wait (S fuel) session op d timeout w = Stuck
    end.
Proof.
  intros Hst Hin Hopen.
  assert (py_in_strs st ["PENDING"; "RUNNING"] = false ∧
          py_in_strs st ["CANCELED"; "SUCCEEDED"; "FAILED"] = false) as [Hin1 Hin2].
  { destruct st as [| | | |s|]; try done. simpl in *.
    apply orb_false_iff in Hin as [E1 Hin]. apply orb_false_iff in Hin as [E2 Hin].
    apply orb_false_iff in Hin as [E3 Hin]. apply orb_false_iff in Hin as [E4 Hin].
    apply orb_false_iff in Hin as [E5 _]. by rewrite E1, E2, E3, E4, E5. }
  assert (∃ w1, check_passes timeout (clock w (ticks w)) (tick w) w1 ∧
                slept w1 = slept w ∧ requests w1 = requests w ∧ mem w1 = mem w)
    as (w1 & Hchk & Hsl & Hrq & Hmem).
  { destruct timeout as [t|].
    - exists (tick (tick w)). split; [|done].
      unfold check_passes, operation.within_deadline, bind, now, ret. simpl.
      specialize (Hopen t eq_refl). apply Qltb_lt in Hopen. by rewrite Hopen.
    - by exists (tick w). }
  exists w1. do 2 (split; [done|]).
  assert (operation.wait (S fuel) session op d timeout w =
            (op' <- operation.poll session op ;;
             operation.wait_loop fuel session d timeout (clock w (ticks w)) op') w1)
    as ->.
  { unfold operation.wait, bind at 1, now.
    apply (wait_loop_unrecognized session d timeout _ fuel op (tick w) w1 st);
      [exact Hchk|by rewrite Hmem|exact Hin1|exact Hin2]. }
  unfold bind.
  destruct (operation.poll session op w1) as [op' w2|e w2|] eqn:Hp; [|done|done].
  apply poll_ok_effects in Hp as (_ & _ & Hsl2 & Hrq2).
  split; [done|]. by rewrite Hsl2, Hrq2, Hsl, Hrq.
Qed.

Lemma state_of_not_timeout h op e : state_of h op = inl e → not_timeout e.
Proof. apply py_getitem_not_timeout. Qed.

(** A timeout error of the loop comes from a failed deadline check: there is
    a timeout, and at the last reading of the clock it had elapsed. *)
Lemma wait_loop_timeout_inv session d timeout started fuel :
  ∀ op w msg w',
    operation.wait_loop fuel session d timeout started op w
      = Raise (TimeoutError msg) w' →
    ∃ t, timeout = Some t ∧
         msg = "Waiting for operation took longer than " +:+ pretty t +:+ " seconds." ∧
         clock w' = clock w ∧ ticks w < ticks w' ∧
         (inject_Z t <= clock w (pred (ticks w')) - started)%Q.
Proof.
  induction fuel as [|fuel IH]; intros op w msg w' Hrun; [done|].
  destruct (wait_loop_step session d timeout started fuel op w)
    as (b & w1 & Hchk & Hcl & _ & _ & _ & Hbody).
  destruct b.
  - destruct Hbody as [Htk [[Hok _]|[(e & Hr & Hwhy)|(w1' & Hw1' & Hcont)]]].
    + congruence.
    + rewrite Hr in Hrun. injection Hrun as -> <-.
      destruct Hwhy as [[_ Hst]|Hsl].
      * by destruct (state_of_not_timeout _ _ _ Hst msg).
      * by destruct (sleep_error_not_timeout _ _ _ Hsl msg).
    + rewrite Hcont in Hrun. unfold bind in Hrun.
      destruct (operation.poll session op w1') as [op' w2|e w2|] eqn:Hp; [| |done].
      * apply poll_ok_effects in Hp as (Hcl2 & Htk2 & _ & _).
        destruct (IH op' w2 msg w' Hrun) as (t & -> & -> & Hcl' & Htk' & Hle).
        assert (clock w1' = clock w ∧ ticks w1' = ticks w1) as [Hc1 Ht1]
          by (by destruct Hw1' as [->| ->]).
        exists t. do 2 (split; [done|]).
        rewrite Hcl', Hcl2, Hc1. split; [done|]. split; [lia|].
        by rewrite Hcl2, Hc1 in Hle.
      * injection Hrun as -> <-.
        by destruct (poll_not_timeout session op w1' _ w2 Hp msg).
  - destruct Hbody as (t & -> & -> & Hle & Hr).
    rewrite Hr in Hrun. injection Hrun as <- <-.
    exists t. do 3 (split; [done|]). simpl. split; [lia|done].
Qed.

(** C4, as the code has it. [wait] raises the timeout error only when there
    is a timeout and, at the reading of the clock that ended the loop, at
    least that much time had passed since [wait] started; the message carries
    the timeout. And [wait] returns an operation that is already terminal or
    has no status, without polling or sleeping, whenever the first deadline
    check passes: there is no timeout, or the timeout has not elapsed by
    then. *)
Theorem wait_timeout_only_after_deadline :
  (∀ fuel session op d timeout w msg w',
     operation.wait fuel session op d timeout w = Raise (TimeoutError msg) w' →
     ∃ t, timeout = Some t ∧
          msg = "Waiting for operation took longer than " +:+ pretty t +:+ " seconds." ∧
          (inject_Z t <= clock w (pred (ticks w')) - clock w (ticks w))%Q) ∧
  (∀ fuel session op d timeout w,
     operation.status op = PNone ∨
       (∃ st, state_of (mem w) op = inr st ∧
              py_in_strs st ["CANCELED"; "SUCCEEDED"; "FAILED"] = true) →
     (∀ t, timeout = Some t →
           (clock w (S (ticks w)) - clock w (ticks w) < inject_Z t)%Q) →
     ∃ w', operation.wait (S fuel) session op d timeout w = Ok op w' ∧
           requests w' = requests w ∧ slept w' = slept w).
Proof.
  split.
  - intros fuel session op d timeout w msg w' Hrun.
    unfold operation.wait, bind, now in Hrun.
    apply wait_loop_timeout_inv in Hrun as (t & -> & -> & _ & _ & Hle).
    exists t. done.
  - intros fuel session op d timeout w Hop Hopen.
    assert (∃ w1, check_passes timeout (clock w (ticks w)) (tick w) w1 ∧
                  slept w1 = slept w ∧ requests w1 = requests w ∧ mem w1 = mem w)
      as (w1 & Hchk & Hsl & Hrq & Hmem).
    { destruct timeout as [t|].
      - exists (tick (tick w)). split; [|done].
        unfold check_passes, operation.within_deadline, bind, now, ret. simpl.
        specialize (Hopen t eq_refl). apply Qltb_lt in Hopen. by rewrite Hopen.
      - by exists (tick w). }
    exists w1. split; [|done].
    unfold operation.wait, bind, now.
    destruct Hop as [Hnone|(st & Hst & Hin)].
    + by apply wait_loop_absent.
    + eapply wait_loop_terminal; [done| |done]. by rewrite Hmem.
Qed.

(** The errors of [operation.status["state"]]. *)
Lemma state_of_error h op e :
  state_of h op = inl e → e = KeyError (PStr "state") ∨ e = TypeError.
Proof.
  unfold state_of, py_getitem. intros He.
  repeat (case_match; simplify_eq); auto.
Qed.

(** The loop without timeout, from a turn it has come to. *)
Lemma wait_loop_outcomes session d started op0 w0 fuel :
  ∀ op w,
    holds session d op0 w0 op w →
    match operation.wait_loop fuel session d None started op w with
    | Ok op' w' =>
        holds session d op0 w0 op' w' ∧
        (operation.status op' = PNone ∨
         ∃ st, state_of (mem w') op' = inr st ∧
               py_in_strs st ["CANCELED"; "SUCCEEDED"; "FAILED"] = true)
    | Raise e w' =>
        not_timeout e ∧
        ∃ opk wk,
          holds session d op0 w0 opk wk ∧
          ((operation.status opk ≠ PNone ∧ state_of (mem wk) opk = inl e ∧
            (e = KeyError (PStr "state") ∨ e = TypeError) ∧ w' = wk) ∨
           (∃ st, state_of (mem wk) opk = inr st ∧
                  py_in_strs st ["PENDING"; "RUNNING"] = true ∧
                  sleep_error d wk e ∧ w' = wk) ∨
           (∃ wp, polls_in d opk wk wp ∧
                  operation.poll session opk wp = Raise e w'))
    | Stuck => True
    end.
Proof.
  induction fuel as [|fuel IH]; intros op w Hholds; [done|].
  destruct (wait_loop_turn session d None started fuel op w)
    as (b & w1 & Hchk & _ & _ & _ & _ & Hbody).
  assert (w1 = w) as -> by (simpl in Hchk; unfold ret in Hchk; congruence).
  destruct b; [|by destruct Hbody as (t & ? & _)].
  destruct Hbody as [_ [[-> Hok]|[(e & -> & Hwhy)|(wp & Hp & ->)]]].
  - done.
  - destruct Hwhy as [[Hpres Hst]|(st & Hst & Hin & Hsl)].
    + split; [by eapply state_of_not_timeout|].
      exists op, w. split; [done|]. left.
      split; [done|]. split; [done|]. split; [by eapply state_of_error|done].
    + split; [by eapply sleep_error_not_timeout|].
      exists op, w. split; [done|]. right. left. by exists st.
  - unfold bind.
    destruct (operation.poll session op wp) as [op' w2|e w2|] eqn:Hpoll; [| |done].
    + apply IH. by eapply holds_next.
    + split; [by eapply poll_not_timeout|].
      exists op, w. split; [done|]. right. right. by exists wp.
Qed.

(** C10, as the code has it. Without timeout, whatever the session, the
    operation, the poll interval and the fuel, [wait] never raises the
    timeout error. The loop goes from turn to turn, holding at each the
    snapshot the poll of the turn before returned ([holds]). An operation
    [wait] returns is the one it holds at its last turn, and has no status or
    is in a terminal state. An error [wait] raises arises at its last turn,
    on the operation it holds there: it is raised by the poll of that
    operation; or by [wait]'s own lookup of [operation.status["state"]] on a
    status that is present ([KeyError('state')] or [TypeError]); or by
    [sleep], which rejects the poll interval ([OverflowError] beyond
    [sleep_max] seconds either way, [ValueError] when negative, [OSError]
    when the operating system refuses it). *)
Theorem wait_without_timeout_outcomes fuel session op d w :
  match operation.wait fuel session op d None w with
  | Ok op' w' =>
      holds session d op (tick w) op' w' ∧
      (operation.status op' = PNone ∨
       ∃ st, state_of (mem w') op' = inr st ∧
             py_in_strs st ["CANCELED"; "SUCCEEDED"; "FAILED"] = true)
  | Raise e w' =>
      not_timeout e ∧
      ∃ opk wk,
        holds session d op (tick w) opk wk ∧
        ((operation.status opk ≠ PNone ∧ state_of (mem wk) opk = inl e ∧
          (e = KeyError (PStr "state") ∨ e = TypeError) ∧ w' = wk) ∨
         (∃ st, state_of (mem wk) opk = inr st ∧
                py_in_strs st ["PENDING"; "RUNNING"] = true ∧
                sleep_error d wk e ∧ w' = wk) ∨
         (∃ wp, polls_in d opk wk wp ∧
                operation.poll session opk wp = Raise e w'))
  | Stuck => True
  end.
Proof.
  unfold operation.wait, bind, now.
  apply (wait_loop_outcomes session d (clock w (ticks w)) op (tick w) fuel).
  apply holds_first.
Qed.
End wait_claims.

(** The errors of a poll *)

Section poll_errors.
Context `{!Externals}.

(** The only key a poll can miss is ["type"]. *)
Lemma poll_key_error session op :
  raises (λ e, ∀ k, e = KeyError k → k = PStr "type") (operation.poll session op).
Proof.
  unfold operation.poll, operation._from_url.
  apply raises_bind.
  { intros w e w'. unfold session_get. destruct (session _ _); [|done].
    by intros [= <- <-]. }
  intros r. destruct (status_code r =? 404)%Z; [by apply raises_raise|].
  apply raises_bind.
  { unfold successful. destruct (http_ok r); [apply raises_ret|by apply raises_raise]. }
  intros r'. apply raises_bind.
  { intros w e w'. unfold response_json. destruct (body r').
    - by destruct (alloc_json _ _).
    - by intros [= <- <-]. }
  intros data. unfold operation._from_json.
  apply raises_bind; [apply raises_deepcopy|intros cp].
  apply raises_bind.
  { apply raises_lift. intros h e He k ->. unfold py_getitem in He.
    repeat (case_match; simplify_eq); done. }
  intros ?. apply raises_bind.
  { apply raises_lift. intros h e He k ->. unfold py_get in He.
    repeat (case_match; simplify_eq). }
  intros ?. apply raises_bind.
  { apply raises_lift. intros h e He k ->. unfold py_get in He.
    repeat (case_match; simplify_eq). }
  intros ?. apply raises_ret.
Qed.
End poll_errors.

(** ** Building values from JSON *)

Lemma json_nested_ind (P : json → Prop) :
  P JNull → (∀ b, P (JBool b)) → (∀ z, P (JInt z)) → (∀ m e, P (JFloat m e)) →
  (∀ s, P (JStr s)) →
  (∀ elems, Forall P elems → P (JArr elems)) →
  (∀ members, Forall (λ kv, P kv.2) members → P (JObj members)) →
  ∀ j, P j.
Proof.
  intros HN HB HI HF HS HA HO.
  fix IH 1. intros [ |b|z|m e|s|elems|members];
    [exact HN|apply HB|apply HI|apply HF|apply HS| |].
  - apply HA. induction elems as [|j elems IHe]; constructor; [apply IH|exact IHe].
  - apply HO. induction members as [|[k j] members IHm]; constructor;
      [apply IH|exact IHm].
Qed.

Lemma elem_of_fresh (h h' : heap) l :
  l ∈ fresh h h' ↔ length h ≤ l ∧ l < length h + (length h' - length h).
Proof. unfold fresh. apply elem_of_set_seq. Qed.


Lemma allocates_nil h : allocates h h [].
Proof.
  split; [done|]. split; [|done].
  intros l Hl. apply elem_of_fresh in Hl. lia.
Qed.

Lemma allocates_cons h h1 h2 v vs :
  allocates h h1 [v] → allocates h1 h2 vs → allocates h h2 (v :: vs).
Proof.
  intros (Hp1 & Hc1 & Hv) (Hp2 & Hc2 & Hvs).
  pose proof (prefix_length _ _ Hp1). pose proof (prefix_length _ _ Hp2).
  assert (fresh h h1 ⊆ fresh h h2) as Hsub1.
  { intros l. rewrite !elem_of_fresh. lia. }
  assert (fresh h1 h2 ⊆ fresh h h2) as Hsub2.
  { intros l. rewrite !elem_of_fresh. lia. }
  split; [by etrans|]. split.
  - intros l Hl. destruct (decide (l < length h1)) as [Hlt|Hge].
    + destruct (Hc1 l) as (o & Ho & Hrefs).
      { apply elem_of_fresh in Hl. apply elem_of_fresh. lia. }
      exists o. split; [by eapply prefix_lookup_Some|].
      eapply Forall_impl; [exact Hrefs|]. intros x. by apply refs_in_mono.
    + destruct (Hc2 l) as (o & Ho & Hrefs).
      { apply elem_of_fresh in Hl. apply elem_of_fresh. lia. }
      exists o. split; [done|].
      eapply Forall_impl; [exact Hrefs|]. intros x. by apply refs_in_mono.
  - constructor.
    + inversion Hv; subst. eapply refs_in_mono; [exact Hsub1|done].
    + eapply Forall_impl; [exact Hvs|]. intros x. by apply refs_in_mono.
Qed.

Lemma allocates_new_obj h h1 o :
  allocates h h1 (obj_values o) → allocates h (h1 ++ [o]) [PRef (length h1)].
Proof.
  intros (Hp & Hc & Hvs). pose proof (prefix_length _ _ Hp).
  assert (fresh h h1 ⊆ fresh h (h1 ++ [o])) as Hsub.
  { intros l. rewrite !elem_of_fresh, length_app. simpl. lia. }
  split; [by apply prefix_app_r|]. split.
  - intros l Hl. apply elem_of_fresh in Hl. rewrite length_app in Hl. simpl in Hl.
    destruct (decide (l < length h1)) as [Hlt|Hge].
    + destruct (Hc l) as (o' & Ho' & Hrefs); [apply elem_of_fresh; lia|].
      exists o'. split; [by rewrite lookup_app_l|].
      eapply Forall_impl; [exact Hrefs|]. intros x. by apply refs_in_mono.
    + assert (l = length h1) as -> by lia.
      exists o. split; [rewrite lookup_app_r by done; by rewrite Nat.sub_diag|].
      eapply Forall_impl; [exact Hvs|]. intros x. by apply refs_in_mono.
  - constructor; [|done]. simpl. apply elem_of_fresh.
    rewrite length_app. simpl. lia.
Qed.

Lemma alloc_json_allocates j :
  ∀ h h' v, alloc_json j h = (h', v) → allocates h h' [v].
Proof.
  induction j using json_nested_ind;
    intros h h' v Halloc; simpl in Halloc;
    try (injection Halloc as <- <-;
         destruct (allocates_nil h) as (? & ? & _);
         split; [done|split; [done|by constructor]]).
  - rename H into IH. destruct (alloc_all alloc_json elems h) as [h1 vs] eqn:Hall.
    injection Halloc as <- <-.
    apply (allocates_new_obj h h1 (OList vs)). simpl.
    clear -IH Hall. revert h h1 vs Hall.
    induction IH as [|j elems Hj _ IHe]; intros h h1 vs Hall; simpl in Hall.
    + injection Hall as <- <-. apply allocates_nil.
    + destruct (alloc_json j h) as [h2 v] eqn:Hv.
      destruct (alloc_all alloc_json elems h2) as [h3 vs'] eqn:Hrest.
      injection Hall as <- <-.
      eapply allocates_cons; [by apply Hj|by apply IHe].
  - rename H into IH. destruct (alloc_members alloc_json members h) as [h1 kvs] eqn:Hall.
    injection Halloc as <- <-.
    apply (allocates_new_obj h h1 (ODict kvs)). simpl.
    clear -IH Hall. revert h h1 kvs Hall.
    induction IH as [|[k j] members Hj _ IHm]; intros h h1 kvs Hall; simpl in Hall.
    + injection Hall as <- <-. apply allocates_nil.
    + destruct (alloc_json j h) as [h2 v] eqn:Hv.
      destruct (alloc_members alloc_json members h2) as [h3 kvs'] eqn:Hrest.
      injection Hall as <- <-. simpl.
      eapply allocates_cons; [by apply Hj|by apply IHm].
Qed.

Lemma alloc_members_prefix members :
  ∀ h h' kvs, alloc_members alloc_json members h = (h', kvs) → h `prefix_of` h'.
Proof.
  induction members as [|[k j] members IH]; intros h h' kvs Hall; simpl in Hall.
  - by injection Hall as <- <-.
  - destruct (alloc_json j h) as [h2 v] eqn:Hv.
    destruct (alloc_members alloc_json members h2) as [h3 kvs'] eqn:Hrest.
    injection Hall as <- <-.
    etrans; [apply (alloc_json_allocates _ _ _ _ Hv)|by eapply IH].
Qed.

(** The dict built from the members of an object has the member [k] exactly
    when the object has, with the value built from it. *)
Lemma alloc_members_get k members :
  ∀ h h' kvs, alloc_members alloc_json members h = (h', kvs) →
    match json_member k members with
    | None => dict_get k kvs = None
    | Some j => ∃ h1 h2 v, alloc_json j h1 = (h2, v) ∧ h2 `prefix_of` h' ∧
                           dict_get k kvs = Some v
    end.
Proof.
  induction members as [|[k' j] members IH]; intros h h' kvs Hall; simpl in Hall.
  - by injection Hall as <- <-.
  - destruct (alloc_json j h) as [h2 v] eqn:Hv.
    destruct (alloc_members alloc_json members h2) as [h3 kvs'] eqn:Hrest.
    injection Hall as <- <-. simpl.
    destruct (String.eqb k k').
    + exists h, h2, v. split; [done|]. split; [|done].
      by eapply alloc_members_prefix.
    + by eapply IH.
Qed.

Lemma alloc_all_length js :
  ∀ h h' vs, alloc_all alloc_json js h = (h', vs) → length vs = length js.
Proof.
  induction js as [|j js IH]; intros h h' vs Hall; simpl in Hall.
  - by injection Hall as <- <-.
  - destruct (alloc_json j h) as [h2 v] eqn:Hv.
    destruct (alloc_all alloc_json js h2) as [h3 vs'] eqn:Hrest.
    injection Hall as <- <-. simpl. f_equal. by eapply IH.
Qed.

(** ** tuple() and copies *)

Lemma chars_tr m s : tr m <$> chars s = chars s.
Proof. induction s as [|c s IH]; [done|]. simpl. f_equal. exact IH. Qed.

(** [tuple] of a copy is the copy of the [tuple]. *)
Lemma py_tuple_copy h h' (m' : memo) v :
  refs_in (dom m') v →
  (∀ k k', m' !! k = Some k' → copied h h' m' k k') →
  py_tuple h' (tr m' v) =
    match py_tuple h v with
    | inl e => inl e
    | inr ks => inr (tr m' <$> ks)
    end.
Proof.
  intros Hv Hcp. destruct v as [| | | |s|l]; try done.
  - simpl. by rewrite chars_tr.
  - simpl in Hv. apply elem_of_dom in Hv as [l' Hl].
    destruct (Hcp l l' Hl) as (o & Ho & Ho' & _).
    simpl. rewrite Hl. simpl. rewrite Ho, Ho'.
    destruct o as [items|elems]; simpl; [|done]. f_equal.
    rewrite <- !list_fmap_compose. apply list_fmap_ext. by intros i [k x] _.
Qed.

Lemma py_tuple_refs h (N : gset loc) v ks :
  closed_in h N → refs_in N v → py_tuple h v = inr ks → Forall (refs_in N) ks.
Proof.
  intros Hc Hv. destruct v as [| | | |s|l]; try done; simpl.
  - intros [= <-]. clear Hv. induction s; simpl; by constructor.
  - destruct (Hc l Hv) as (o & -> & Hrefs).
    destruct o as [items|elems]; intros [= <-]; [|done].
    apply Forall_fmap. by apply Forall_true.
Qed.

Lemma py_tuple_not_KeyError h v k : py_tuple h v ≠ inl (KeyError k).
Proof. unfold py_tuple. repeat case_match; done. Qed.

Section deserialization.
Context `{!Externals}.

(** C8. For a JSON dict [items] of a well-formed store: deserializing a
    dataset raises [KeyError] exactly when ["name"] or ["keyAttributeNames"]
    is absent, and when both are present and the key attribute names can be
    iterated it returns a dataset, whose description is [None] if
    ["description"] is absent; deserializing an operation raises exactly when
    ["type"] is absent, the error being [KeyError("type")], and otherwise
    returns an operation whose status and description are [None] when
    absent. The functions return or raise: they never get stuck. *)
Theorem from_json_missing_fields url w l items R :
  mem w !! l = Some (ODict items) → closed_in (mem w) R → l ∈ R →
  ((∃ k w', dataset._from_json url (PRef l) w = Raise (KeyError k) w') ↔
     dict_get "name" items = None ∨ dict_get "keyAttributeNames" items = None) ∧
  (∀ nm names ks,
     dict_get "name" items = Some nm →
     dict_get "keyAttributeNames" items = Some names →
     py_tuple (mem w) names = inr ks →
     ∃ ds w', dataset._from_json url (PRef l) w = Ok ds w' ∧
              (dict_get "description" items = None →
               dataset.description ds = PNone)) ∧
  ((∃ e w', operation._from_json url (PRef l) w = Raise e w') ↔
     dict_get "type" items = None) ∧
  (dict_get "type" items = None →
   ∃ w', operation._from_json url (PRef l) w = Raise (KeyError (PStr "type")) w') ∧
  (∀ ty, dict_get "type" items = Some ty →
     ∃ op w', operation._from_json url (PRef l) w = Ok op w' ∧
              (dict_get "status" items = None → operation.status op = PNone) ∧
              (dict_get "description" items = None →
               operation.description op = PNone)).
Proof.
  intros Hl Hc HlR.
  destruct (dataset_from_json_dict url w l items R Hl Hc HlR)
    as (hd & md & Hds & _ & Hrefsd & Hcpd).
  destruct (operation_from_json_dict url w l items R Hl Hc HlR)
    as (ho & mo & Hop & _ & _ & _).
  rewrite Hds, Hop. clear Hds Hop.
  split; [|split; [|split; [|split]]].
  - split.
    + intros (k & w' & Hr).
      destruct (dict_get "name" items) as [nm|]; [|by left].
      destruct (dict_get "keyAttributeNames" items) as [names|]; [|by right].
      destruct (py_tuple hd (tr md names)) as [e|ks] eqn:Ht; [|done].
      injection Hr as -> _. by destruct (py_tuple_not_KeyError hd (tr md names) k).
    + intros [Hn|Hk].
      * rewrite Hn. eauto.
      * rewrite Hk. destruct (dict_get "name" items); eauto.
  - intros nm names ks Hn Hk Ht. rewrite Hn, Hk.
    rewrite (py_tuple_copy (mem w) hd md names).
    + rewrite Ht. eexists _, _. split; [done|]. simpl. by intros ->.
    + eapply dict_get_refs_in; [exact Hrefsd|exact Hk].
    + intros k k' Hm. by destruct (Hcpd k k' Hm) as (_ & _ & _ & ?).
  - split.
    + intros (e & w' & Hr). by destruct (dict_get "type" items).
    + intros ->. eauto.
  - intros ->. eauto.
  - intros ty ->. eexists _, _. split; [done|]. simpl.
    split; by intros ->.
Qed.

(** Mutation leaves the objects out of reach as they are. *)
Lemma mutated_same_above lo h h'' :
  mutated lo (length h) h h'' → same_above lo h h''.
Proof.
  intros Hmut l Hlo Hhi. remember (length h) as hi eqn:Hlen.
  assert (hi ≤ length h) as Hle by lia. clear Hlen.
  induction Hmut as [h|h k o h' Hk _ IH|h o h' _ IH]; [done| |].
  - rewrite IH by (by rewrite length_insert).
    apply list_lookup_insert_ne. lia.
  - rewrite IH by (rewrite length_app; lia).
    apply lookup_app_l. lia.
Qed.

(** [d[k] = v] on an object within reach is such a mutation. *)
Lemma py_setitem_mutated lo hi h l k v h2 :
  l < lo ∨ hi ≤ l → py_setitem h (PRef l) k v = inr h2 → mutated lo hi h h2.
Proof.
  intros Hl. unfold py_setitem. destruct (h !! l) as [[items|elems]|]; try done.
  intros [= <-]. eapply mutated_update; [exact Hl|apply mutated_done].
Qed.

(** What [deepcopy] made is a closed region above the old store. *)
Lemma copies_region (h h' : heap) (m' : memo) (R : gset loc) :
  (∀ k k', m' !! k = Some k' →
     k ∈ R ∧ length h ≤ k' ∧ k' < length h' ∧ copied h h' m' k k') →
  closed_in h' (map_img m') ∧
  ∀ l, l ∈ (map_img m' : gset loc) → length h ≤ l ∧ l < length h'.
Proof.
  intros Hcp. split.
  - apply (copies_closed h). intros k k' Hm.
    by destruct (Hcp k k' Hm) as (_ & _ & _ & ?).
  - intros l Hl. apply elem_of_map_img in Hl as [k Hk].
    by destruct (Hcp k l Hk) as (_ & ? & ? & _).
Qed.

Lemma view_above (h h' h'' : heap) (N : gset loc) n v :
  closed_in h' N → (∀ l, l ∈ N → length h ≤ l ∧ l < length h') →
  same_above (length h) h' h'' → refs_in N v →
  view n h'' v = view n h' v.
Proof.
  intros Hc Hrange Hsame Hv. eapply view_same_region; [exact Hc| |exact Hv].
  intros l Hl. destruct (Hrange l Hl). by apply Hsame.
Qed.

(** C9. The entity made from a JSON dict of a well-formed store does not
    change when the store is mutated afterwards by someone who holds the raw
    JSON: in every store reached by updates of objects that existed before
    the call (the mapping and all it refers to are among them) and of objects
    created later, each field taken from the mapping reads the same, to every
    depth. The [url] field is the URL the caller passed. *)
Theorem from_json_defensive_copy url w l items R :
  mem w !! l = Some (ODict items) → closed_in (mem w) R → l ∈ R →
  (∀ ds w' h'' n,
     dataset._from_json url (PRef l) w = Ok ds w' →
     mutated (length (mem w)) (length (mem w')) (mem w') h'' →
     dataset.url ds = url ∧
     view n h'' (dataset.name ds) = view n (mem w') (dataset.name ds) ∧
     view n h'' <$> dataset.key_attribute_names ds =
       view n (mem w') <$> dataset.key_attribute_names ds ∧
     view n h'' (dataset.description ds) =
       view n (mem w') (dataset.description ds)) ∧
  (∀ op w' h'' n,
     operation._from_json url (PRef l) w = Ok op w' →
     mutated (length (mem w)) (length (mem w')) (mem w') h'' →
     operation.url op = url ∧
     view n h'' (operation.type op) = view n (mem w') (operation.type op) ∧
     view n h'' (operation.status op) = view n (mem w') (operation.status op) ∧
     view n h'' (operation.description op) =
       view n (mem w') (operation.description op)).
Proof.
  intros Hl Hc HlR.
  assert (∀ (m' : memo) k,
            Forall (refs_in (dom m')) (items.*2) →
            refs_in (map_img m') (tr m' (default PNone (dict_get k items))))
    as Hfield.
  { intros m' k Hrefs. apply tr_refs_in.
    destruct (dict_get k items) as [v|] eqn:Hk; [|done].
    by eapply dict_get_refs_in. }
  split.
  - intros ds w' h'' n Hrun Hmut. apply mutated_same_above in Hmut as Hsame.
    destruct (dataset_from_json_dict url w l items R Hl Hc HlR)
      as (hd & md & Hds & _ & Hrefs & Hcp).
    rewrite Hds in Hrun. clear Hds.
    destruct (copies_region _ _ _ _ Hcp) as [Hclosed Hrange].
    destruct (dict_get "name" items) as [nm|] eqn:Hn; [|done].
    destruct (dict_get "keyAttributeNames" items) as [names|] eqn:Hk; [|done].
    destruct (py_tuple hd (tr md names)) as [e|ks] eqn:Ht; [done|].
    injection Hrun as <- <-. simpl in *.
    split; [done|]. split; [|split].
    + eapply view_above; [exact Hclosed|exact Hrange|exact Hsame|].
      apply tr_refs_in. by eapply dict_get_refs_in.
    + assert (Forall (refs_in (map_img md)) ks) as Hks.
      { eapply py_tuple_refs; [exact Hclosed| |exact Ht].
        apply tr_refs_in. by eapply dict_get_refs_in. }
      apply Forall_fmap_ext_1. eapply Forall_impl; [exact Hks|].
      intros v Hv. by eapply view_above.
    + eapply view_above; [exact Hclosed|exact Hrange|exact Hsame|].
      by apply Hfield.
  - intros op w' h'' n Hrun Hmut. apply mutated_same_above in Hmut as Hsame.
    destruct (operation_from_json_dict url w l items R Hl Hc HlR)
      as (ho & mo & Hop & _ & Hrefs & Hcp).
    rewrite Hop in Hrun. clear Hop.
    destruct (copies_region _ _ _ _ Hcp) as [Hclosed Hrange].
    destruct (dict_get "type" items) as [ty|] eqn:Hty; [|done].
    injection Hrun as <- <-. simpl in *.
    split; [done|]. split; [|split].
    + eapply view_above; [exact Hclosed|exact Hrange|exact Hsame|].
      apply tr_refs_in. by eapply dict_get_refs_in.
    + eapply view_above; [exact Hclosed|exact Hrange|exact Hsame|].
      by apply Hfield.
    + eapply view_above; [exact Hclosed|exact Hrange|exact Hsame|].
      by apply Hfield.
Qed.
End deserialization.

Lemma closed_in_empty h : closed_in h ∅.
Proof. intros l Hl. set_solver. Qed.

Lemma lookup_snoc_here (h : heap) o : (h ++ [o]) !! length h = Some o.
Proof. by apply list_lookup_middle. Qed.

Lemma closed_in_snoc h (R : gset loc) o :
  closed_in h R →
  Forall (refs_in (R ∪ {[length h]})) (obj_values o) →
  closed_in (h ++ [o]) (R ∪ {[length h]}).
Proof.
  intros Hc Ho l Hl. destruct (decide (l = length h)) as [->|Hne].
  - exists o. split; [apply lookup_snoc_here|done].
  - destruct (Hc l) as (o' & Ho' & Hrefs); [set_solver|].
    exists o'. split; [by apply lookup_app_l_Some|].
    eapply Forall_impl; [exact Hrefs|]. intros v. apply refs_in_mono. set_solver.
Qed.

Section from_response.
Context `{!Externals}.

(** C3. For a response with status code 204, whatever the store,
    [_from_response] returns an operation of type ["NOOP"] whose status has
    the state ["SUCCEEDED"], and [succeeded] is true of it. *)
Theorem from_response_204 instance response w :
  status_code response = 204%Z →
  ∃ op w',
    operation._from_response instance response w = Ok op w' ∧
    operation.type op = PStr "NOOP" ∧
    state_of (mem w') op = inr (PStr "SUCCEEDED") ∧
    operation.succeeded op w' = Ok true w'.
Proof.
  intros H204.
  pose (o1 := ODict [("state", PStr "SUCCEEDED");
                     ("startTime", PStr operation._never);
                     ("endTime", PStr operation._never); ("message", PStr "")]).
  pose (o2 := ODict [("username", PStr ""); ("time", PStr operation._never);
                     ("version", PStr "-1")]).
  pose (h := mem w). pose (h1 := h ++ [o1]). pose (h2 := h1 ++ [o2]).
  pose (h3 := h2 ++ [o2]).
  pose (items := [("id", PStr "-1"); ("type", PStr "NOOP");
                  ("description", PStr operation._description);
                  ("status", PRef (length h)); ("created", PRef (length h1));
                  ("lastModified", PRef (length h2));
                  ("relativeId", PStr "operations/-1")]).
  pose (w4 := set_mem (h3 ++ [ODict items]) w).
  pose (u := {| instance := instance; path := PStr "operations/-1" |}).
  assert (operation._from_response instance response w =
            operation._from_json u (PRef (length h3)) w4) as ->.
  { unfold operation._from_response. rewrite H204.
    unfold bind at 1 2 3 4 5 6, new_obj, lift. simpl.
    fold h. fold o1. fold h1. fold o2. fold h2. fold h3. fold items.
    rewrite lookup_snoc_here. done. }
  set (R := (∅ ∪ {[length h]} ∪ {[length h1]} ∪ {[length h2]} ∪ {[length h3]} : gset loc)).
  assert (closed_in (mem w4) R) as Hclosed.
  { unfold R. simpl. 
    apply closed_in_snoc; [apply closed_in_snoc; [apply closed_in_snoc;
      [apply closed_in_snoc; [apply closed_in_empty|]|]|]|];
      simpl; repeat constructor; simpl; set_solver. }
  destruct (operation_from_json_dict u w4 (length h3) items R)
    as (h' & m' & Hop & Hpre & Hrefs & Hcp).
  { simpl. apply lookup_snoc_here. }
  { exact Hclosed. }
  { unfold R. set_solver. }
  simpl in Hop. rewrite Hop.
  assert (length h ∈ dom m') as Hin.
  { simpl in Hrefs. by inversion_clear Hrefs as [|? ? _ [|? ? _ [|? ? _ [|? ? Hx _]]]]. }
  apply elem_of_dom in Hin as [n' Hn'].
  destruct (Hcp _ _ Hn') as (_ & _ & _ & o & Ho & Ho' & _).
  assert (o = o1) as ->.
  { simpl in Ho. unfold h3, h2 in Ho.
    rewrite <- !app_assoc in Ho. fold h1 in Ho.
    rewrite lookup_app_l_Some with (x := o1) in Ho; [congruence|].
    apply lookup_snoc_here. }
  eexists _, _. split; [done|]. simpl. rewrite Hn'. simpl.
  split; [done|].
  assert (state_of h' {| operation.url := u; operation.type := PStr "NOOP";
                         operation.status := PRef n';
                         operation.description := PStr operation._description |}
          = inr (PStr "SUCCEEDED")) as Hstate.
  { unfold state_of. simpl. by rewrite Ho'. }
  split; [exact Hstate|].
  unfold operation.succeeded. simpl. unfold bind, lift. simpl.
  unfold state_of in Hstate. simpl in Hstate. by rewrite Hstate.
Qed.
End from_response.


Section by_name.
Context `{!Externals}.

(** What [by_name] does once the answer is a JSON array: the store after
    [json()] holds the list of the records at its last location. *)
Lemma by_name_array session instance name w r records h1 vs :
  session (requests w) (by_name_request instance name) = inr r →
  body r = Some (JArr records) →
  alloc_all alloc_json records (mem w) = (h1, vs) →
  let w1 := set_mem (h1 ++ [OList vs]) (sent (by_name_request instance name) w) in
  dataset.by_name session instance name w =
    match vs with
    | [] => Raise (DatasetNotFound (resp_url r)) w1
    | [first] =>
        (relative_id <- lift (fun h => py_getitem h first (PStr "relativeId")) ;;
         dataset._from_json {| instance := instance; path := relative_id |} first) w1
    | _ :: _ :: _ => Raise (Ambiguous (resp_url r)) w1
    end.
Proof.
  intros Hget Hbody Hall w1.
  assert (mem w1 = h1 ++ [OList vs]) as Hmem by done.
  assert (response_json r (sent (by_name_request instance name) w)
          = Ok (PRef (length h1)) w1) as Hjson.
  { unfold response_json. rewrite Hbody. cbn [alloc_json mem sent]. by rewrite Hall. }
  assert (∀ {A} (f : heap → exn + A), lift f w1 =
            match f (h1 ++ [OList vs]) with
            | inr a => Ok a w1
            | inl e => Raise e w1
            end) as Hlift by done.
  assert (py_len (h1 ++ [OList vs]) (PRef (length h1)) = inr (length vs)) as Hlen.
  { unfold py_len. by rewrite lookup_snoc_here. }
  unfold dataset.by_name, bind at 1, session_get.
  fold (by_name_request instance name). rewrite Hget.
  unfold bind at 1. rewrite Hjson.
  unfold bind at 1. rewrite Hlift, Hlen.
  destruct vs as [|first [|second rest]]; [done| |].
  - cbn [length Nat.eqb]. unfold bind at 1. rewrite Hlift, Hlen.
    cbn [length Nat.ltb Nat.leb].
    assert (py_getitem (h1 ++ [OList [first]]) (PRef (length h1)) (PInt 0)
            = inr first) as Hfirst.
    { unfold py_getitem. by rewrite lookup_snoc_here. }
    unfold bind at 1. rewrite Hlift, Hfirst.
    unfold bind at 1 3. rewrite !Hlift.
    destruct (py_getitem (h1 ++ [OList [first]]) first (PStr "relativeId"));
      [done|].
    unfold bind at 1. by rewrite Hlift, Hfirst.
  - cbn [length Nat.eqb]. unfold bind at 1. by rewrite Hlift, Hlen.
Qed.

(** C7. The session answers the request of [by_name] with a JSON array.
    No record: [by_name] raises [NotFound]; two or more: it raises
    [Ambiguous]; exactly one, a JSON object with a string ["relativeId"], a
    ["name"] and an array of ["keyAttributeNames"]: it returns a dataset whose
    URL has the instance asked and the record's ["relativeId"] as its path
    (the request went to the path ["datasets"]). *)
Theorem by_name_zero_one_many session instance name w r records :
  session (requests w) (by_name_request instance name) = inr r →
  body r = Some (JArr records) →
  (records = [] →
   ∃ w', dataset.by_name session instance name w
           = Raise (DatasetNotFound (resp_url r)) w') ∧
  (2 ≤ length records →
   ∃ w', dataset.by_name session instance name w
           = Raise (Ambiguous (resp_url r)) w') ∧
  (∀ members rid nm names,
     records = [JObj members] →
     json_member "relativeId" members = Some (JStr rid) →
     json_member "name" members = Some nm →
     json_member "keyAttributeNames" members = Some (JArr names) →
     ∃ ds w', dataset.by_name session instance name w = Ok ds w' ∧
              dataset.url ds = {| instance := instance; path := PStr rid |}).
Proof.
  intros Hget Hbody.
  destruct (alloc_all alloc_json records (mem w)) as [h1 vs] eqn:Hall.
  pose proof (by_name_array session instance name w r records h1 vs Hget Hbody Hall)
    as Hrun. cbv zeta in Hrun.
  pose proof (alloc_all_length _ _ _ _ Hall) as Hlen.
  split; [|split].
  - intros ->. destruct vs; [|done]. eauto.
  - intros H2. destruct vs as [|? [|? ?]]; simpl in Hlen; [lia|lia|]. eauto.
  - intros members rid nm names -> Hrid Hname Hnames.
    simpl in Hall.
    destruct (alloc_members alloc_json members (mem w)) as [hm kvs] eqn:Hms.
    injection Hall as <- <-.
    set (rq := by_name_request instance name) in *.
    set (hf := (hm ++ [ODict kvs]) ++ [OList [PRef (length hm)]]) in *.
    assert (hf !! length hm = Some (ODict kvs)) as Hrec.
    { unfold hf. apply lookup_app_l_Some. apply lookup_snoc_here. }
    (* the members read *)
    pose proof (alloc_members_get "relativeId" members _ _ _ Hms) as Grid.
    rewrite Hrid in Grid. destruct Grid as (? & ? & v & Hv & _ & Grid).
    simpl in Hv. injection Hv as _ <-.
    pose proof (alloc_members_get "name" members _ _ _ Hms) as Gname.
    rewrite Hname in Gname. destruct Gname as (? & ? & vnm & _ & _ & Gname).
    pose proof (alloc_members_get "keyAttributeNames" members _ _ _ Hms) as Gk.
    rewrite Hnames in Gk. destruct Gk as (ha & hb & vk & Hvk & Hpre & Gk).
    simpl in Hvk.
    destruct (alloc_all alloc_json names ha) as [hc vns] eqn:Hns.
    injection Hvk as <- <-.
    assert (py_tuple hf (PRef (length hc)) = inr vns) as Htuple.
    { simpl. unfold hf.
      rewrite (lookup_app_l_Some _ _ _ (OList vns)); [done|].
      apply lookup_app_l_Some. eapply prefix_lookup_Some; [|exact Hpre].
      apply lookup_snoc_here. }
    (* the store after json() is a closed region above the old one *)
    assert (alloc_json (JArr [JObj members]) (mem w) = (hf, PRef (S (length hm))))
      as Hdoc.
    { simpl. rewrite Hms. unfold hf. rewrite length_app. simpl.
      by rewrite Nat.add_1_r. }
    destruct (alloc_json_allocates _ _ _ _ Hdoc) as (Hpf & Hclosed & _).
    assert (length hm ∈ fresh (mem w) hf) as Hin.
    { apply elem_of_fresh. unfold hf. rewrite !length_app. simpl.
      pose proof (prefix_length _ _ (alloc_members_prefix _ _ _ _ Hms)). lia. }
    rewrite Hrun. unfold bind, lift, py_getitem. simpl. fold hf.
    rewrite Hrec, Grid.
    destruct (dataset_from_json_dict {| instance := instance; path := PStr rid |}
                (set_mem hf (sent rq w)) (length hm) kvs (fresh (mem w) hf))
      as (hd & md & Hds & _ & Hrefs & Hcp); [done|done|done|].
    rewrite Hds, Gname, Gk.
    rewrite (py_tuple_copy hf hd md (PRef (length hc))).
    + simpl in Htuple. simpl. rewrite Htuple. eexists _, _. split; done.
    + eapply dict_get_refs_in; [exact Hrefs|exact Gk].
    + intros k k' Hm. by destruct (Hcp k k' Hm) as (_ & _ & _ & ?).
Qed.
End by_name.

(** ** Further properties of the code *)

(** ** deepcopy only allocates, and copies faithfully *)

Lemma copy_all_prefix f :
  (∀ h m v h' m' v', f h m v = Some (h', m', v') → h `prefix_of` h') →
  ∀ vs h m h' m' vs', copy_all f h m vs = Some (h', m', vs') → h `prefix_of` h'.
Proof.
  intros Hf vs. induction vs as [|v vs IH]; intros h m h' m' vs' Hrun; simpl in Hrun.
  - by injection Hrun as <- _ _.
  - destruct (f h m v) as [[[h1 m1] v1]|] eqn:Hv; [|done].
    destruct (copy_all f h1 m1 vs) as [[[h2 m2] vs2]|] eqn:Hvs; [|done].
    injection Hrun as <- _ _. etrans; [by eapply Hf|by eapply IH].
Qed.

Lemma deepcopy_go_prefix fuel :
  ∀ h m v h' m' v', deepcopy_go fuel h m v = Some (h', m', v') → h `prefix_of` h'.
Proof.
  induction fuel as [|fuel IH]; intros h m v h' m' v' Hrun;
    destruct v as [| | | | |l]; simpl in Hrun;
    try (by injection Hrun as <- _ _);
    destruct (m !! l) as [l1|]; try (by injection Hrun as <- _ _); [done|].
  assert (∀ (x y : obj) h2, (h ++ [x]) `prefix_of` h2 →
            h `prefix_of` <[length h := y]> h2) as Hput.
  { intros x y h2 [e ->]. rewrite <- app_assoc. simpl.
    rewrite insert_app_here. by apply prefix_app_r. }
  destruct (h !! l) as [[items|elems]|]; [| |done].
  - destruct (copy_all _ _ _ _) as [[[h2 m2] vs]|] eqn:Hall; [|done].
    injection Hrun as <- _ _. eapply Hput.
    eapply copy_all_prefix; [exact IH|exact Hall].
  - destruct (copy_all _ _ _ _) as [[[h2 m2] vs]|] eqn:Hall; [|done].
    injection Hrun as <- _ _. eapply Hput.
    eapply copy_all_prefix; [exact IH|exact Hall].
Qed.

(** A copy reads like its original. *)
Lemma view_copy h h' (m' : memo) n :
  (∀ k k', m' !! k = Some k' → copied h h' m' k k') →
  ∀ v, refs_in (dom m') v → view n h' (tr m' v) = view n h v.
Proof.
  intros Hcp. induction n as [|n IH]; intros v Hv.
  - by destruct v.
  - destruct v as [| | | | |l]; try done. simpl in Hv.
    apply elem_of_dom in Hv as [l' Hl].
    destruct (Hcp l l' Hl) as (o & Ho & Ho' & Hrefs).
    simpl. rewrite Hl. simpl. rewrite Ho, Ho'.
    destruct o as [items|elems]; simpl in *; f_equal.
    + clear Ho Ho'. induction items as [|[k x] items IHi]; [done|].
      simpl in *. inversion Hrefs; subst. f_equal; [|by apply IHi].
      unfold prod_map. simpl. f_equal. by apply IH.
    + rewrite <- list_fmap_compose.
      apply Forall_fmap_ext_1. eapply Forall_impl; [exact Hrefs|].
      intros x Hx. simpl. by apply IH.
Qed.

(** ** The value built from a document reads like the document *)

Lemma alloc_all_prefix js :
  ∀ h h' vs, alloc_all alloc_json js h = (h', vs) → h `prefix_of` h'.
Proof.
  induction js as [|j js IH]; intros h h' vs Hall; simpl in Hall.
  - by injection Hall as <- <-.
  - destruct (alloc_json j h) as [h2 v] eqn:Hv.
    destruct (alloc_all alloc_json js h2) as [h3 vs'] eqn:Hrest.
    injection Hall as <- <-.
    etrans; [apply (alloc_json_allocates _ _ _ _ Hv)|by eapply IH].
Qed.

Lemma alloc_json_view j :
  ∀ h h' v, alloc_json j h = (h', v) →
  ∀ h'' n, h' `prefix_of` h'' → view n h'' v = json_view n j.
Proof.
  induction j using json_nested_ind; intros h h' v Halloc h'' n Hpre;
    simpl in Halloc; try (injection Halloc as <- <-; by destruct n).
  - rename H into IH.
    destruct (alloc_all alloc_json elems h) as [h1 vs] eqn:Hall.
    injection Halloc as <- <-.
    destruct n as [|n]; [done|]. simpl.
    rewrite (prefix_lookup_Some _ _ _ _ (lookup_snoc_here h1 (OList vs)) Hpre).
    f_equal.
    assert (h1 `prefix_of` h'') as Hpre1 by (etrans; [by apply prefix_app_r|done]).
    clear Hpre. revert h h1 vs Hall Hpre1.
    induction IH as [|j elems Hj _ IHe]; intros h h1 vs Hall Hpre1; simpl in Hall.
    + by injection Hall as <- <-.
    + destruct (alloc_json j h) as [h2 v] eqn:Hv.
      destruct (alloc_all alloc_json elems h2) as [h3 vs'] eqn:Hrest.
      injection Hall as <- <-. simpl. f_equal.
      * eapply Hj; [exact Hv|]. etrans; [by eapply alloc_all_prefix|done].
      * by eapply IHe.
  - rename H into IH.
    destruct (alloc_members alloc_json members h) as [h1 kvs] eqn:Hall.
    injection Halloc as <- <-.
    destruct n as [|n]; [done|]. simpl.
    rewrite (prefix_lookup_Some _ _ _ _ (lookup_snoc_here h1 (ODict kvs)) Hpre).
    f_equal.
    assert (h1 `prefix_of` h'') as Hpre1 by (etrans; [by apply prefix_app_r|done]).
    clear Hpre. revert h h1 kvs Hall Hpre1.
    induction IH as [|[k j] members Hj _ IHm]; intros h h1 kvs Hall Hpre1;
      simpl in Hall.
    + by injection Hall as <- <-.
    + destruct (alloc_json j h) as [h2 v] eqn:Hv.
      destruct (alloc_members alloc_json members h2) as [h3 kvs'] eqn:Hrest.
      injection Hall as <- <-. simpl. f_equal.
      * unfold prod_map. simpl. f_equal.
        eapply Hj; [exact Hv|]. etrans; [by eapply alloc_members_prefix|done].
      * by eapply IHm.
Qed.

(** ** Effects of the building blocks *)

Lemma grows_bind {A B} (c : M A) (k : A → M B) :
  grows c → (∀ a, grows (k a)) → grows (bind c k).
Proof.
  intros Hc Hk w. unfold bind. specialize (Hc w).
  destruct (c w) as [a w1|e w1|]; [|done|done].
  specialize (Hk a w1). destruct (k a w1); [| |done]; by etrans.
Qed.

Lemma grows_ret {A} (a : A) : grows (ret a).
Proof. intros w. simpl. reflexivity. Qed.

Lemma grows_raise {A} e : grows (raise (A := A) e).
Proof. intros w. simpl. reflexivity. Qed.

Lemma grows_lift {A} (f : heap → exn + A) : grows (lift f).
Proof. intros w. unfold lift. destruct (f (mem w)); reflexivity. Qed.

Lemma grows_deepcopy v : grows (deepcopy v).
Proof.
  intros w. unfold deepcopy, deepcopy_heap.
  destruct (deepcopy_go _ _ _ _) as [[[h' m'] v']|] eqn:Hgo; [|done].
  simpl. by eapply deepcopy_go_prefix.
Qed.

Lemma grows_response_json r : grows (response_json r).
Proof.
  intros w. unfold response_json. destruct (body r) as [j|]; [|done].
  destruct (alloc_json j (mem w)) as [h' v] eqn:Hj. simpl.
  apply (alloc_json_allocates _ _ _ _ Hj).
Qed.

Lemma grows_new_obj o : grows (new_obj o).
Proof. intros w. simpl. by apply prefix_app_r. Qed.

Lemma frames_new_obj o : frames (new_obj o).
Proof. intros w. apply only_mem_set_mem. Qed.

Section effects.
Context `{!Externals}.

Lemma grows_successful r : grows (successful r).
Proof. unfold successful. destruct (http_ok r); [apply grows_ret|apply grows_raise]. Qed.

Lemma frames_successful r : frames (successful r).
Proof. unfold successful. destruct (http_ok r); [apply frames_ret|apply frames_raise]. Qed.

Lemma grows_operation_from_json url data : grows (operation._from_json url data).
Proof.
  unfold operation._from_json.
  repeat (apply grows_bind; [first [apply grows_deepcopy|apply grows_lift]|intros ?]).
  apply grows_ret.
Qed.

Lemma grows_dataset_from_json url data : grows (dataset._from_json url data).
Proof.
  unfold dataset._from_json.
  repeat (apply grows_bind; [first [apply grows_deepcopy|apply grows_lift]|intros ?]).
  apply grows_ret.
Qed.

Lemma frames_dataset_from_json url data : frames (dataset._from_json url data).
Proof.
  unfold dataset._from_json.
  repeat (apply frames_bind; [first [apply frames_deepcopy|apply frames_lift]|intros ?]).
  apply frames_ret.
Qed.

(** X1. Both [_from_json] have no effect but allocation: when they return or
    raise, every object the store held is where it was and as it was (the
    old store is a prefix of the new one), no request was sent, nothing
    slept, the clock was not read. *)
Theorem from_json_only_allocates url data w :
  match operation._from_json url data w with
  | Ok _ w' | Raise _ w' =>
      mem w `prefix_of` mem w' ∧ requests w' = requests w ∧
      slept w' = slept w ∧ ticks w' = ticks w
  | Stuck => True
  end ∧
  match dataset._from_json url data w with
  | Ok _ w' | Raise _ w' =>
      mem w `prefix_of` mem w' ∧ requests w' = requests w ∧
      slept w' = slept w ∧ ticks w' = ticks w
  | Stuck => True
  end.
Proof.
  split.
  - pose proof (grows_operation_from_json url data w) as Hg.
    pose proof (frames_operation_from_json url data w) as Hf.
    destruct (operation._from_json url data w); [| |done];
      by destruct Hf as (_ & ? & ? & ?).
  - pose proof (grows_dataset_from_json url data w) as Hg.
    pose proof (frames_dataset_from_json url data w) as Hf.
    destruct (dataset._from_json url data w); [| |done];
      by destruct Hf as (_ & ? & ? & ?).
Qed.
End effects.

(** ** The fields read like the mapping *)

Lemma prefix_view h h' (R : gset nat) n v :
  closed_in h R → h `prefix_of` h' → refs_in R v → view n h' v = view n h v.
Proof.
  intros Hc Hpre Hv. eapply view_same_region; [exact Hc| |exact Hv].
  intros l Hl. destruct (Hc l Hl) as (o & Ho & _).
  rewrite Ho. by eapply prefix_lookup_Some.
Qed.

Lemma py_tuple_refs_dom h h' (m' : memo) v ks :
  (∀ k k', m' !! k = Some k' → copied h h' m' k k') →
  refs_in (dom m') v → py_tuple h v = inr ks → Forall (refs_in (dom m')) ks.
Proof.
  intros Hcp Hv. destruct v as [| | | |s|l]; try done; simpl.
  - intros [= <-]. clear Hv. induction s; simpl; by constructor.
  - simpl in Hv. apply elem_of_dom in Hv as [l' Hl].
    destruct (Hcp l l' Hl) as (o & -> & _ & Hrefs).
    destruct o as [items|elems]; intros [= <-]; [|done].
    apply Forall_fmap. by apply Forall_true.
Qed.

Section reads.
Context `{!Externals}.

(** X2. What [operation._from_json] returns, for a mapping that has a
    ["type"]: an operation with the URL given, whose [type], [status] and
    [description] read, to any depth, as the members of the mapping read
    before the call ([None] for an absent [status] or [description]); and
    the mapping itself reads after the call as it did before. *)
Theorem operation_from_json_reads url w l items R ty :
  mem w !! l = Some (ODict items) → closed_in (mem w) R → l ∈ R →
  dict_get "type" items = Some ty →
  ∃ op w',
    operation._from_json url (PRef l) w = Ok op w' ∧
    operation.url op = url ∧
    ∀ n,
      view n (mem w') (operation.type op) = view n (mem w) ty ∧
      view n (mem w') (operation.status op)
        = view n (mem w) (dict_get_or_none "status" items) ∧
      view n (mem w') (operation.description op)
        = view n (mem w) (dict_get_or_none "description" items) ∧
      view n (mem w') (PRef l) = view n (mem w) (PRef l).
Proof.
  intros Hl Hc HlR Hty.
  destruct (operation_from_json_dict url w l items R Hl Hc HlR)
    as (h' & m' & Hop & Hpre & Hrefs & Hcp).
  rewrite Hty in Hop. eexists _, _. split; [exact Hop|]. split; [done|].
  assert (∀ k k', m' !! k = Some k' → copied (mem w) h' m' k k') as Hcp'.
  { intros k k' Hk. by destruct (Hcp k k' Hk) as (_ & _ & _ & ?). }
  assert (∀ k, refs_in (dom m') (dict_get_or_none k items)) as Hfield.
  { intros k. unfold dict_get_or_none.
    destruct (dict_get k items) as [v|] eqn:Hk; [|done]. by eapply dict_get_refs_in. }
  intros n. simpl.
  split; [apply view_copy; [done|by eapply dict_get_refs_in]|].
  split; [by apply view_copy|]. split; [by apply view_copy|].
  by eapply prefix_view.
Qed.

(** X3. What [dataset._from_json] returns, for a mapping with a ["name"] and
    ["keyAttributeNames"] that [tuple()] accepts: a dataset with the URL
    given, whose [name] and [description] read as the members of the mapping
    did, whose [key_attribute_names] are the elements of that member, in
    order; and the mapping itself reads after the call as it did before. *)
Theorem dataset_from_json_reads url w l items R nm names ks :
  mem w !! l = Some (ODict items) → closed_in (mem w) R → l ∈ R →
  dict_get "name" items = Some nm →
  dict_get "keyAttributeNames" items = Some names →
  py_tuple (mem w) names = inr ks →
  ∃ ds w',
    dataset._from_json url (PRef l) w = Ok ds w' ∧
    dataset.url ds = url ∧
    ∀ n,
      view n (mem w') (dataset.name ds) = view n (mem w) nm ∧
      view n (mem w') <$> dataset.key_attribute_names ds
        = view n (mem w) <$> ks ∧
      view n (mem w') (dataset.description ds)
        = view n (mem w) (dict_get_or_none "description" items) ∧
      view n (mem w') (PRef l) = view n (mem w) (PRef l).
Proof.
  intros Hl Hc HlR Hnm Hnames Hks.
  destruct (dataset_from_json_dict url w l items R Hl Hc HlR)
    as (h' & m' & Hds & Hpre & Hrefs & Hcp).
  assert (∀ k k', m' !! k = Some k' → copied (mem w) h' m' k k') as Hcp'.
  { intros k k' Hk. by destruct (Hcp k k' Hk) as (_ & _ & _ & ?). }
  assert (refs_in (dom m') names) as Hin by (by eapply dict_get_refs_in).
  rewrite Hnm, Hnames, (py_tuple_copy (mem w) h' m' names Hin Hcp'), Hks in Hds.
  eexists _, _. split; [exact Hds|]. split; [done|].
  intros n. simpl.
  split; [apply view_copy; [done|by eapply dict_get_refs_in]|].
  split.
  { rewrite <- list_fmap_compose. apply Forall_fmap_ext_1.
    eapply Forall_impl; [by eapply py_tuple_refs_dom|].
    intros v Hv. simpl. by apply view_copy. }
  split.
  { apply view_copy; [done|]. unfold dict_get_or_none.
    destruct (dict_get "description" items) as [v|] eqn:Hk; [|done].
    by eapply dict_get_refs_in. }
  by eapply prefix_view.
Qed.
End reads.

(** ** Entities made from a document *)

Lemma alloc_all_view js :
  ∀ h h1 vs, alloc_all alloc_json js h = (h1, vs) →
  ∀ h'' n, h1 `prefix_of` h'' → view n h'' <$> vs = json_view n <$> js.
Proof.
  induction js as [|j js IH]; intros h h1 vs Hall h'' n Hpre; simpl in Hall.
  - by injection Hall as <- <-.
  - destruct (alloc_json j h) as [h2 v] eqn:Hv.
    destruct (alloc_all alloc_json js h2) as [h3 vs'] eqn:Hrest.
    injection Hall as <- <-. simpl. f_equal.
    + eapply alloc_json_view; [exact Hv|].
      etrans; [by eapply alloc_all_prefix|done].
    + by eapply IH.
Qed.

(** [deepcopy] of a value of a closed region, in a world. *)
Lemma deepcopy_closed w R v :
  closed_in (mem w) R → refs_in R v →
  ∃ h' (m' : memo),
    deepcopy v w = Ok (tr m' v) (set_mem h' w) ∧
    mem w `prefix_of` h' ∧ refs_in (dom m') v ∧
    ∀ k k', m' !! k = Some k' → copied (mem w) h' m' k k'.
Proof.
  intros Hc Hv.
  destruct (deepcopy_heap_correct (mem w) R v Hc Hv)
    as (h' & m' & Hcopy & Hpre & Hin & Hall).
  exists h', m'. unfold deepcopy. rewrite Hcopy. do 3 (split; [done|]).
  intros k k' Hk. by destruct (Hall k k' Hk) as (_ & _ & _ & ?).
Qed.

Lemma closed_in_prefix h h' (R : gset nat) :
  closed_in h R → h `prefix_of` h' → closed_in h' R.
Proof.
  intros Hc Hpre l Hl. destruct (Hc l Hl) as (o & Ho & Hrefs).
  exists o. split; [by eapply prefix_lookup_Some|done].
Qed.

Lemma getitem_copy_not_object j h hf hw v h' (m' : memo) k :
  alloc_json j h = (hf, v) → is_object j = false → hf `prefix_of` hw →
  refs_in (dom m') v →
  (∀ l l', m' !! l = Some l' → copied hw h' m' l l') →
  py_getitem h' (tr m' v) (PStr k) = inl TypeError.
Proof.
  intros Hj Hobj Hpw Hv Hcp.
  destruct j as [ |b|z|m e|s|elems|members]; simpl in Hj; try done;
    try (by injection Hj as <- <-).
  destruct (alloc_all alloc_json elems h) as [h1 vs].
  injection Hj as <- <-. simpl in Hv.
  apply elem_of_dom in Hv as [l' Hl].
  destruct (Hcp _ _ Hl) as (o & Ho & Ho' & _).
  rewrite (prefix_lookup_Some _ _ _ _ (lookup_snoc_here h1 (OList vs)) Hpw) in Ho.
  injection Ho as <-.
  simpl. rewrite Hl. simpl. by rewrite Ho'.
Qed.

Lemma alloc_members_keys members :
  ∀ h h' kvs, alloc_members alloc_json members h = (h', kvs) →
              kvs.*1 = members.*1.
Proof.
  induction members as [|[k j] members IH]; intros h h' kvs Hall; simpl in Hall.
  - by injection Hall as <- <-.
  - destruct (alloc_json j h) as [h2 v] eqn:Hv.
    destruct (alloc_members alloc_json members h2) as [h3 kvs'] eqn:Hrest.
    injection Hall as <- <-. simpl. f_equal. by eapply IH.
Qed.

Lemma view_leaves h n (vs : list pyval) :
  Forall (refs_in ∅) vs → view n h <$> vs = TLeaf <$> vs.
Proof.
  intros Hvs. apply Forall_fmap_ext_1. eapply Forall_impl; [exact Hvs|].
  intros [| | | | |l] Hv; by destruct n.
Qed.

Lemma chars_leaves s : Forall (refs_in ∅) (chars s).
Proof. induction s; simpl; by constructor. Qed.

(** [tuple] of the value of a document. *)
Lemma py_tuple_document j h hb v hf :
  alloc_json j h = (hb, v) → hb `prefix_of` hf →
  match json_tuple_view 0 j with
  | None => py_tuple hf v = inl TypeError
  | Some _ => ∃ ks, py_tuple hf v = inr ks ∧
                    ∀ h'' n, hf `prefix_of` h'' →
                             Some (view n h'' <$> ks) = json_tuple_view n j
  end.
Proof.
  intros Hj Hpre.
  destruct j as [ |b|z|m e|s|elems|members]; simpl in Hj;
    try (by injection Hj as <- <-).
  - injection Hj as <- <-. simpl. eexists. split; [done|].
    intros h'' n _. f_equal. apply view_leaves, chars_leaves.
  - destruct (alloc_all alloc_json elems h) as [h1 vs] eqn:Hall.
    injection Hj as <- <-. simpl.
    rewrite (prefix_lookup_Some _ _ _ _ (lookup_snoc_here h1 (OList vs)) Hpre).
    eexists. split; [done|]. intros h'' n Hpre'. f_equal.
    eapply alloc_all_view; [exact Hall|].
    etrans; [by apply prefix_app_r|]. by etrans.
  - destruct (alloc_members alloc_json members h) as [h1 kvs] eqn:Hall.
    injection Hj as <- <-. simpl.
    rewrite (prefix_lookup_Some _ _ _ _ (lookup_snoc_here h1 (ODict kvs)) Hpre).
    eexists. split; [done|]. intros h'' n _. f_equal.
    rewrite (alloc_members_keys _ _ _ _ Hall).
    apply view_leaves. apply Forall_fmap. by apply Forall_true.
Qed.

Section documents.
Context `{!Externals}.

(** The operation made from the value of a JSON document, in any store that
    still holds that value. *)
Lemma operation_of_document url w j h hf v :
  alloc_json j h = (hf, v) → hf `prefix_of` mem w →
  ∃ w', only_mem w w' ∧ mem w `prefix_of` mem w' ∧
    match j with
    | JObj members =>
        match json_member "type" members with
        | None =>
            operation._from_json url v w = Raise (KeyError (PStr "type")) w'
        | Some ty =>
            ∃ op, operation._from_json url v w = Ok op w' ∧
                  operation.url op = url ∧
                  ∀ n,
                    view n (mem w') (operation.type op) = json_view n ty ∧
                    view n (mem w') (operation.status op)
                      = json_view n (json_get "status" members) ∧
                    view n (mem w') (operation.description op)
                      = json_view n (json_get "description" members)
        end
    | _ => operation._from_json url v w = Raise TypeError w'
    end.
Proof.
  intros Hj Hpw.
  destruct (alloc_json_allocates _ _ _ _ Hj) as (Hpf & Hclosed0 & Hv).
  inversion_clear Hv as [|? ? Hv' _].
  pose proof (closed_in_prefix _ _ _ Hclosed0 Hpw) as Hclosed.
  destruct (is_object j) eqn:Hobj.
  - destruct j as [ | | | | | |members]; try done. simpl in Hj.
    destruct (alloc_members alloc_json members h) as [h1 kvs] eqn:Hms.
    injection Hj as <- <-.
    destruct (operation_from_json_dict url w (length h1) kvs
                (fresh h (h1 ++ [ODict kvs])))
      as (h' & m' & Hop & Hpre & Hrefs & Hcp);
      [by eapply prefix_lookup_Some; [apply lookup_snoc_here|]|done|done|].
    exists (set_mem h' w). split; [apply only_mem_set_mem|].
    split; [done|].
    assert (∀ k k', m' !! k = Some k' → copied (mem w) h' m' k k') as Hcp'.
    { intros k k' Hk. by destruct (Hcp k k' Hk) as (_ & _ & _ & ?). }
    assert (∀ k n, view n h' (tr m' (dict_get_or_none k kvs))
                   = json_view n (json_get k members)) as Hfield.
    { intros k n. unfold dict_get_or_none, json_get.
      pose proof (alloc_members_get k members _ _ _ Hms) as Hget.
      destruct (json_member k members) as [jk|].
      - destruct Hget as (ha & hb & vk & Hvk & Hpb & Hdk). rewrite Hdk. simpl.
        rewrite (view_copy (mem w) h' m' n Hcp').
        + eapply alloc_json_view; [exact Hvk|].
          etrans; [exact Hpb|]. etrans; [by apply prefix_app_r|done].
        + by eapply (dict_get_refs_in _ k kvs).
      - rewrite Hget. by destruct n. }
    pose proof (alloc_members_get "type" members _ _ _ Hms) as Hty.
    destruct (json_member "type" members) as [ty|] eqn:Hmem.
    + destruct Hty as (_ & _ & vty & _ & _ & Hdty). rewrite Hdty in Hop.
      eexists. split; [exact Hop|]. split; [done|]. intros n. simpl.
      split; [|split]; [|apply Hfield..].
      specialize (Hfield "type" n). unfold dict_get_or_none, json_get in Hfield.
      by rewrite Hdty, Hmem in Hfield.
    + by rewrite Hty in Hop.
  - destruct (deepcopy_closed w (fresh h hf) v)
      as (h' & m' & Hcopy & Hpre & Hin & Hcp); [done|done|].
    exists (set_mem h' w). split; [apply only_mem_set_mem|].
    split; [done|].
    assert (operation._from_json url v w = Raise TypeError (set_mem h' w))
      as Hrun.
    { unfold operation._from_json, bind at 1. rewrite Hcopy.
      unfold bind at 1, lift at 1. cbn [mem set_mem].
      by rewrite (getitem_copy_not_object j h hf (mem w) v h' m' "type"). }
    by destruct j.
Qed.

(** The dataset made from the value of a JSON document, in any store that
    still holds that value. *)
Lemma dataset_of_document url w j h hf v :
  alloc_json j h = (hf, v) → hf `prefix_of` mem w →
  ∃ w', only_mem w w' ∧ mem w `prefix_of` mem w' ∧
    match j with
    | JObj members =>
        match json_member "name" members with
        | None =>
            dataset._from_json url v w
              = Raise (KeyError (PStr "name")) w'
        | Some nm =>
            match json_member "keyAttributeNames" members with
            | None =>
                dataset._from_json url v w
                  = Raise (KeyError (PStr "keyAttributeNames")) w'
            | Some names =>
                match json_tuple_view 0 names with
                | None =>
                    dataset._from_json url v w = Raise TypeError w'
                | Some _ =>
                    ∃ ds,
                      dataset._from_json url v w = Ok ds w' ∧
                      dataset.url ds = url ∧
                      ∀ n,
                        view n (mem w') (dataset.name ds) = json_view n nm ∧
                        Some (view n (mem w') <$> dataset.key_attribute_names ds)
                          = json_tuple_view n names ∧
                        view n (mem w') (dataset.description ds)
                          = json_view n (json_get "description" members)
                end
            end
        end
    | _ => dataset._from_json url v w = Raise TypeError w'
    end.
Proof.
  intros Hj Hpw.
  destruct (alloc_json_allocates _ _ _ _ Hj) as (Hpf & Hclosed0 & Hv).
  inversion_clear Hv as [|? ? Hv' _].
  pose proof (closed_in_prefix _ _ _ Hclosed0 Hpw) as Hclosed.
  destruct (is_object j) eqn:Hobj.
  - destruct j as [ | | | | | |members]; try done. simpl in Hj.
    destruct (alloc_members alloc_json members h) as [h1 kvs] eqn:Hms.
    injection Hj as <- <-.
    set (hf := h1 ++ [ODict kvs]) in *.
    destruct (dataset_from_json_dict url w (length h1) kvs (fresh h hf))
      as (h' & m' & Hds & Hpre & Hrefs & Hcp);
      [by eapply prefix_lookup_Some; [apply lookup_snoc_here|]|done|done|].
    exists (set_mem h' w). split; [apply only_mem_set_mem|].
    split; [done|].
    assert (∀ k k', m' !! k = Some k' → copied (mem w) h' m' k k') as Hcp'.
    { intros k k' Hk. by destruct (Hcp k k' Hk) as (_ & _ & _ & ?). }
    assert (∀ k n, view n h' (tr m' (dict_get_or_none k kvs))
                   = json_view n (json_get k members)) as Hfield.
    { intros k n. unfold dict_get_or_none, json_get.
      pose proof (alloc_members_get k members _ _ _ Hms) as Hget.
      destruct (json_member k members) as [jk|].
      - destruct Hget as (ha & hb & vk & Hvk & Hpb & Hdk). rewrite Hdk. simpl.
        rewrite (view_copy (mem w) h' m' n Hcp').
        + eapply alloc_json_view; [exact Hvk|].
          etrans; [exact Hpb|]. etrans; [by apply prefix_app_r|done].
        + by eapply (dict_get_refs_in _ k kvs).
      - rewrite Hget. by destruct n. }
    pose proof (alloc_members_get "name" members _ _ _ Hms) as Hnm.
    destruct (json_member "name" members) as [nm|] eqn:Hmnm;
      [|by rewrite Hnm in Hds].
    destruct Hnm as (_ & _ & vnm & _ & _ & Hdnm). rewrite Hdnm in Hds.
    pose proof (alloc_members_get "keyAttributeNames" members _ _ _ Hms) as Hk.
    destruct (json_member "keyAttributeNames" members) as [names|] eqn:Hmk;
      [|by rewrite Hk in Hds].
    destruct Hk as (ha & hb & vk & Hvk & Hpb & Hdk). rewrite Hdk in Hds.
    assert (refs_in (dom m') vk) as Hin by (by eapply dict_get_refs_in).
    rewrite (py_tuple_copy (mem w) h' m' vk Hin Hcp') in Hds.
    assert (hb `prefix_of` mem w) as Hpbf
      by (etrans; [exact Hpb|]; etrans; [by apply prefix_app_r|done]).
    pose proof (py_tuple_document names ha hb vk (mem w) Hvk Hpbf) as Htuple.
    destruct (json_tuple_view 0 names) as [ts|] eqn:Hts.
    + destruct Htuple as (ks & Hks & Hviews). rewrite Hks in Hds.
      eexists. split; [exact Hds|]. split; [done|]. intros n. simpl.
      split; [|split]; [| |apply Hfield].
      * specialize (Hfield "name" n). unfold dict_get_or_none, json_get in Hfield.
        by rewrite Hdnm, Hmnm in Hfield.
      * rewrite <- (Hviews (mem w) n) by done. f_equal.
        rewrite <- list_fmap_compose. apply Forall_fmap_ext_1.
        eapply Forall_impl; [by eapply (py_tuple_refs_dom (mem w) h' m' vk)|].
        intros x Hx. simpl. by apply view_copy.
    + by rewrite Htuple in Hds.
  - destruct (deepcopy_closed w (fresh h hf) v)
      as (h' & m' & Hcopy & Hpre & Hin & Hcp); [done|done|].
    exists (set_mem h' w). split; [apply only_mem_set_mem|].
    split; [done|].
    assert (dataset._from_json url v w = Raise TypeError (set_mem h' w))
      as Hrun.
    { unfold dataset._from_json, bind at 1. rewrite Hcopy.
      unfold bind at 1, lift at 1. cbn [mem set_mem].
      by rewrite (getitem_copy_not_object j h hf (mem w) v h' m' "name"). }
    by destruct j.
Qed.
End documents.

(** ** Fetching an operation *)

Section fetch_operation.
Context `{!Externals}.

Lemma operation_from_json_url url data w op w' :
  operation._from_json url data w = Ok op w' → operation.url op = url.
Proof.
  unfold operation._from_json, bind, lift, ret.
  destruct (deepcopy data w) as [cp w1| |]; [|done|done].
  destruct (py_getitem (mem w1) cp (PStr "type")); [done|].
  destruct (py_get (mem w1) cp "status"); [done|].
  destruct (py_get (mem w1) cp "description"); [done|].
  by intros [= <- _].
Qed.

Lemma poll_url session op w op' w' :
  operation.poll session op w = Ok op' w' → operation.url op' = operation.url op.
Proof.
  unfold operation.poll, operation._from_url, bind at 1.
  destruct (session_get _ _ _ w) as [r w1| |]; [|done|done].
  destruct (status_code r =? 404)%Z; [done|].
  unfold bind at 1. destruct (successful r w1) as [r' w2| |]; [|done|done].
  unfold bind at 1. destruct (response_json r' w2) as [data w3| |]; [|done|done].
  apply operation_from_json_url.
Qed.

(** Fetching, step by step. *)
Lemma operation_from_url_run session url w :
  operation._from_url session url w =
    match session (requests w) (get_url_request url) with
    | inl msg => Raise (RequestException msg) (sent (get_url_request url) w)
    | inr r =>
        if (status_code r =? 404)%Z then
          Raise (OperationNotFound (url_str url)) (sent (get_url_request url) w)
        else if http_ok r then
          match body r with
          | None => Raise JSONDecodeError (sent (get_url_request url) w)
          | Some j =>
              operation._from_json url (alloc_json j (mem w)).2
                (set_mem (alloc_json j (mem w)).1 (sent (get_url_request url) w))
          end
        else Raise (HTTPError (status_code r)) (sent (get_url_request url) w)
    end.
Proof.
  unfold operation._from_url, bind at 1, session_get.
  fold (get_url_request url). set (rq := get_url_request url).
  destruct (session (requests w) rq) as [msg|r]; [done|].
  destruct (status_code r =? 404)%Z; [done|].
  unfold bind at 1, successful. destruct (http_ok r); [|done].
  unfold ret. unfold bind at 1, response_json.
  destruct (body r) as [j|]; [|done].
  cbn [mem sent]. by destruct (alloc_json j (mem w)).
Qed.

(** X4. The outcomes of [_from_url], by the answer of the session to the GET
    of the URL: a transport error is passed on; 404 raises
    [operation.NotFound] with the URL, before the response is looked at
    otherwise; a response [successful] rejects raises its error; a body
    that is not JSON raises the decoding error; a document that is not an
    object raises [TypeError], an object without ["type"] the [KeyError];
    any other object gives an operation with the URL asked, whose fields
    read as the members of the document. *)
Theorem operation_from_url_outcomes session url w :
  match session (requests w) (get_url_request url) with
  | inl msg =>
      operation._from_url session url w
        = Raise (RequestException msg) (sent (get_url_request url) w)
  | inr r =>
      if (status_code r =? 404)%Z then
        operation._from_url session url w
          = Raise (OperationNotFound (url_str url)) (sent (get_url_request url) w)
      else if http_ok r then
        match body r with
        | None =>
            operation._from_url session url w
              = Raise JSONDecodeError (sent (get_url_request url) w)
        | Some (JObj members) =>
            match json_member "type" members with
            | None =>
                ∃ w', operation._from_url session url w
                        = Raise (KeyError (PStr "type")) w'
            | Some ty =>
                ∃ op w',
                  operation._from_url session url w = Ok op w' ∧
                  operation.url op = url ∧
                  ∀ n,
                    view n (mem w') (operation.type op) = json_view n ty ∧
                    view n (mem w') (operation.status op)
                      = json_view n (json_get "status" members) ∧
                    view n (mem w') (operation.description op)
                      = json_view n (json_get "description" members)
            end
        | Some _ => ∃ w', operation._from_url session url w = Raise TypeError w'
        end
      else
        operation._from_url session url w
          = Raise (HTTPError (status_code r)) (sent (get_url_request url) w)
  end.
Proof.
  rewrite operation_from_url_run. set (rq := get_url_request url).
  destruct (session (requests w) rq) as [msg|r]; [done|].
  destruct (status_code r =? 404)%Z; [done|].
  destruct (http_ok r); [|done].
  destruct (body r) as [j|]; [|done].
  destruct (alloc_json j (mem w)) as [hf v] eqn:Hj. cbn [fst snd].
  destruct (operation_of_document url (set_mem hf (sent rq w)) j _ hf v Hj)
    as (w' & _ & _ & Hdoc); [done|].
  destruct j as [ | | | | | |members]; eauto.
  destruct (json_member "type" members); [|eauto].
  destruct Hdoc as (op & ? & ?). eauto.
Qed.

Lemma poll_not_stuck session op w : operation.poll session op w ≠ Stuck.
Proof.
  unfold operation.poll. rewrite operation_from_url_run.
  set (rq := get_url_request _).
  destruct (session (requests w) rq) as [msg|r]; [done|].
  destruct (status_code r =? 404)%Z; [done|].
  destruct (http_ok r); [|done].
  destruct (body r) as [j|]; [|done].
  destruct (alloc_json j (mem w)) as [hf v] eqn:Hj. cbn [fst snd].
  destruct (operation_of_document (operation.url op) (set_mem hf (sent rq w))
              j _ hf v Hj) as (w' & _ & _ & Hdoc); [done|].
  destruct j as [ | | | | | |members]; try congruence.
  destruct (json_member "type" members); [|congruence].
  destruct Hdoc as (op' & Hrun & _). congruence.
Qed.

Lemma grows_poll session op : grows (operation.poll session op).
Proof.
  unfold operation.poll, operation._from_url.
  apply grows_bind.
  { intros w. unfold session_get. destruct (session _ _); reflexivity. }
  intros r. destruct (status_code r =? 404)%Z; [apply grows_raise|].
  apply grows_bind; [apply grows_successful|intros r'].
  apply grows_bind; [apply grows_response_json|intros data].
  apply grows_operation_from_json.
Qed.

(** X5. A poll always ends (it needs no fuel and finds no dangling
    reference), returns an operation with the URL of the one polled, and
    updates nothing: the store it found is a prefix of the one it leaves, so
    every value held before, the operation polled included, reads as it
    did. *)
Theorem poll_keeps_store session op w :
  match operation.poll session op w with
  | Ok op' w' =>
      operation.url op' = operation.url op ∧
      mem w `prefix_of` mem w' ∧
      ∀ (R : gset nat) n v,
        closed_in (mem w) R → refs_in R v → view n (mem w') v = view n (mem w) v
  | Raise _ w' =>
      mem w `prefix_of` mem w' ∧
      ∀ (R : gset nat) n v,
        closed_in (mem w) R → refs_in R v → view n (mem w') v = view n (mem w) v
  | Stuck => False
  end.
Proof.
  pose proof (grows_poll session op w) as Hg.
  pose proof (poll_not_stuck session op w) as Hns.
  destruct (operation.poll session op w) as [op' w'|e w'|] eqn:Hp; [| |done].
  - split; [by eapply poll_url|]. split; [done|].
    intros R n v Hc Hv. by eapply prefix_view.
  - split; [done|]. intros R n v Hc Hv. by eapply prefix_view.
Qed.
End fetch_operation.

(** ** More on the polling loop *)

Section wait_more.
Context `{!Externals}.

Lemma get_request_url op op' :
  operation.url op' = operation.url op → get_request op' = get_request op.
Proof. unfold get_request. by intros ->. Qed.

(** The traffic of the loop: polls of one URL, sleeps of one length, and no
    sleep without a poll after it. *)
Lemma wait_loop_traffic session d timeout started fuel :
  ∀ op w,
    match operation.wait_loop fuel session d timeout started op w with
    | Ok _ w' | Raise _ w' =>
        ∃ polls sleeps,
          requests w' = requests w ++ replicate polls (get_request op) ∧
          slept w' = slept w ++ replicate sleeps d ∧ sleeps ≤ polls
    | Stuck => True
    end.
Proof.
  induction fuel as [|fuel IH]; intros op w; [done|].
  destruct (wait_loop_step session d timeout started fuel op w)
    as (b & w1 & Hchk & _ & Hsl & Hrq & _ & Hbody).
  assert (∀ w', requests w' = requests w1 → slept w' = slept w1 →
            ∃ polls sleeps,
              requests w' = requests w ++ replicate polls (get_request op) ∧
              slept w' = slept w ++ replicate sleeps d ∧ sleeps ≤ polls) as Hnone.
  { intros w' -> ->. exists 0, 0. simpl. by rewrite !app_nil_r. }
  destruct b.
  - destruct Hbody as [_ [[-> _]|[(e & -> & _)|(w1' & Hw1' & ->)]]];
      [by apply Hnone..|].
    unfold bind.
    destruct (operation.poll session op w1') as [op' w2|e w2|] eqn:Hp; [| |done].
    + pose proof (poll_url _ _ _ _ _ Hp) as Hurl.
      apply poll_ok_effects in Hp as (_ & _ & Hsl2 & Hrq2).
      specialize (IH op' w2).
      destruct (operation.wait_loop fuel session d timeout started op' w2)
        as [op'' w'|e w'|]; [| |done];
        destruct IH as (polls & sleeps & Hrq' & Hsl' & Hle);
        rewrite (get_request_url _ _ Hurl) in Hrq';
        rewrite Hrq', Hrq2, Hsl', Hsl2;
        (destruct Hw1' as [->| ->]; simpl; rewrite Hrq, Hsl;
         [exists (S polls), sleeps|exists (S polls), (S sleeps)];
         simpl; rewrite <- ?app_assoc; (split; [done|]); (split; [done|lia])).
    + apply poll_raise_effects in Hp as (_ & _ & Hsl2 & Hrq2).
      rewrite Hrq2, Hsl2.
      destruct Hw1' as [->| ->]; simpl; rewrite Hrq, Hsl;
        [exists 1, 0|exists 1, 1]; simpl; rewrite ?app_nil_r; by auto.
  - destruct Hbody as (t & _ & -> & _ & ->). by apply Hnone.
Qed.

(** X6. The traffic of [wait], whenever it returns or raises: the requests
    it sent are polls of the URL of the operation it was given, and nothing
    else; every sleep lasted the poll interval; and there are at most as
    many sleeps as polls (no sleep is the last thing [wait] does). *)
Theorem wait_requests_and_sleeps fuel session op d timeout w :
  match operation.wait fuel session op d timeout w with
  | Ok _ w' | Raise _ w' =>
      ∃ polls sleeps,
        requests w' = requests w ++ replicate polls (get_request op) ∧
        slept w' = slept w ++ replicate sleeps d ∧ sleeps ≤ polls
  | Stuck => True
  end.
Proof.
  unfold operation.wait, bind, now.
  apply (wait_loop_traffic session d timeout (clock w (ticks w)) fuel op (tick w)).
Qed.

(** X7. One turn of the loop on an operation in progress (state PENDING or
    RUNNING, the first deadline check passed). When [sleep] accepts the poll
    interval (from 0 to [sleep_max] seconds, and not refused by the operating
    system), [wait] sleeps once for the poll interval, then polls; the poll
    ends; if it raises, [wait] raises that error; if it returns, [wait] goes
    on with the snapshot polled. When [sleep] rejects the poll interval,
    [wait] raises the error of [sleep], and has neither slept nor polled. *)
Theorem wait_in_progress_sleeps_then_polls fuel session op d timeout w st :
  state_of (mem w) op = inr st →
  py_in_strs st ["PENDING"; "RUNNING"] = true →
  (∀ t, timeout = Some t →
        (clock w (S (ticks w)) - clock w (ticks w) < inject_Z t)%Q) →
  (accepted d (first_turn timeout w) →
   match operation.poll session op (asleep d (first_turn timeout w)) with
   | Ok op' w2 =>
       operation.wait (S fuel) session op d timeout w =
         operation.wait_loop fuel session d timeout (clock w (ticks w)) op' w2 ∧
       slept w2 = slept w ++ [d] ∧
       requests w2 = requests w ++ [get_request op]
   | Raise e w2 =>
       operation.wait (S fuel) session op d timeout w = Raise e w2 ∧
       slept w2 = slept w ++ [d] ∧
       requests w2 = requests w ++ [get_request op]
   | Stuck => False
   end) ∧
  (∀ e, sleep_error d (first_turn timeout w) e →
        operation.wait (S fuel) session op d timeout w
          = Raise e (first_turn timeout w) ∧
        slept (first_turn timeout w) = slept w ∧
        requests (first_turn timeout w) = requests w).
Proof.
  intros Hst Hin Hopen. set (w1 := first_turn timeout w).
  assert (check_passes timeout (clock w (ticks w)) (tick w) w1 ∧
          slept w1 = slept w ∧ requests w1 = requests w ∧ mem w1 = mem w)
    as (Hchk & Hsl & Hrq & Hmem).
  { unfold w1. destruct timeout as [t|]; [|done]. split; [|done].
    unfold check_passes, operation.within_deadline, bind, now, ret. simpl.
    specialize (Hopen t eq_refl). apply Qltb_lt in Hopen. by rewrite Hopen. }
  split.
  - intros Hd.
    assert (operation.wait (S fuel) session op d timeout w =
              (op' <- operation.poll session op ;;
               operation.wait_loop fuel session d timeout (clock w (ticks w)) op')
                (asleep d w1)) as ->.
    { unfold operation.wait, bind at 1, now.
      apply (wait_loop_in_progress session d timeout _ fuel op (tick w) w1 st);
        [exact Hchk|by rewrite Hmem|exact Hin|exact Hd]. }
    unfold bind. pose proof (poll_not_stuck session op (asleep d w1)) as Hns.
    destruct (operation.poll session op (asleep d w1)) as [op' w2|e w2|] eqn:Hp;
      [| |done].
    + apply poll_ok_effects in Hp as (_ & _ & Hsl2 & Hrq2).
      split; [done|]. simpl in *. by rewrite Hsl2, Hrq2, Hsl, Hrq.
    + apply poll_raise_effects in Hp as (_ & _ & Hsl2 & Hrq2).
      split; [done|]. simpl in *. by rewrite Hsl2, Hrq2, Hsl, Hrq.
  - intros e He. split; [|done].
    unfold operation.wait, bind at 1, now.
    apply (wait_loop_sleep_error session d timeout _ fuel op (tick w) w1 st);
      [exact Hchk|by rewrite Hmem|exact Hin|by apply sleep_rejected].
Qed.

(** With a timeout the loop ends, when the clock advances. *)
Lemma wait_loop_ends session d t started (ck : nat → Q) :
  (∀ n, (ck n + 1 <= ck (S n))%Q) →
  ∀ fuel op w,
    clock w = ck →
    (inject_Z t - (ck (ticks w) - started) < inject_Z (Z.of_nat fuel))%Q →
    operation.wait_loop (S fuel) session d (Some t) started op w ≠ Stuck.
Proof.
  intros Hadv. induction fuel as [|fuel IH]; intros op w Hck Hleft.
  - rewrite (wait_loop_expired session d (Some t) started 0 op w t); [done|done|].
    rewrite Hck. change (inject_Z (Z.of_nat 0)) with 0%Q in Hleft. lra.
  - destruct (wait_loop_step session d (Some t) started (S fuel) op w)
      as (b & w1 & Hchk & Hcl & _ & _ & _ & Hbody).
    assert (w1 = tick w) as ->.
    { simpl in Hchk. unfold bind, now, ret in Hchk. by injection Hchk as _ <-. }
    destruct b; [|destruct Hbody as (? & _ & _ & _ & ->); done].
    destruct Hbody as [_ [[-> _]|[(e & -> & _)|(w1' & Hw1' & ->)]]]; [done..|].
    unfold bind. pose proof (poll_not_stuck session op w1') as Hns.
    destruct (operation.poll session op w1') as [op' w2|e w2|] eqn:Hp; [|done..].
    apply poll_ok_effects in Hp as (Hcl2 & Htk2 & _ & _).
    assert (clock w1' = ck ∧ ticks w1' = S (ticks w)) as [Hc1 Ht1]
      by (by destruct Hw1' as [->| ->]).
    apply IH; [by rewrite Hcl2|].
    rewrite Htk2, Ht1.
    specialize (Hadv (ticks w)).
    assert (inject_Z (Z.of_nat (S fuel)) == inject_Z (Z.of_nat fuel) + 1)%Q as Hs.
    { rewrite Nat2Z.inj_succ, <- Z.add_1_r, inject_Z_plus. reflexivity. }
    lra.
Qed.

(** X8. With a timeout of [t] seconds and a clock that advances by at least
    one second from each reading to the next, [wait] ends, by returning or
    raising, within [t + 1] turns of its loop, whatever the session
    answers. *)
Theorem wait_with_timeout_ends session op d t w :
  (∀ n, (clock w n + 1 <= clock w (S n))%Q) →
  operation.wait (S (Z.to_nat t)) session op d (Some t) w ≠ Stuck.
Proof.
  intros Hadv. unfold operation.wait, bind, now.
  apply (wait_loop_ends session d t _ (clock w) Hadv); [done|].
  simpl. specialize (Hadv (ticks w)).
  assert (inject_Z t <= inject_Z (Z.of_nat (Z.to_nat t)))%Q as Hle.
  { rewrite <- Zle_Qle. lia. }
  lra.
Qed.
End wait_more.

(** ** Operations from responses, and materialize *)

(** Reading a member through a view. *)
Lemma getitem_of_view h v members k s :
  view 1 h v = json_view 1 (JObj members) →
  json_member k members = Some (JStr s) →
  py_getitem h v (PStr k) = inr (PStr s).
Proof.
  intros Hview Hk. destruct v as [| | | | |l]; try done. simpl in Hview.
  destruct (h !! l) as [[items|elems]|] eqn:Hl; try done.
  injection Hview as Hitems. simpl. rewrite Hl.
  assert (dict_get k items = Some (PStr s)) as ->; [|done].
  clear Hl. revert members Hitems Hk.
  induction items as [|[k' x] items IH]; intros [|[k'' j] members] Hitems Hk;
    try done.
  simpl in *. injection Hitems as -> Hx Hrest.
  destruct (String.eqb k k''); [|by eapply IH].
  injection Hk as ->. destruct x; simpl in Hx; congruence.
Qed.

Section from_response_more.
Context `{!Externals}.

(** [_from_response], step by step. *)
Lemma from_response_run instance r w :
  operation._from_response instance r w =
    match response_document r with
    | None => Raise JSONDecodeError w
    | Some j =>
        (_id <- lift (fun h => py_getitem h (alloc_json j (mem w)).2 (PStr "id")) ;;
         _path <- lift (fun h => inr ("operations/" +:+ py_format h _id)) ;;
         operation._from_json {| instance := instance; path := PStr _path |}
           (alloc_json j (mem w)).2)
          (set_mem (alloc_json j (mem w)).1 w)
    end.
Proof.
  unfold operation._from_response, response_document.
  destruct (status_code r =? 204)%Z.
  - unfold bind at 1 2 3 4, new_obj. reflexivity.
  - unfold bind at 1, response_json. destruct (body r) as [j|]; [|done].
    by destruct (alloc_json j (mem w)).
Qed.

(** A response that stands for an object with a string id. *)
Lemma from_response_object instance r w members i :
  response_document r = Some (JObj members) →
  json_member "id" members = Some (JStr i) →
  operation._from_response instance r w =
    operation._from_json
      {| instance := instance; path := PStr ("operations/" +:+ i) |}
      (alloc_json (JObj members) (mem w)).2
      (set_mem (alloc_json (JObj members) (mem w)).1 w).
Proof.
  intros Hdoc Hmem. rewrite from_response_run, Hdoc.
  destruct (alloc_json (JObj members) (mem w)) as [hf v] eqn:Hj. cbn [fst snd].
  simpl in Hj.
  destruct (alloc_members alloc_json members (mem w)) as [h1 kvs] eqn:Hms.
  injection Hj as <- <-.
  pose proof (alloc_members_get "id" members _ _ _ Hms) as Hid.
  rewrite Hmem in Hid. destruct Hid as (ha & hb & vid & Hvid & _ & Hdid).
  simpl in Hvid. injection Hvid as _ <-.
  unfold bind at 1, lift at 1, py_getitem. cbn [mem set_mem].
  rewrite lookup_snoc_here, Hdid. done.
Qed.

(** The operation a response stands for. *)
Lemma from_response_operation instance r w members i ty :
  response_document r = Some (JObj members) →
  json_member "id" members = Some (JStr i) →
  json_member "type" members = Some ty →
  ∃ op w',
    operation._from_response instance r w = Ok op w' ∧
    operation.url op =
      {| instance := instance; path := PStr ("operations/" +:+ i) |} ∧
    only_mem w w' ∧ mem w `prefix_of` mem w' ∧
    ∀ n,
      view n (mem w') (operation.type op) = json_view n ty ∧
      view n (mem w') (operation.status op)
        = json_view n (json_get "status" members) ∧
      view n (mem w') (operation.description op)
        = json_view n (json_get "description" members).
Proof.
  intros Hdoc Hid Hty. rewrite (from_response_object _ _ _ _ _ Hdoc Hid).
  destruct (alloc_json (JObj members) (mem w)) as [hf v] eqn:Hj. cbn [fst snd].
  destruct (operation_of_document
              {| instance := instance; path := PStr ("operations/" +:+ i) |}
              (set_mem hf w) (JObj members) (mem w) hf v Hj)
    as (w' & Hom & Hpre & Hop); [done|].
  rewrite Hty in Hop. destruct Hop as (op & Hrun & Hurl & Hviews).
  exists op, w'. split; [done|]. split; [done|]. split; [exact Hom|].
  split; [|done]. etrans; [|exact Hpre]. apply (alloc_json_allocates _ _ _ _ Hj).
Qed.

(** X9. The outcomes of [_from_response], by the document the response
    stands for (the placeholder for status 204, the parsed body otherwise):
    no JSON raises the decoding error; a document that is not an object
    raises [TypeError]; an object without ["id"], or with a string id but
    without ["type"], raises the [KeyError]; an object with the string id
    [i] and a type gives an operation at [operations/i] on the instance
    given, whose fields read as the members of the document. No request is
    sent and nothing sleeps. *)
Theorem from_response_outcomes instance r w :
  match response_document r with
  | None => operation._from_response instance r w = Raise JSONDecodeError w
  | Some (JObj members) =>
      match json_member "id" members with
      | None =>
          ∃ w', operation._from_response instance r w
                  = Raise (KeyError (PStr "id")) w'
      | Some (JStr i) =>
          match json_member "type" members with
          | None =>
              ∃ w', operation._from_response instance r w
                      = Raise (KeyError (PStr "type")) w'
          | Some ty =>
              ∃ op w',
                operation._from_response instance r w = Ok op w' ∧
                operation.url op =
                  {| instance := instance; path := PStr ("operations/" +:+ i) |} ∧
                requests w' = requests w ∧ slept w' = slept w ∧
                ∀ n,
                  view n (mem w') (operation.type op) = json_view n ty ∧
                  view n (mem w') (operation.status op)
                    = json_view n (json_get "status" members) ∧
                  view n (mem w') (operation.description op)
                    = json_view n (json_get "description" members)
          end
      | Some _ => True
      end
  | Some _ => ∃ w', operation._from_response instance r w = Raise TypeError w'
  end.
Proof.
  destruct (response_document r) as [j|] eqn:Hdoc;
    [|by rewrite from_response_run, Hdoc].
  destruct (is_object j) eqn:Hobj.
  - destruct j as [ | | | | | |members]; try done.
    destruct (json_member "id" members) as [jid|] eqn:Hid.
    + destruct jid as [ | | | |i| | ]; try done.
      destruct (json_member "type" members) as [ty|] eqn:Hty.
      * destruct (from_response_operation instance r w members i ty)
          as (op & w' & Hrun & Hurl & (_ & _ & Hrq & Hsl) & _ & Hviews);
          [done..|]. eauto 10.
      * rewrite (from_response_object _ _ _ _ _ Hdoc Hid).
        destruct (alloc_json (JObj members) (mem w)) as [hf v] eqn:Hj.
        destruct (operation_of_document
                    {| instance := instance; path := PStr ("operations/" +:+ i) |}
                    (set_mem hf w) (JObj members) (mem w) hf v Hj)
          as (w' & _ & _ & Hop); [done|].
        rewrite Hty in Hop. eauto.
    + rewrite from_response_run, Hdoc.
      destruct (alloc_json (JObj members) (mem w)) as [hf v] eqn:Hj.
      cbn [fst snd]. simpl in Hj.
      destruct (alloc_members alloc_json members (mem w)) as [h1 kvs] eqn:Hms.
      injection Hj as <- <-.
      pose proof (alloc_members_get "id" members _ _ _ Hms) as Hget.
      rewrite Hid in Hget.
      eexists. unfold bind at 1, lift at 1, py_getitem. cbn [mem set_mem].
      by rewrite lookup_snoc_here, Hget.
  - rewrite from_response_run, Hdoc.
    destruct (alloc_json j (mem w)) as [hf v] eqn:Hj. cbn [fst snd].
    assert (py_getitem hf v (PStr "id") = inl TypeError) as Hid.
    { destruct j as [ | | | | |elems| ]; simpl in Hj; try done;
        try (by injection Hj as <- <-).
      destruct (alloc_all alloc_json elems (mem w)) as [h1 vs].
      injection Hj as <- <-. simpl. by rewrite lookup_snoc_here. }
    assert ((_id <- lift (λ h, py_getitem h v (PStr "id"));;
             _path <- lift (λ h, inr ("operations/" +:+ py_format h _id));;
             operation._from_json {| instance := instance; path := PStr _path |} v)
              (set_mem hf w) = Raise TypeError (set_mem hf w)) as ->.
    { unfold bind at 1, lift at 1. cbn [mem set_mem]. by rewrite Hid. }
    destruct j; try done; eauto.
Qed.
End from_response_more.

(** ** One request each *)

Lemma sends_after {A} (rq : Request) (c : M A) w :
  frames c →
  match c (sent rq w) with
  | Ok _ w' | Raise _ w' =>
      requests w' = requests w ++ [rq] ∧ slept w' = slept w ∧
      ticks w' = ticks w ∧ clock w' = clock w
  | Stuck => True
  end.
Proof.
  intros Hc. specialize (Hc (sent rq w)).
  destruct (c (sent rq w)); [| |done]; by destruct Hc as (-> & -> & -> & ->).
Qed.

Lemma sends_get {A} session url params (k : Response → M A) :
  (∀ r, frames (k r)) →
  sends {| req_method := GET; req_url := url; req_params := params |}
    (r <- session_get session url params ;; k r).
Proof.
  intros Hk w. unfold bind, session_get.
  destruct (session (requests w) _) as [msg|r]; [done|].
  by apply sends_after.
Qed.

Lemma sends_post {A} session url (k : Response → M A) :
  (∀ r, frames (k r)) →
  sends {| req_method := POST; req_url := url; req_params := [] |}
    (r <- session_post session url ;; k r).
Proof.
  intros Hk w. unfold bind, session_post.
  destruct (session (requests w) _) as [msg|r]; [done|].
  by apply sends_after.
Qed.

Lemma sends_delete {A} session url params (k : Response → M A) :
  (∀ r, frames (k r)) →
  sends {| req_method := DELETE; req_url := url; req_params := params |}
    (r <- session_delete session url params ;; k r).
Proof.
  intros Hk w. unfold bind, session_delete.
  destruct (session (requests w) _) as [msg|r]; [done|].
  by apply sends_after.
Qed.

Section traffic.
Context `{!Externals}.

Lemma frames_from_response instance r : frames (operation._from_response instance r).
Proof.
  unfold operation._from_response.
  apply frames_bind.
  { destruct (status_code r =? 204)%Z; [|apply frames_response_json].
    repeat (apply frames_bind; [apply frames_new_obj|intros ?]).
    apply frames_new_obj. }
  intros ?. repeat (apply frames_bind; [apply frames_lift|intros ?]).
  apply frames_operation_from_json.
Qed.

Lemma frames_by_url_rest url r :
  frames (if (status_code r =? 404)%Z
          then raise (DatasetNotFound (url_str url))
          else r' <- successful r ;; data <- response_json r' ;;
               dataset._from_json url data).
Proof.
  destruct (status_code r =? 404)%Z; [apply frames_raise|].
  apply frames_bind; [apply frames_successful|intros ?].
  apply frames_bind; [apply frames_response_json|intros ?].
  apply frames_dataset_from_json.
Qed.

(** X10. Each of the calls that talk to the server sends exactly one
    request, the one its arguments determine, whether it returns or raises,
    and neither sleeps nor reads the clock: [by_name], [by_resource_id],
    [_materialize_async], [delete], [operation._from_url] and [version]. *)
Theorem one_request_each session instance (name id : string) url ds cascade :
  sends (by_name_request instance name) (dataset.by_name session instance name) ∧
  sends (get_url_request {| instance := instance; path := PStr ("datasets/" +:+ id) |})
    (dataset.by_resource_id session instance id) ∧
  sends (refresh_request ds) (dataset._materialize_async session ds) ∧
  sends (delete_request ds cascade) (dataset.delete session ds cascade) ∧
  sends (get_url_request url) (operation._from_url session url) ∧
  sends (version_request instance) (version session instance).
Proof.
  repeat split.
  - apply sends_get. intros r.
    apply frames_bind; [apply frames_response_json|intros ?].
    apply frames_bind; [apply frames_lift|intros n].
    destruct (n =? 0)%nat; [apply frames_raise|].
    apply frames_bind; [apply frames_lift|intros n'].
    destruct (1 <? n')%nat; [apply frames_raise|].
    repeat (apply frames_bind; [apply frames_lift|intros ?]).
    apply frames_dataset_from_json.
  - apply sends_get. intros r. apply frames_by_url_rest.
  - apply sends_post. intros r. apply frames_from_response.
  - apply sends_delete. intros r.
    destruct (status_code r =? 404)%Z; [apply frames_raise|].
    apply frames_bind; [apply frames_successful|intros ?]. apply frames_ret.
  - apply sends_get. intros r.
    destruct (status_code r =? 404)%Z; [apply frames_raise|].
    apply frames_bind; [apply frames_successful|intros ?].
    apply frames_bind; [apply frames_response_json|intros ?].
    apply frames_operation_from_json.
  - unfold version, _version.
    intros w. unfold bind at 1 2, session_get.
    fold (version_request instance).
    destruct (session (requests w) _) as [msg|r]; [done|].
    apply (sends_after (version_request instance)
             (v <- response_json r ;; lift (λ h, py_getitem h v (PStr "version")))).
    apply frames_bind; [apply frames_response_json|intros ?]. apply frames_lift.
Qed.
End traffic.

(** ** materialize *)

Lemma view_leaf_none n h v : view n h v = TLeaf PNone → v = PNone.
Proof.
  destruct v as [| | | | |l]; destruct n; simpl; try congruence.
  by destruct (h !! l) as [[?|?]|].
Qed.

Section materialize.
Context `{!Externals}.

Lemma sends_materialize_async session ds :
  sends (refresh_request ds) (dataset._materialize_async session ds).
Proof. apply sends_post. intros r. apply frames_from_response. Qed.

Lemma materialize_async_run session ds w :
  dataset._materialize_async session ds w =
    match session (requests w) (refresh_request ds) with
    | inl msg => Raise (RequestException msg) (sent (refresh_request ds) w)
    | inr r =>
        operation._from_response (instance (dataset.url ds)) r
          (sent (refresh_request ds) w)
    end.
Proof.
  unfold dataset._materialize_async, bind, session_post.
  fold (refresh_request ds).
  by destruct (session (requests w) (refresh_request ds)).
Qed.

Lemma from_response_instance inst r w op w' :
  operation._from_response inst r w = Ok op w' →
  instance (operation.url op) = inst.
Proof.
  unfold operation._from_response. unfold bind at 1.
  match goal with |- context [match ?c w with _ => _ end] =>
    destruct (c w) as [rj w1| |]; [|done|done] end.
  unfold bind at 1. destruct (lift _ w1) as [i w2| |]; [|done|done].
  unfold bind at 1. destruct (lift _ w2) as [p w3| |]; [|done|done].
  intros Hop. by rewrite (operation_from_json_url _ _ _ _ _ Hop).
Qed.

(** X11. [materialize] returns after its single POST when the answer
    already shows the operation settled: the document the response stands
    for (the placeholder for 204, the body otherwise) has a string id, a
    type, and a status that is absent or null, or in state CANCELED,
    SUCCEEDED or FAILED. Then no poll is sent and nothing sleeps; the
    operation is at [operations/<id>] on the instance of the dataset, and
    [succeeded] tells whether the state is SUCCEEDED. *)
Theorem materialize_settled fuel session ds w r members i ty b :
  session (requests w) (refresh_request ds) = inr r →
  response_document r = Some (JObj members) →
  json_member "id" members = Some (JStr i) →
  json_member "type" members = Some ty →
  settled members = Some b →
  ∃ op w',
    dataset.materialize (S fuel) session ds w = Ok op w' ∧
    requests w' = requests w ++ [refresh_request ds] ∧ slept w' = slept w ∧
    operation.url op =
      {| instance := instance (dataset.url ds);
         path := PStr ("operations/" +:+ i) |} ∧
    operation.succeeded op w' = Ok b w'.
Proof.
  intros Hsess Hdoc Hid Hty Hset.
  destruct (from_response_operation (instance (dataset.url ds)) r
              (sent (refresh_request ds) w) members i ty Hdoc Hid Hty)
    as (op & w1 & Hrun & Hurl & (_ & _ & Hrq & Hsl) & _ & Hviews).
  exists op, (tick w1).
  assert (dataset.materialize (S fuel) session ds w =
            operation.wait_loop (S fuel) session 3 None (clock w1 (ticks w1)) op
              (tick w1)) as ->.
  { unfold dataset.materialize, bind at 1.
    rewrite materialize_async_run, Hsess, Hrun. done. }
  assert (check_passes None (clock w1 (ticks w1)) (tick w1) (tick w1)) as Hchk
    by done.
  unfold settled in Hset.
  destruct (json_get "status" members) as [ | | | | | |sm] eqn:Hst; try done.
  - injection Hset as <-.
    assert (operation.status op = PNone) as Hnone.
    { destruct (Hviews 0) as (_ & Hv & _). by eapply view_leaf_none. }
    split; [by apply wait_loop_absent|].
    do 3 (split; [done|]).
    unfold operation.succeeded. by destruct (decide (operation.status op = PNone)).
  - destruct (json_member "state" sm) as [[ | | | |st| | ]|] eqn:Hstate; try done.
    destruct (existsb (String.eqb st) ["CANCELED"; "SUCCEEDED"; "FAILED"])
      eqn:Hin; [|done].
    injection Hset as <-.
    assert (state_of (mem (tick w1)) op = inr (PStr st)) as Hs.
    { destruct (Hviews 1) as (_ & Hv & _). by eapply getitem_of_view. }
    split; [by eapply wait_loop_terminal|].
    do 3 (split; [done|]).
    unfold operation.succeeded.
    destruct (decide (operation.status op = PNone)) as [Hn|_].
    { by destruct (state_of_present _ _ _ Hs). }
    unfold bind, lift. unfold state_of in Hs. rewrite Hs. unfold ret.
    f_equal. apply bool_decide_ext. split; congruence.
Qed.

(** X12. The traffic of [materialize], whenever it returns or raises: one
    POST of the refresh URL of the dataset, then only polls of one URL, on
    the instance of the dataset; every sleep lasts 3 seconds, and there are
    at most as many sleeps as polls. *)
Theorem materialize_traffic fuel session ds w :
  match dataset.materialize fuel session ds w with
  | Ok _ w' | Raise _ w' =>
      ∃ u polls sleeps,
        instance u = instance (dataset.url ds) ∧
        requests w' =
          requests w ++ refresh_request ds :: replicate polls (get_url_request u) ∧
        slept w' = slept w ++ replicate sleeps 3%Z ∧ sleeps ≤ polls
  | Stuck => True
  end.
Proof.
  unfold dataset.materialize, bind at 1.
  pose proof (sends_materialize_async session ds w) as Hs.
  destruct (dataset._materialize_async session ds w) as [op w1|e w1|] eqn:Hrun;
    [| |done].
  - destruct Hs as (Hrq & Hsl & _ & _).
    assert (instance (operation.url op) = instance (dataset.url ds)) as Hinst.
    { rewrite materialize_async_run in Hrun.
      destruct (session _ _); [done|]. by eapply from_response_instance. }
    unfold operation.wait, bind, now.
    pose proof (wait_loop_traffic session 3 None (clock w1 (ticks w1)) fuel op
                  (tick w1)) as Ht.
    destruct (operation.wait_loop _ _ _ _ _ _ _) as [op' w'|e w'|]; [| |done];
      destruct Ht as (polls & sleeps & Hrq' & Hsl' & Hle);
      exists (operation.url op), polls, sleeps;
      (split; [done|]); simpl in Hrq', Hsl';
      rewrite Hrq', Hsl', Hrq, Hsl, <- app_assoc; done.
  - destruct Hs as (Hrq & Hsl & _ & _).
    exists (dataset.url ds), 0, 0. simpl. by rewrite Hrq, Hsl, app_nil_r.
Qed.

Lemma raises_from_response inst r :
  raises not_timeout (operation._from_response inst r).
Proof.
  unfold operation._from_response.
  apply raises_bind.
  { destruct (status_code r =? 204)%Z.
    - intros w e w'. by unfold bind, new_obj.
    - intros w e w'. unfold response_json. destruct (body r).
      + by destruct (alloc_json _ _).
      + intros [= <- <-]. by intros msg. }
  intros rj.
  apply raises_bind; [apply raises_lift; intros h e; apply py_getitem_not_timeout|].
  intros i. apply raises_bind; [by apply raises_lift|].
  intros p. apply raises_operation_from_json.
Qed.

(** X13. [materialize] never raises the timeout error of [wait]: it waits
    without timeout. *)
Theorem materialize_never_times_out fuel session ds :
  raises not_timeout (dataset.materialize fuel session ds).
Proof.
  unfold dataset.materialize. apply raises_bind.
  - unfold dataset._materialize_async. apply raises_bind.
    + intros w e w'. unfold session_post.
      destruct (session _ _); [|done]. intros [= <- <-]. by intros msg'.
    + intros r. apply raises_from_response.
  - intros op w e w' Hrun msg ->.
    unfold operation.wait, bind, now in Hrun.
    by apply wait_loop_timeout_inv in Hrun as (t & ? & _).
Qed.
End materialize.

(** ** Datasets by resource id, deletion, and the version *)

Section dataset_calls.
Context `{!Externals}.

(** Fetching a dataset, step by step. *)
Lemma by_url_run session url w :
  dataset._by_url session url w =
    match session (requests w) (get_url_request url) with
    | inl msg => Raise (RequestException msg) (sent (get_url_request url) w)
    | inr r =>
        if (status_code r =? 404)%Z then
          Raise (DatasetNotFound (url_str url)) (sent (get_url_request url) w)
        else if http_ok r then
          match body r with
          | None => Raise JSONDecodeError (sent (get_url_request url) w)
          | Some j =>
              dataset._from_json url (alloc_json j (mem w)).2
                (set_mem (alloc_json j (mem w)).1 (sent (get_url_request url) w))
          end
        else Raise (HTTPError (status_code r)) (sent (get_url_request url) w)
    end.
Proof.
  unfold dataset._by_url, bind at 1, session_get.
  fold (get_url_request url). set (rq := get_url_request url).
  destruct (session (requests w) rq) as [msg|r]; [done|].
  destruct (status_code r =? 404)%Z; [done|].
  unfold bind at 1, successful. destruct (http_ok r); [|done].
  unfold ret. unfold bind at 1, response_json.
  destruct (body r) as [j|]; [|done].
  cbn [mem sent]. by destruct (alloc_json j (mem w)).
Qed.

(** X14. The outcomes of [by_resource_id], by the answer of the session to
    the GET of [datasets/<id>] on the instance: a transport error is passed
    on; 404 raises [dataset.NotFound] with the URL; a response [successful]
    rejects raises its error; a body that is not JSON raises the decoding
    error; a document that is not an object raises [TypeError]; an object
    without ["name"] or ["keyAttributeNames"] raises the [KeyError], in that
    order; key attribute names that [tuple()] rejects raise [TypeError];
    otherwise the dataset has the URL asked and its fields read as the
    members of the document. *)
Theorem by_resource_id_outcomes session inst id w :
  let url := {| instance := inst; path := PStr ("datasets/" +:+ id) |} in
  match session (requests w) (get_url_request url) with
  | inl msg =>
      dataset.by_resource_id session inst id w
        = Raise (RequestException msg) (sent (get_url_request url) w)
  | inr r =>
      if (status_code r =? 404)%Z then
        dataset.by_resource_id session inst id w
          = Raise (DatasetNotFound (url_str url)) (sent (get_url_request url) w)
      else if http_ok r then
        match body r with
        | None =>
            dataset.by_resource_id session inst id w
              = Raise JSONDecodeError (sent (get_url_request url) w)
        | Some (JObj members) =>
            match json_member "name" members with
            | None =>
                ∃ w', dataset.by_resource_id session inst id w
                        = Raise (KeyError (PStr "name")) w'
            | Some nm =>
                match json_member "keyAttributeNames" members with
                | None =>
                    ∃ w', dataset.by_resource_id session inst id w
                            = Raise (KeyError (PStr "keyAttributeNames")) w'
                | Some names =>
                    match json_tuple_view 0 names with
                    | None =>
                        ∃ w', dataset.by_resource_id session inst id w
                                = Raise TypeError w'
                    | Some _ =>
                        ∃ ds w',
                          dataset.by_resource_id session inst id w = Ok ds w' ∧
                          dataset.url ds = url ∧
                          ∀ n,
                            view n (mem w') (dataset.name ds) = json_view n nm ∧
                            Some (view n (mem w') <$> dataset.key_attribute_names ds)
                              = json_tuple_view n names ∧
                            view n (mem w') (dataset.description ds)
                              = json_view n (json_get "description" members)
                    end
                end
            end
        | Some _ =>
            ∃ w', dataset.by_resource_id session inst id w = Raise TypeError w'
        end
      else
        dataset.by_resource_id session inst id w
          = Raise (HTTPError (status_code r)) (sent (get_url_request url) w)
  end.
Proof.
  intros url. unfold dataset.by_resource_id. fold url. rewrite by_url_run.
  set (rq := get_url_request url).
  destruct (session (requests w) rq) as [msg|r]; [done|].
  destruct (status_code r =? 404)%Z; [done|].
  destruct (http_ok r); [|done].
  destruct (body r) as [j|]; [|done].
  destruct (alloc_json j (mem w)) as [hf v] eqn:Hj. cbn [fst snd].
  destruct (dataset_of_document url (set_mem hf (sent rq w)) j _ hf v Hj)
    as (w' & _ & _ & Hdoc); [done|].
  destruct j as [ | | | | | |members]; eauto.
  destruct (json_member "name" members); [|eauto].
  destruct (json_member "keyAttributeNames" members) as [names|]; [|eauto].
  destruct (json_tuple_view 0 names); [|eauto].
  destruct Hdoc as (ds & ? & ?). eauto.
Qed.

(** X15. The outcomes of [delete], by the answer of the session to the
    DELETE of the dataset's URL with the [cascade] parameter: a transport
    error is passed on; 404 raises [dataset.NotFound] with the URL, whatever
    [successful] would say of it; a response [successful] rejects raises its
    error; otherwise [delete] returns. The body of the response is never
    read and the store is left as it was. *)
Theorem delete_outcomes session ds cascade w :
  let rq := delete_request ds cascade in
  match session (requests w) rq with
  | inl msg =>
      dataset.delete session ds cascade w = Raise (RequestException msg) (sent rq w)
  | inr r =>
      dataset.delete session ds cascade w =
        if (status_code r =? 404)%Z then
          Raise (DatasetNotFound (url_str (dataset.url ds))) (sent rq w)
        else if http_ok r then Ok tt (sent rq w)
        else Raise (HTTPError (status_code r)) (sent rq w)
  end.
Proof.
  intros rq.
  assert (dataset.delete session ds cascade w =
            match session (requests w) rq with
            | inl msg => Raise (RequestException msg) (sent rq w)
            | inr r =>
                (if (status_code r =? 404)%Z
                 then raise (DatasetNotFound (url_str (dataset.url ds)))
                 else successful r ;;; ret tt) (sent rq w)
            end) as ->.
  { unfold dataset.delete, bind at 1, session_delete.
    fold (delete_request ds cascade). fold rq.
    by destruct (session (requests w) rq). }
  destruct (session (requests w) rq) as [msg|r]; [done|].
  destruct (status_code r =? 404)%Z; [done|].
  unfold bind, successful. by destruct (http_ok r).
Qed.

(** X16. The outcomes of [version], by the answer of the session to the GET
    of the version URL: a transport error is passed on; otherwise the status
    code is not looked at: a body that is not JSON raises the decoding error,
    a document that is not an object raises [TypeError], an object without
    ["version"] raises the [KeyError], and any other object gives the value
    of its ["version"] member. *)
Theorem version_outcomes session inst w :
  let rq := version_request inst in
  match session (requests w) rq with
  | inl msg => version session inst w = Raise (RequestException msg) (sent rq w)
  | inr r =>
      match body r with
      | None => version session inst w = Raise JSONDecodeError (sent rq w)
      | Some (JObj members) =>
          match json_member "version" members with
          | None =>
              ∃ w', version session inst w = Raise (KeyError (PStr "version")) w'
          | Some j =>
              ∃ v w', version session inst w = Ok v w' ∧
                      ∀ n, view n (mem w') v = json_view n j
          end
      | Some _ => ∃ w', version session inst w = Raise TypeError w'
      end
  end.
Proof.
  intros rq.
  assert (version session inst w =
            match session (requests w) rq with
            | inl msg => Raise (RequestException msg) (sent rq w)
            | inr r =>
                match body r with
                | None => Raise JSONDecodeError (sent rq w)
                | Some j =>
                    match py_getitem (alloc_json j (mem w)).1
                            (alloc_json j (mem w)).2 (PStr "version") with
                    | inr v => Ok v (set_mem (alloc_json j (mem w)).1 (sent rq w))
                    | inl e => Raise e (set_mem (alloc_json j (mem w)).1 (sent rq w))
                    end
                end
            end) as ->.
  { unfold version, _version, bind, session_get.
    fold (version_request inst). fold rq.
    destruct (session (requests w) rq) as [msg|r]; [done|].
    unfold response_json. destruct (body r) as [j|]; [|done].
    cbn [mem sent]. by destruct (alloc_json j (mem w)). }
  destruct (session (requests w) rq) as [msg|r]; [done|].
  destruct (body r) as [j|]; [|done].
  destruct (alloc_json j (mem w)) as [hf v] eqn:Hj. cbn [fst snd].
  destruct j as [ | | | | |elems|members]; simpl in Hj;
    try (injection Hj as <- <-; eauto; fail).
  - destruct (alloc_all alloc_json elems (mem w)) as [h1 vs].
    injection Hj as <- <-. simpl. rewrite lookup_snoc_here. eauto.
  - destruct (alloc_members alloc_json members (mem w)) as [h1 kvs] eqn:Hms.
    injection Hj as <- <-.
    pose proof (alloc_members_get "version" members _ _ _ Hms) as Hget.
    assert (py_getitem (h1 ++ [ODict kvs]) (PRef (length h1)) (PStr "version") =
              match dict_get "version" kvs with
              | Some x => inr x
              | None => inl (KeyError (PStr "version"))
              end) as ->.
    { unfold py_getitem. by rewrite lookup_snoc_here. }
    destruct (json_member "version" members) as [jv|].
    + destruct Hget as (ha & hb & x & Hx & Hpre & ->).
      eexists _, _. split; [done|]. intros n. cbn [mem set_mem].
      eapply alloc_json_view; [exact Hx|].
      etrans; [exact Hpre|]. by apply prefix_app_r.
    + rewrite Hget. eauto.
Qed.

(** X17. [by_name] on an answer whose body is not a JSON array (it does not
    look at the status code, so this is how it treats error answers): no
    JSON raises the decoding error; an object is counted by its members, and
    a string by its characters: none raises [NotFound], two or more raise
    [Ambiguous]; a single member raises [KeyError(0)], a single character
    [TypeError]; null, a boolean or a number raises [TypeError]. *)
Theorem by_name_not_an_array session inst name w r :
  session (requests w) (by_name_request inst name) = inr r →
  match body r with
  | None =>
      dataset.by_name session inst name w
        = Raise JSONDecodeError (sent (by_name_request inst name) w)
  | Some (JArr _) => True
  | Some (JObj members) =>
      ∃ w', dataset.by_name session inst name w =
              Raise match members with
                    | [] => DatasetNotFound (resp_url r)
                    | [_] => KeyError (PInt 0)
                    | _ => Ambiguous (resp_url r)
                    end w'
  | Some (JStr s) =>
      ∃ w', dataset.by_name session inst name w =
              Raise match String.length s with
                    | 0 => DatasetNotFound (resp_url r)
                    | 1 => TypeError
                    | _ => Ambiguous (resp_url r)
                    end w'
  | Some _ => ∃ w', dataset.by_name session inst name w = Raise TypeError w'
  end.
Proof.
  intros Hsess.
  assert (∀ j, body r = Some j →
            dataset.by_name session inst name w =
              ((λ matches,
                 n <- lift (fun h => py_len h matches) ;;
                 if (n =? 0)%nat then raise (DatasetNotFound (resp_url r))
                 else
                   n' <- lift (fun h => py_len h matches) ;;
                   if (1 <? n')%nat then raise (Ambiguous (resp_url r))
                   else
                     first <- lift (fun h => py_getitem h matches (PInt 0)) ;;
                     relative_id <-
                       lift (fun h => py_getitem h first (PStr "relativeId")) ;;
                     first' <- lift (fun h => py_getitem h matches (PInt 0)) ;;
                     dataset._from_json
                       {| instance := inst; path := relative_id |} first')
                 (alloc_json j (mem w)).2)
                (set_mem (alloc_json j (mem w)).1
                   (sent (by_name_request inst name) w))) as Hrun.
  { intros j Hbody. unfold dataset.by_name, bind at 1, session_get.
    fold (by_name_request inst name). rewrite Hsess.
    unfold bind at 1, response_json. rewrite Hbody. cbn [mem sent].
    by destruct (alloc_json j (mem w)). }
  destruct (body r) as [j|] eqn:Hbody.
  2: { unfold dataset.by_name, bind at 1, session_get.
       fold (by_name_request inst name). rewrite Hsess.
       unfold bind at 1, response_json. by rewrite Hbody. }
  rewrite (Hrun j eq_refl). clear Hrun.
  set (w1 := sent (by_name_request inst name) w).
  destruct j as [ | | | |s|elems|members]; [| | | | |done|];
    cbn [alloc_json fst snd];
    try (eexists; unfold bind, lift; cbn [mem set_mem py_len]; done).
  - destruct s as [|c [|c' s]].
    + eexists. unfold bind, lift. cbn. done.
    + eexists. unfold bind, lift. cbn. done.
    + eexists. unfold bind at 1, lift at 1. cbn [mem set_mem py_len String.length].
      cbn [Nat.eqb]. unfold bind at 1, lift at 1.
      cbn [mem set_mem py_len String.length]. done.
  - destruct (alloc_members alloc_json members (mem w)) as [h1 kvs] eqn:Hms.
    cbn [fst snd].
    assert (length kvs = length members) as Hlen.
    { clear -Hms. revert h1 kvs Hms. generalize (mem w).
      induction members as [|[k j] members IH]; intros h h1 kvs Hms;
        simpl in Hms.
      - by injection Hms as <- <-.
      - destruct (alloc_json j h) as [h2 v].
        destruct (alloc_members alloc_json members h2) as [h3 kvs'] eqn:Hrest.
        injection Hms as <- <-. simpl. f_equal. by eapply IH. }
    assert (∀ {A} (f : heap → exn + A),
              lift f (set_mem (h1 ++ [ODict kvs]) w1) =
              match f (h1 ++ [ODict kvs]) with
              | inr a => Ok a (set_mem (h1 ++ [ODict kvs]) w1)
              | inl e => Raise e (set_mem (h1 ++ [ODict kvs]) w1)
              end) as Hlift by done.
    assert (py_len (h1 ++ [ODict kvs]) (PRef (length h1)) = inr (length members))
      as Hl.
    { unfold py_len. by rewrite lookup_snoc_here, Hlen. }
    eexists. unfold bind at 1. rewrite Hlift, Hl.
    destruct members as [|m1 [|m2 members]]; [done| |].
    + cbn [length Nat.eqb]. unfold bind at 1. rewrite Hlift, Hl.
      cbn [length Nat.ltb Nat.leb]. unfold bind at 1. rewrite Hlift.
      unfold py_getitem. rewrite lookup_snoc_here.
      destruct kvs as [|[k0 v0] [|? ?]]; try done.
    + cbn [length Nat.eqb]. unfold bind at 1. rewrite Hlift, Hl. done.
Qed.
End dataset_calls.

(** ** Examples *)

#[local] Existing Instance sample_externals.

(** C1 on a session that shows the operation pending, then succeeded. *)
Lemma wait_pending_pending_succeeded_witness :
  ∃ op1 op2 w2,
    operation.wait (3 + 0) pending_then_succeeded sample_operation 3 None
      (sample_world "PENDING") = Ok op2 w2 ∧
    slept w2 = slept (sample_world "PENDING") ++ [3%Z; 3%Z] ∧
    requests w2 = requests (sample_world "PENDING")
                  ++ [get_request sample_operation; get_request op1].
Proof.
  eexists _, _, _.
  eapply (wait_pending_pending_succeeded pending_then_succeeded 3 sample_operation).
  - split; [unfold sleep_max; lia|reflexivity].
  - reflexivity.
  - vm_compute. reflexivity.
  - vm_compute. reflexivity.
  - split; [unfold sleep_max; lia|reflexivity].
  - vm_compute. reflexivity.
  - vm_compute. reflexivity.
Defined.

Lemma sample_elapsed_lt (w : World) (t : Z) :
  clock w = (fun n => inject_Z (Z.of_nat n)) → (1 < t)%Z →
  (clock w (S (ticks w)) - clock w (ticks w) < inject_Z t)%Q.
Proof.
  intros -> Ht. unfold Qlt, Qminus, Qplus, Qopp, inject_Z. simpl. lia.
Qed.

(** C2, as the code has it, on an operation in the unknown state QUEUED. *)
Lemma wait_unrecognized_state_repolls_witness :
  ∃ w1, slept w1 = slept (sample_world "QUEUED") ∧
        requests w1 = requests (sample_world "QUEUED") ∧
    match operation.poll succeeded_at_once sample_operation w1 with
    | Ok op' w2 =>
        operation.wait 2 succeeded_at_once sample_operation 3 (Some 100%Z)
          (sample_world "QUEUED") =
          operation.wait_loop 1 succeeded_at_once 3 (Some 100%Z)
            (clock (sample_world "QUEUED") (ticks (sample_world "QUEUED"))) op' w2 ∧
        slept w2 = slept (sample_world "QUEUED") ∧
        requests w2 = requests (sample_world "QUEUED")
                      ++ [get_request sample_operation]
    | Raise e w2 =>
        operation.wait 2 succeeded_at_once sample_operation 3 (Some 100%Z)
          (sample_world "QUEUED") = Raise e w2
    | Stuck =>
        operation.wait 2 succeeded_at_once sample_operation 3 (Some 100%Z)
          (sample_world "QUEUED") = Stuck
    end.
Proof.
  apply (wait_unrecognized_state_repolls 1 succeeded_at_once sample_operation 3
           (Some 100%Z) (sample_world "QUEUED") (PStr "QUEUED")).
  - reflexivity.
  - reflexivity.
  - intros t [= <-]. apply sample_elapsed_lt; [reflexivity|lia].
Defined.

(** C2 as stated fails: with a timeout of 100 seconds, an operation in the
    unknown state QUEUED is polled again at once, and [wait] returns what the
    poll found; it never raises the timeout error. *)
Lemma wait_unrecognized_state_counterexample :
  state_of (mem (sample_world "QUEUED")) sample_operation = inr (PStr "QUEUED") ∧
  (∃ op' w',
     operation.wait 2 succeeded_at_once sample_operation 3 (Some 100%Z)
       (sample_world "QUEUED") = Ok op' w' ∧
     state_of (mem w') op' = inr (PStr "SUCCEEDED") ∧
     slept w' = [] ∧ length (requests w') = 1) ∧
  ¬ (∃ fuel msg w',
       operation.wait fuel succeeded_at_once sample_operation 3 (Some 100%Z)
         (sample_world "QUEUED") = Raise (TimeoutError msg) w').
Proof.
  split; [reflexivity|]. split.
  - eexists _, _. split; [vm_compute; reflexivity|].
    split; [vm_compute; reflexivity|]. split; reflexivity.
  - intros (fuel & msg & w' & Hrun).
    destruct fuel as [|[|fuel]]; vm_compute in Hrun; discriminate Hrun.
Qed.

(** C3 on an empty 204 response. *)
Lemma from_response_204_witness :
  ∃ op w',
    operation._from_response sample_instance
      {| status_code := 204; resp_url := "https://example.com/x"; body := None |}
      (sample_world "PENDING") = Ok op w' ∧
    operation.type op = PStr "NOOP" ∧
    state_of (mem w') op = inr (PStr "SUCCEEDED") ∧
    operation.succeeded op w' = Ok true w'.
Proof.
  apply (from_response_204 sample_instance
           {| status_code := 204; resp_url := "https://example.com/x"; body := None |}
           (sample_world "PENDING")).
  reflexivity.
Defined.

(** C4, as the code has it: a timeout of 0 seconds has elapsed at the first
    check; a failed operation is returned under a timeout of 100 seconds. *)
Lemma wait_timeout_only_after_deadline_witness :
  (∃ msg w',
     operation.wait 1 succeeded_at_once sample_operation 3 (Some 0%Z)
       (sample_world "PENDING") = Raise (TimeoutError msg) w' ∧
     ∃ t, Some 0%Z = Some t ∧
          msg = "Waiting for operation took longer than " +:+ pretty t +:+ " seconds." ∧
          (inject_Z t <= clock (sample_world "PENDING") (pred (ticks w'))
                         - clock (sample_world "PENDING")
                             (ticks (sample_world "PENDING")))%Q) ∧
  (∃ w', operation.wait 1 succeeded_at_once sample_operation 3 (Some 100%Z)
           (sample_world "FAILED") = Ok sample_operation w' ∧
         requests w' = [] ∧ slept w' = []).
Proof.
  split.
  - eexists _, _. split; [vm_compute; reflexivity|].
    eapply (proj1 wait_timeout_only_after_deadline 1 succeeded_at_once
              sample_operation 3%Z (Some 0%Z) (sample_world "PENDING")).
    vm_compute. reflexivity.
  - apply (proj2 wait_timeout_only_after_deadline 0 succeeded_at_once
             sample_operation 3%Z (Some 100%Z) (sample_world "FAILED")).
    + right. exists (PStr "FAILED"). split; reflexivity.
    + intros t [= <-]. apply sample_elapsed_lt; [reflexivity|lia].
Defined.

(** C4 as stated fails: an operation that has already succeeded, and one
    without status, waited for with a timeout of 0 seconds, are answered by
    the timeout error. *)
Lemma wait_timeout_only_after_deadline_counterexample :
  state_of (mem (sample_world "SUCCEEDED")) sample_operation
    = inr (PStr "SUCCEEDED") ∧
  (∃ w', operation.wait 1 succeeded_at_once sample_operation 3 (Some 0%Z)
           (sample_world "SUCCEEDED")
           = Raise (TimeoutError "Waiting for operation took longer than 0 seconds.") w') ∧
  (∃ w', operation.wait 1 succeeded_at_once absent_status_operation 3 (Some 0%Z)
           (sample_world "SUCCEEDED")
           = Raise (TimeoutError "Waiting for operation took longer than 0 seconds.") w').
Proof.
  split; [reflexivity|].
  split; eexists; vm_compute; reflexivity.
Qed.

(** C5 on a pending operation and a session that is never asked. *)
Lemma wait_timeout_zero_witness :
  ∃ w', operation.wait 1 (scripted []) sample_operation 3 (Some 0%Z)
          (sample_world "PENDING") =
          Raise (TimeoutError "Waiting for operation took longer than 0 seconds.") w' ∧
        slept w' = slept (sample_world "PENDING") ∧
        requests w' = requests (sample_world "PENDING").
Proof.
  apply (wait_timeout_zero 0 (scripted []) sample_operation 3 (sample_world "PENDING")).
  unfold Qle. simpl. lia.
Defined.

(** C6, as the code has it, on an operation without status: returned under
    a timeout of 100 seconds, answered by the timeout error under a timeout
    of 0 seconds. *)
Lemma wait_absent_status_witness :
  (∃ w', operation.wait 1 (scripted []) absent_status_operation 3 (Some 100%Z)
           (sample_world "PENDING") = Ok absent_status_operation w' ∧
         requests w' = requests (sample_world "PENDING") ∧
         slept w' = slept (sample_world "PENDING") ∧
         mem w' = mem (sample_world "PENDING")) ∧
  (∃ w', operation.wait 1 (scripted []) absent_status_operation 3 (Some 0%Z)
           (sample_world "PENDING") =
           Raise (TimeoutError "Waiting for operation took longer than 0 seconds.") w' ∧
         requests w' = requests (sample_world "PENDING") ∧
         slept w' = slept (sample_world "PENDING") ∧
         mem w' = mem (sample_world "PENDING")).
Proof.
  split.
  - destruct (wait_absent_status 0 (scripted []) absent_status_operation 3
                (Some 100%Z) (sample_world "PENDING")) as [Hreturns _];
      [reflexivity|].
    apply Hreturns.
    intros t [= <-]. apply sample_elapsed_lt; [reflexivity|lia].
  - destruct (wait_absent_status 0 (scripted []) absent_status_operation 3
                (Some 0%Z) (sample_world "PENDING")) as [_ Hraises];
      [reflexivity|].
    apply (Hraises 0%Z); [reflexivity|].
    unfold Qle. simpl. lia.
Defined.

(** C6 as stated fails: an operation without status, waited for with a
    timeout of 0 seconds, is not returned; [wait] raises the timeout
    error. *)
Lemma wait_absent_status_counterexample :
  operation.status absent_status_operation = PNone ∧
  ∃ w', operation.wait 1 (scripted []) absent_status_operation 3 (Some 0%Z)
          (sample_world "PENDING")
          = Raise (TimeoutError "Waiting for operation took longer than 0 seconds.") w'.
Proof.
  split; [reflexivity|].
  eexists. vm_compute. reflexivity.
Qed.

(** C10 as stated fails: the session answers the poll of a pending operation
    with a status that has no state; the poll returns, and the next turn of
    the loop raises the [KeyError] of [wait]'s own lookup, which no poll
    raises. *)
Lemma wait_without_timeout_counterexample :
  (∃ w', operation.wait 2 status_without_state sample_operation 3 None
           (sample_world "PENDING") = Raise (KeyError (PStr "state")) w' ∧
         length (requests w') = 1) ∧
  ¬ (∃ op1 w1 w2,
       operation.poll status_without_state op1 w1
         = Raise (KeyError (PStr "state")) w2).
Proof.
  split.
  - eexists. split; [vm_compute; reflexivity|reflexivity].
  - intros (op1 & w1 & w2 & Hp).
    pose proof (poll_key_error status_without_state op1 w1 _ w2 Hp _ eq_refl).
    discriminate.
Qed.




Lemma raw_operation_closed : closed_in (mem raw_operation_world) {[0; 1]}.
Proof.
  replace ({[0; 1]} : gset nat) with ((∅ ∪ {[0]}) ∪ {[1]} : gset nat) by set_solver.
  apply (closed_in_snoc [_]); [apply (closed_in_snoc []); [apply closed_in_empty|]|];
    simpl; repeat constructor; simpl; set_solver.
Qed.

Lemma raw_dataset_closed : closed_in (mem raw_dataset_world) {[0; 1]}.
Proof.
  replace ({[0; 1]} : gset nat) with ((∅ ∪ {[0]}) ∪ {[1]} : gset nat) by set_solver.
  apply (closed_in_snoc [_]); [apply (closed_in_snoc []); [apply closed_in_empty|]|];
    simpl; repeat constructor; simpl; set_solver.
Qed.

(** C7 on answers with no, two and one dataset. *)
Lemma by_name_zero_one_many_witness :
  (∃ w', dataset.by_name (scripted [JArr []]) sample_instance "people"
           (sample_world "PENDING")
           = Raise (DatasetNotFound "https://example.com/x") w') ∧
  (∃ w', dataset.by_name
           (scripted [JArr [dataset_json "people" "datasets/7";
                            dataset_json "people" "datasets/8"]])
           sample_instance "people" (sample_world "PENDING")
           = Raise (Ambiguous "https://example.com/x") w') ∧
  (∃ ds w', dataset.by_name (scripted [JArr [dataset_json "people" "datasets/7"]])
              sample_instance "people" (sample_world "PENDING") = Ok ds w' ∧
            dataset.url ds = {| instance := sample_instance;
                                path := PStr "datasets/7" |}).
Proof.
  pose (r j := {| status_code := 200; resp_url := "https://example.com/x";
                  body := Some j |}).
  split; [|split].
  - eapply (proj1 (by_name_zero_one_many (scripted [JArr []]) sample_instance
                     "people" (sample_world "PENDING") (r (JArr [])) []
                     eq_refl eq_refl)).
    reflexivity.
  - eapply (proj1 (proj2 (by_name_zero_one_many _ sample_instance "people"
                            (sample_world "PENDING") (r _) _ eq_refl eq_refl))).
    simpl. lia.
  - eapply (proj2 (proj2 (by_name_zero_one_many _ sample_instance "people"
                            (sample_world "PENDING") (r _) _ eq_refl eq_refl)));
      reflexivity.
Defined.

(** C8 on the raw JSON of an operation (no name: not a dataset; no
    description) and of a dataset. *)
Lemma from_json_missing_fields_witness :
  ((∃ k w', dataset._from_json sample_url (PRef 1) raw_operation_world
              = Raise (KeyError k) w') ↔
     dict_get "name" [("type", PStr "SPARK"); ("status", PRef 0)] = None ∨
     dict_get "keyAttributeNames" [("type", PStr "SPARK"); ("status", PRef 0)]
       = None) ∧
  (∃ op w', operation._from_json sample_url (PRef 1) raw_operation_world = Ok op w' ∧
            operation.description op = PNone) ∧
  (∃ ds w', dataset._from_json sample_url (PRef 1) raw_dataset_world = Ok ds w' ∧
            dataset.description ds = PNone).
Proof.
  destruct (from_json_missing_fields sample_url raw_operation_world 1
              [("type", PStr "SPARK"); ("status", PRef 0)] {[0; 1]})
    as (Hds & _ & _ & _ & Hop);
    [reflexivity|apply raw_operation_closed|set_solver|].
  destruct (from_json_missing_fields sample_url raw_dataset_world 1
              [("name", PStr "people"); ("keyAttributeNames", PRef 0)] {[0; 1]})
    as (_ & Hok & _);
    [reflexivity|apply raw_dataset_closed|set_solver|].
  split; [exact Hds|]. split.
  - destruct (Hop (PStr "SPARK") eq_refl) as (op & w' & Hrun & _ & Hdescr).
    exists op, w'. split; [exact Hrun|]. by apply Hdescr.
  - destruct (Hok (PStr "people") (PRef 0) [PStr "id"; PStr "source"]
                eq_refl eq_refl eq_refl) as (ds & w' & Hrun & Hdescr).
    exists ds, w'. split; [exact Hrun|]. by apply Hdescr.
Defined.

(** C9: after [raw["status"]["state"] = "FAILED"] the raw JSON reads
    differently, the operation made from it does not. *)
Lemma from_json_defensive_copy_witness :
  ∃ op w' h'',
    operation._from_json sample_url (PRef 1) raw_operation_world = Ok op w' ∧
    py_setitem (mem w') (PRef 0) "state" (PStr "FAILED") = inr h'' ∧
    view 2 h'' (PRef 1) ≠ view 2 (mem w') (PRef 1) ∧
    operation.url op = sample_url ∧
    view 2 h'' (operation.type op) = view 2 (mem w') (operation.type op) ∧
    view 2 h'' (operation.status op) = view 2 (mem w') (operation.status op) ∧
    view 2 h'' (operation.description op)
      = view 2 (mem w') (operation.description op).
Proof.
  eexists _, _, _.
  split; [vm_compute; reflexivity|].
  split; [vm_compute; reflexivity|].
  split; [vm_compute; discriminate|].
  eapply (proj2 (from_json_defensive_copy sample_url raw_operation_world 1
                   [("type", PStr "SPARK"); ("status", PRef 0)] {[0; 1]}
                   eq_refl raw_operation_closed ltac:(set_solver))).
  - vm_compute. reflexivity.
  - eapply (py_setitem_mutated 2 _ _ 0 "state" (PStr "FAILED")); [left; lia|].
    vm_compute. reflexivity.
Defined.

(** *** Examples for the further properties *)

(** X2 on the raw JSON of an operation. *)
Lemma operation_from_json_reads_witness :
  ∃ op w',
    operation._from_json sample_url (PRef 1) raw_operation_world = Ok op w' ∧
    operation.url op = sample_url ∧
    ∀ n,
      view n (mem w') (operation.type op)
        = view n (mem raw_operation_world) (PStr "SPARK") ∧
      view n (mem w') (operation.status op)
        = view n (mem raw_operation_world) (PRef 0) ∧
      view n (mem w') (operation.description op)
        = view n (mem raw_operation_world) PNone ∧
      view n (mem w') (PRef 1) = view n (mem raw_operation_world) (PRef 1).
Proof.
  apply (operation_from_json_reads sample_url raw_operation_world 1
           [("type", PStr "SPARK"); ("status", PRef 0)] {[0; 1]} (PStr "SPARK"));
    [reflexivity|apply raw_operation_closed|set_solver|reflexivity].
Defined.

(** X3 on the raw JSON of a dataset. *)
Lemma dataset_from_json_reads_witness :
  ∃ ds w',
    dataset._from_json sample_url (PRef 1) raw_dataset_world = Ok ds w' ∧
    dataset.url ds = sample_url ∧
    ∀ n,
      view n (mem w') (dataset.name ds)
        = view n (mem raw_dataset_world) (PStr "people") ∧
      view n (mem w') <$> dataset.key_attribute_names ds
        = view n (mem raw_dataset_world) <$> [PStr "id"; PStr "source"] ∧
      view n (mem w') (dataset.description ds)
        = view n (mem raw_dataset_world) PNone ∧
      view n (mem w') (PRef 1) = view n (mem raw_dataset_world) (PRef 1).
Proof.
  apply (dataset_from_json_reads sample_url raw_dataset_world 1
           [("name", PStr "people"); ("keyAttributeNames", PRef 0)] {[0; 1]}
           (PStr "people") (PRef 0) [PStr "id"; PStr "source"]);
    [reflexivity|apply raw_dataset_closed|set_solver|reflexivity..].
Defined.

(** X7 on a pending operation, waited for with a timeout of 100 seconds:
    with a poll interval of 3 seconds, and with one of -1 second. *)
Lemma wait_in_progress_sleeps_then_polls_witness :
  match operation.poll pending_then_succeeded sample_operation
          (asleep 3 (first_turn (Some 100%Z) (sample_world "PENDING"))) with
  | Ok op' w2 =>
      operation.wait 3 pending_then_succeeded sample_operation 3 (Some 100%Z)
        (sample_world "PENDING") =
        operation.wait_loop 2 pending_then_succeeded 3 (Some 100%Z) 0%Q op' w2 ∧
      slept w2 = [3%Z] ∧ requests w2 = [get_request sample_operation]
  | Raise e w2 =>
      operation.wait 3 pending_then_succeeded sample_operation 3 (Some 100%Z)
        (sample_world "PENDING") = Raise e w2 ∧
      slept w2 = [3%Z] ∧ requests w2 = [get_request sample_operation]
  | Stuck => False
  end ∧
  operation.wait 3 pending_then_succeeded sample_operation (-1) (Some 100%Z)
    (sample_world "PENDING")
    = Raise ValueError (first_turn (Some 100%Z) (sample_world "PENDING")).
Proof.
  split.
  - destruct (wait_in_progress_sleeps_then_polls 2 pending_then_succeeded
                sample_operation 3 (Some 100%Z) (sample_world "PENDING")
                (PStr "PENDING")) as [Hpolls _].
    + reflexivity.
    + reflexivity.
    + intros t [= <-]. apply sample_elapsed_lt; [reflexivity|lia].
    + apply Hpolls. split; [unfold sleep_max; lia|reflexivity].
  - destruct (wait_in_progress_sleeps_then_polls 2 pending_then_succeeded
                sample_operation (-1) (Some 100%Z) (sample_world "PENDING")
                (PStr "PENDING")) as [_ Hraises].
    + reflexivity.
    + reflexivity.
    + intros t [= <-]. apply sample_elapsed_lt; [reflexivity|lia].
    + apply (Hraises ValueError). right. left.
      split; [reflexivity|unfold sleep_max; lia].
Defined.

(** X8 with a timeout of 5 seconds, on the clock that advances by one second
    at each reading. *)
Lemma wait_with_timeout_ends_witness :
  operation.wait 6 pending_then_succeeded sample_operation 3 (Some 5%Z)
    (sample_world "PENDING") ≠ Stuck.
Proof.
  apply (wait_with_timeout_ends pending_then_succeeded sample_operation 3 5
           (sample_world "PENDING")).
  intros n. simpl. unfold Qle, Qplus, inject_Z. simpl. lia.
Defined.

(** X11 on a server that answers the refresh with "204 No Content". *)
Lemma materialize_settled_witness :
  ∃ op w',
    dataset.materialize 1 no_content sample_dataset (sample_world "PENDING")
      = Ok op w' ∧
    requests w' = [refresh_request sample_dataset] ∧ slept w' = [] ∧
    operation.url op =
      {| instance := sample_instance; path := PStr "operations/-1" |} ∧
    operation.succeeded op w' = Ok true w'.
Proof.
  apply (materialize_settled 0 no_content sample_dataset (sample_world "PENDING")
           {| status_code := 204; resp_url := "https://example.com/x";
              body := None |}
           [("id", JStr "-1");
            ("type", JStr "NOOP");
            ("description", JStr operation._description);
            ("status", JObj [("state", JStr "SUCCEEDED");
                             ("startTime", JStr operation._never);
                             ("endTime", JStr operation._never);
                             ("message", JStr "")]);
            ("created", JObj [("username", JStr "");
                              ("time", JStr operation._never);
                              ("version", JStr "-1")]);
            ("lastModified", JObj [("username", JStr "");
                                   ("time", JStr operation._never);
                                   ("version", JStr "-1")]);
            ("relativeId", JStr "operations/-1")]
           "-1" (JStr "NOOP") true); reflexivity.
Defined.

(** X17 on an error answer with two members: [by_name] calls it ambiguous. *)
Lemma by_name_not_an_array_witness :
  ∃ w', dataset.by_name (scripted [error_json]) sample_instance "people"
          (sample_world "PENDING")
          = Raise (Ambiguous "https://example.com/x") w'.
Proof.
  apply (by_name_not_an_array (scripted [error_json]) sample_instance "people"
           (sample_world "PENDING")
           {| status_code := 200; resp_url := "https://example.com/x";
              body := Some error_json |}).
  reflexivity.
Defined.
